(** * Shift-assignment optimizer: compatibility model, accumulator, solver, validator

    A shallow embedding of [compute_employee_profile.py], [optimizer.py],
    [validator.py] and [preprocessing.py], with the properties their
    specification states and further properties of the code, up to the
    checks that [main] runs before and after the filling.

    Conventions of the embedding.
    - A pandas row is a record of optional cells: [None] is an absent column,
      so [shift['X']] is [col "X" (X shift)] and raises [KeyError] on [None],
      while [shift.get('X', d)] is [default d (X shift)].  A frame is the list
      of its rows; the rows of one frame share their columns, so a test on
      [df.columns] is the same test on each row, and a frame of shifts without
      rows still has its columns.  The only null cell of a shift is a
      null [EmployeeNumber].
    - Python floats are exact rationals ([Q]); rounding of binary64 arithmetic
      is outside the model.  Integers are [Z], counts are [nat].
    - A time-of-day string ['HH:MM:SS'] is the time it denotes.
    - Python dictionaries whose iteration order reaches the output are
      insertion-ordered association lists ([PyDict]); dictionaries that are
      only looked up are [gmap]s, Python sets are [gset]s.
    - The MILP solver behind [prob.solve()] is not part of the repository: it
      is a function from the problem to a status and the values it leaves in
      the variables, passed as an argument.
    - [print] and the PuLP calls are events of a log returned with the value.

    The file has two parts: the embedding with the notions used to state the
    properties, then the lemmas and theorems. *)

From Stdlib Require Import QArith Lqa.
From stdpp Require Import base option list gmap sets strings pretty sorting.

Set Default Proof Using "Type".

(** ** Exceptions *)

Inductive result (A : Type) : Type :=
  | Ok (a : A)
  | KeyError (column : string).
Arguments Ok {A} a.
Arguments KeyError {A} column.

Global Instance result_ret : MRet result := λ A a, Ok a.
Global Instance result_bind : MBind result := λ A B f m,
  match m with
  | Ok a => f a
  | KeyError c => KeyError c
  end.

(** [row['name']] on a row whose cell for [name] is [cell]. *)
Definition col {A} (name : string) (cell : option A) : result A :=
  match cell with
  | Some v => Ok v
  | None => KeyError name
  end.

(** A loop whose body may raise: the first exception ends it. *)
Fixpoint for_each {A S} (body : S → A → result S) (s : S) (l : list A) : result S :=
  match l with
  | [] => Ok s
  | a :: l' => s' ← body s a; for_each body s' l'
  end.

Fixpoint map_rows {A B} (f : A → result B) (l : list A) : result (list B) :=
  match l with
  | [] => Ok []
  | a :: l' => b ← f a; bs ← map_rows f l'; Ok (b :: bs)
  end.

(** ** Shift records *)

Record TimeOfDay := { hour : Z; minute : Z; second : Z }.

Record Row := {
  ScheduleDetailID : option Z;
  DayNum : option Z;
  JobNumber : option Z;
  (** [Some None] is a present but null (NaN) cell: an unfilled shift. *)
  EmployeeNumber : option (option Z);
  IsUnfilled : option bool;
  ShiftStartTime : option TimeOfDay;
  ShiftEndTime : option TimeOfDay;
  ShiftStartTime_parsed : option TimeOfDay;
  ShiftDurationHours : option Q;
  ShiftTimeCategory : option string;
  ShiftDurationCategory : option string;
  ShiftType : option string
}.

Abbreviation DataFrame := (list Row).

Definition set_ShiftStartTime_parsed (v : TimeOfDay) (r : Row) : Row :=
  {| ScheduleDetailID := ScheduleDetailID r; DayNum := DayNum r;
     JobNumber := JobNumber r; EmployeeNumber := EmployeeNumber r;
     IsUnfilled := IsUnfilled r; ShiftStartTime := ShiftStartTime r;
     ShiftEndTime := ShiftEndTime r; ShiftStartTime_parsed := Some v;
     ShiftDurationHours := ShiftDurationHours r;
     ShiftTimeCategory := ShiftTimeCategory r;
     ShiftDurationCategory := ShiftDurationCategory r;
     ShiftType := ShiftType r |}.

Definition set_ShiftDurationHours (v : Q) (r : Row) : Row :=
  {| ScheduleDetailID := ScheduleDetailID r; DayNum := DayNum r;
     JobNumber := JobNumber r; EmployeeNumber := EmployeeNumber r;
     IsUnfilled := IsUnfilled r; ShiftStartTime := ShiftStartTime r;
     ShiftEndTime := ShiftEndTime r;
     ShiftStartTime_parsed := ShiftStartTime_parsed r;
     ShiftDurationHours := Some v;
     ShiftTimeCategory := ShiftTimeCategory r;
     ShiftDurationCategory := ShiftDurationCategory r;
     ShiftType := ShiftType r |}.

Definition set_ShiftTimeCategory (v : string) (r : Row) : Row :=
  {| ScheduleDetailID := ScheduleDetailID r; DayNum := DayNum r;
     JobNumber := JobNumber r; EmployeeNumber := EmployeeNumber r;
     IsUnfilled := IsUnfilled r; ShiftStartTime := ShiftStartTime r;
     ShiftEndTime := ShiftEndTime r;
     ShiftStartTime_parsed := ShiftStartTime_parsed r;
     ShiftDurationHours := ShiftDurationHours r;
     ShiftTimeCategory := Some v;
     ShiftDurationCategory := ShiftDurationCategory r;
     ShiftType := ShiftType r |}.

Definition set_ShiftDurationCategory (v : string) (r : Row) : Row :=
  {| ScheduleDetailID := ScheduleDetailID r; DayNum := DayNum r;
     JobNumber := JobNumber r; EmployeeNumber := EmployeeNumber r;
     IsUnfilled := IsUnfilled r; ShiftStartTime := ShiftStartTime r;
     ShiftEndTime := ShiftEndTime r;
     ShiftStartTime_parsed := ShiftStartTime_parsed r;
     ShiftDurationHours := ShiftDurationHours r;
     ShiftTimeCategory := ShiftTimeCategory r;
     ShiftDurationCategory := Some v;
     ShiftType := ShiftType r |}.

Definition set_ShiftType (v : string) (r : Row) : Row :=
  {| ScheduleDetailID := ScheduleDetailID r; DayNum := DayNum r;
     JobNumber := JobNumber r; EmployeeNumber := EmployeeNumber r;
     IsUnfilled := IsUnfilled r; ShiftStartTime := ShiftStartTime r;
     ShiftEndTime := ShiftEndTime r;
     ShiftStartTime_parsed := ShiftStartTime_parsed r;
     ShiftDurationHours := ShiftDurationHours r;
     ShiftTimeCategory := ShiftTimeCategory r;
     ShiftDurationCategory := ShiftDurationCategory r;
     ShiftType := Some v |}.

(** [result.loc[i, 'EmployeeNumber'] = float(emp); result.loc[i, 'IsUnfilled'] = False] *)
Definition set_assigned (emp : Z) (r : Row) : Row :=
  {| ScheduleDetailID := ScheduleDetailID r; DayNum := DayNum r;
     JobNumber := JobNumber r; EmployeeNumber := Some (Some emp);
     IsUnfilled := Some false; ShiftStartTime := ShiftStartTime r;
     ShiftEndTime := ShiftEndTime r;
     ShiftStartTime_parsed := ShiftStartTime_parsed r;
     ShiftDurationHours := ShiftDurationHours r;
     ShiftTimeCategory := ShiftTimeCategory r;
     ShiftDurationCategory := ShiftDurationCategory r;
     ShiftType := ShiftType r |}.

(** ** Feature extractor ([extract_shift_features]) *)

Definition categorize_shift_time (start_time : TimeOfDay) : string :=
  let h := hour start_time in
  if bool_decide (6 ≤ h < 12)%Z then "morning"
  else if bool_decide (12 ≤ h < 18)%Z then "afternoon"
  else if bool_decide (18 ≤ h < 22)%Z then "evening"
  else "night".

Definition seconds_of (t : TimeOfDay) : Z :=
  (hour t * 3600 + minute t * 60 + second t)%Z.

(** Both times are placed on the same day; an end before the start is moved
    to the next day. *)
Definition calculate_hours (start end_ : TimeOfDay) : Q :=
  let start_dt := seconds_of start in
  let end_dt := seconds_of end_ in
  let end_dt := if bool_decide (end_dt < start_dt)%Z then (end_dt + 86400)%Z else end_dt in
  (inject_Z (end_dt - start_dt) / 3600)%Q.

Definition categorize_duration (hours : Q) : string :=
  if Qle_bool hours 6 then "short"
  else if Qle_bool hours 10 then "medium"
  else "long".

Definition extract_shift_features_row (r : Row) : result Row :=
  r ← match ShiftStartTime_parsed r with
      | Some _ => Ok r
      | None => t ← col "ShiftStartTime" (ShiftStartTime r);
                Ok (set_ShiftStartTime_parsed t r)
      end;
  parsed ← col "ShiftStartTime_parsed" (ShiftStartTime_parsed r);
  let r := set_ShiftTimeCategory (categorize_shift_time parsed) r in
  r ← match ShiftDurationHours r with
      | Some _ => Ok r
      | None => s ← col "ShiftStartTime" (ShiftStartTime r);
                e ← col "ShiftEndTime" (ShiftEndTime r);
                Ok (set_ShiftDurationHours (calculate_hours s e) r)
      end;
  hours ← col "ShiftDurationHours" (ShiftDurationHours r);
  let r := set_ShiftDurationCategory (categorize_duration hours) r in
  tc ← col "ShiftTimeCategory" (ShiftTimeCategory r);
  dc ← col "ShiftDurationCategory" (ShiftDurationCategory r);
  Ok (set_ShiftType (tc +:+ "_" +:+ dc) r).

Definition extract_shift_features (df : DataFrame) : result DataFrame :=
  map_rows extract_shift_features_row df.

(** ** Employee profile builder ([compute_compatibility]) *)

(** [Series.unique()]: the distinct values in order of first appearance. *)
Fixpoint unique `{EqDecision A} (l : list A) : list A :=
  match l with
  | [] => []
  | x :: l' => x :: filter (λ y, y ≠ x) (unique l')
  end.

(** [Series.value_counts().to_dict()] *)
Definition value_counts `{Countable K} (l : list K) : gmap K nat :=
  foldr (λ k counts, <[k := S (default 0%nat (counts !! k))]> counts) ∅ l.

(** Python's [count / total] on two integers. *)
Definition ratio (count total : nat) : Q :=
  (inject_Z (Z.of_nat count) / inject_Z (Z.of_nat total))%Q.

(** [{k: counts.get(k, 0) / total_shifts for k in universe}] *)
Definition normalize `{Countable K}
    (counts : gmap K nat) (total_shifts : nat) (universe : list K) : gmap K Q :=
  list_to_map ((λ k, (k, ratio (default 0%nat (counts !! k)) total_shifts)) <$> universe).

Definition day_col (day : Z) : string := "Day" +:+ pretty day +:+ "_Prob".
Definition time_col (time_cat : string) : string := "Time_" +:+ time_cat +:+ "_Prob".
Definition duration_col (dur_cat : string) : string := "Duration_" +:+ dur_cat +:+ "_Prob".
Definition job_col (job : Z) : string := "Job_" +:+ pretty job +:+ "_Prob".
Definition shift_type_col (shift_type : string) : string :=
  "ShiftType_" +:+ shift_type +:+ "_Prob".

(** One row of the profile frame: the two fixed columns and the probability
    columns, keyed by their names. *)
Record Profile := {
  profile_EmployeeNumber : Z;
  TotalShifts : nat;
  prob_columns : gmap string Q
}.

(** The frame of the profiles.  [pd.DataFrame()], which the builder returns
    for a history without filled shifts, has neither rows nor columns. *)
Inductive ProfileFrame :=
  | EmptyDataFrame
  | ProfileRows (rows : list Profile).

(** [employee_profiles.iterrows()] *)
Definition iterrows (employee_profiles : ProfileFrame) : list Profile :=
  match employee_profiles with
  | EmptyDataFrame => []
  | ProfileRows rows => rows
  end.

(** [employee_profiles['EmployeeNumber']] *)
Definition EmployeeNumber_column (employee_profiles : ProfileFrame) : result (list Z) :=
  match employee_profiles with
  | EmptyDataFrame => KeyError "EmployeeNumber"
  | ProfileRows rows => Ok (profile_EmployeeNumber <$> rows)
  end.

(** [for k in universe: profile[name(k)] = probs[k]]; [probs] was built over
    the same universe, so [probs[k]] is there. *)
Definition add_columns `{Countable K} (name : K → string)
    (probs : gmap K Q) (universe : list K) (profile : gmap string Q) : gmap string Q :=
  foldl (λ profile k, <[name k := default 0%Q (probs !! k)]> profile) profile universe.

(** The columns of a historical filled shift that the builder reads. *)
Record HistoricalShift := {
  h_EmployeeNumber : Z;
  h_DayNum : Z;
  h_ShiftTimeCategory : string;
  h_ShiftDurationCategory : string;
  h_JobNumber : Z;
  h_ShiftType : string
}.

Definition historical_shift (r : Row) : result (option HistoricalShift) :=
  e ← col "EmployeeNumber" (EmployeeNumber r);
  match e with
  | None => Ok None
  | Some emp =>
      day ← col "DayNum" (DayNum r);
      tc ← col "ShiftTimeCategory" (ShiftTimeCategory r);
      dc ← col "ShiftDurationCategory" (ShiftDurationCategory r);
      job ← col "JobNumber" (JobNumber r);
      st ← col "ShiftType" (ShiftType r);
      Ok (Some {| h_EmployeeNumber := emp; h_DayNum := day;
                  h_ShiftTimeCategory := tc; h_ShiftDurationCategory := dc;
                  h_JobNumber := job; h_ShiftType := st |})
  end.

(** [df[df['EmployeeNumber'].notna()]] *)
Fixpoint select_notna (df : DataFrame) : result DataFrame :=
  match df with
  | [] => Ok []
  | r :: df' =>
      e ← col "EmployeeNumber" (EmployeeNumber r);
      rest ← select_notna df';
      Ok (if e is Some _ then r :: rest else rest)
  end.

(** [df[df['EmployeeNumber'].isna()]] *)
Fixpoint select_isna (df : DataFrame) : result DataFrame :=
  match df with
  | [] => Ok []
  | r :: df' =>
      e ← col "EmployeeNumber" (EmployeeNumber r);
      rest ← select_isna df';
      Ok (if e is Some _ then rest else r :: rest)
  end.

Definition all_days (fs : list HistoricalShift) : list Z :=
  merge_sort Z.le (unique (h_DayNum <$> fs)).
Definition all_times (fs : list HistoricalShift) : list string :=
  merge_sort String.le (unique (h_ShiftTimeCategory <$> fs)).
Definition all_durations (fs : list HistoricalShift) : list string :=
  merge_sort String.le (unique (h_ShiftDurationCategory <$> fs)).
Definition all_jobs (fs : list HistoricalShift) : list Z :=
  merge_sort Z.le (unique (h_JobNumber <$> fs)).
Definition all_shift_types (fs : list HistoricalShift) : list string :=
  merge_sort String.le (unique (h_ShiftType <$> fs)).

(** The body of the loop over [unique_employees]: [None] is [continue]. *)
Definition build_profile (fs : list HistoricalShift) (emp_num : Z) : option Profile :=
  let emp_shifts := filter (λ f, h_EmployeeNumber f = emp_num) fs in
  let total_shifts := length emp_shifts in
  if bool_decide (total_shifts = 0%nat) then None else
  let day_counts := value_counts (h_DayNum <$> emp_shifts) in
  let time_counts := value_counts (h_ShiftTimeCategory <$> emp_shifts) in
  let duration_counts := value_counts (h_ShiftDurationCategory <$> emp_shifts) in
  let job_counts := value_counts (h_JobNumber <$> emp_shifts) in
  let shift_type_counts := value_counts (h_ShiftType <$> emp_shifts) in
  let day_probs := normalize day_counts total_shifts (all_days fs) in
  let time_probs := normalize time_counts total_shifts (all_times fs) in
  let duration_probs := normalize duration_counts total_shifts (all_durations fs) in
  let job_probs := normalize job_counts total_shifts (all_jobs fs) in
  let shift_type_probs := normalize shift_type_counts total_shifts (all_shift_types fs) in
  let profile := ∅ in
  let profile := add_columns day_col day_probs (all_days fs) profile in
  let profile := add_columns time_col time_probs (all_times fs) profile in
  let profile := add_columns duration_col duration_probs (all_durations fs) profile in
  let profile := add_columns job_col job_probs (all_jobs fs) profile in
  let profile := add_columns shift_type_col shift_type_probs (all_shift_types fs) profile in
  Some {| profile_EmployeeNumber := emp_num; TotalShifts := total_shifts;
          prob_columns := profile |}.

Definition build_profiles (fs : list HistoricalShift) : list Profile :=
  let unique_employees := unique (h_EmployeeNumber <$> fs) in
  omap (build_profile fs) unique_employees.

(** The columns that the builder reads in the filled shifts, once their
    features are extracted. *)
Definition features_of (filled_shifts : DataFrame) : result (list HistoricalShift) :=
  filled_shifts ← extract_shift_features filled_shifts;
  hs ← map_rows historical_shift filled_shifts;
  Ok (omap (M:=list) id hs).

Definition compute_compatibility (historical_data : DataFrame) : result ProfileFrame :=
  filled_shifts ← select_notna historical_data;
  match filled_shifts with
  | [] => Ok EmptyDataFrame
  | _ => fs ← features_of filled_shifts; Ok (ProfileRows (build_profiles fs))
  end.

(** ** Compatibility scorer ([get_compatibility_score]) *)

Definition weight_day : Q := 0.3.
Definition weight_time : Q := 0.25.
Definition weight_duration : Q := 0.15.
Definition weight_job : Q := 0.2.
Definition weight_shift_type : Q := 0.1.

(** [if column in employee_profile: score += weight * employee_profile[column]] *)
Definition add_term (employee_profile : gmap string Q)
    (weight : Q) (column : string) (score : Q) : Q :=
  match employee_profile !! column with
  | Some p => (score + weight * p)%Q
  | None => score
  end.

Definition get_compatibility_score (employee_profile : gmap string Q)
    (shift_day : Z) (shift_time_category shift_duration_category : string)
    (shift_job : Z) (shift_type : string) : Q :=
  let score := 0%Q in
  let score := add_term employee_profile weight_day (day_col shift_day) score in
  let score := add_term employee_profile weight_time (time_col shift_time_category) score in
  let score := add_term employee_profile weight_duration
                 (duration_col shift_duration_category) score in
  let score := add_term employee_profile weight_job (job_col shift_job) score in
  let score := add_term employee_profile weight_shift_type
                 (shift_type_col shift_type) score in
  score.

(** ** Python dictionaries that are iterated *)

(** An insertion-ordered dictionary: [items()] yields the entries in the
    order in which their keys were first set. *)
Abbreviation PyDict K V := (list (K * V)).

Fixpoint dict_get `{EqDecision K} {V} (k : K) (d : PyDict K V) : option V :=
  match d with
  | [] => None
  | (k', v) :: d' => if decide (k' = k) then Some v else dict_get k d'
  end.

(** [d[k] = v] *)
Fixpoint dict_set `{EqDecision K} {V} (k : K) (v : V) (d : PyDict K V) : PyDict K V :=
  match d with
  | [] => [(k, v)]
  | (k', v') :: d' =>
      if decide (k' = k) then (k, v) :: d' else (k', v') :: dict_set k v d'
  end.

Definition Qgt_bool (x y : Q) : bool := negb (Qle_bool x y).

(** ** Constraint accumulator (the loops over the filled shifts) *)

Record AssignmentState := {
  employee_week_hours : PyDict (Z * Z) Q;       (* (emp, week) -> hours *)
  employee_week_days : PyDict (Z * Z) (gset Z);  (* (emp, week) -> set of days *)
  employee_day_shifts : PyDict (Z * Z) nat       (* (emp, day) -> count *)
}.

Definition empty_state : AssignmentState :=
  {| employee_week_hours := []; employee_week_days := []; employee_day_shifts := [] |}.

Definition record_shift (st : AssignmentState) (emp day : Z) (duration : Q) : AssignmentState :=
  let week := 0%Z in
  let key := (emp, week) in
  let hours := employee_week_hours st in
  let hours := dict_set key (default 0 (dict_get key hours) + duration)%Q hours in
  let days := employee_week_days st in
  let days := if dict_get key days is None then dict_set key ∅ days else days in
  let days := dict_set key (default ∅ (dict_get key days) ∪ {[day]}) days in
  let day_key := (emp, day) in
  let shifts := employee_day_shifts st in
  let shifts := dict_set day_key (default 0 (dict_get day_key shifts) + 1)%nat shifts in
  {| employee_week_hours := hours; employee_week_days := days;
     employee_day_shifts := shifts |}.

(** The body of the loop over the filled shifts.  A missing duration column
    is read as 8.0 hours: [shift.get('ShiftDurationHours', 8.0)].  In
    [validate_constraints] the rows were selected with [notna] beforehand, so
    the test always succeeds there. *)
Definition accumulate_shift (st : AssignmentState) (shift : Row) : result AssignmentState :=
  e ← col "EmployeeNumber" (EmployeeNumber shift);
  match e with
  | None => Ok st
  | Some emp =>
      day ← col "DayNum" (DayNum shift);
      let duration := default 8%Q (ShiftDurationHours shift) in
      Ok (record_shift st emp day duration)
  end.

Definition accumulate (filled_shifts : DataFrame) : result AssignmentState :=
  for_each accumulate_shift empty_state filled_shifts.

(** ** Constraint validator ([validate_constraints]) *)

Record HoursViolation := { hv_employee : Z; hv_week : Z; hv_hours : Q; hv_limit : Z }.
Record DaysViolation := { dv_employee : Z; dv_week : Z; dv_days : nat; dv_limit : Z }.
Record DailyViolation := { sv_employee : Z; sv_day : Z; sv_count : nat; sv_limit : Z }.

Record Violations := {
  weekly_hours : list HoursViolation;
  work_days : list DaysViolation;
  daily_shifts : list DailyViolation
}.

Record ValidationResult := {
  valid : bool;
  violations : Violations;
  total_violations : nat;
  (** The three aggregate entries, absent from the early return. *)
  aggregates : option (PyDict (Z * Z) Q * PyDict (Z * Z) nat * PyDict (Z * Z) nat)
}.

Definition check_constraints (st : AssignmentState) : Violations :=
  {| weekly_hours :=
       omap (λ '((emp, w), hours),
               if Qgt_bool hours 40
               then Some {| hv_employee := emp; hv_week := w; hv_hours := hours; hv_limit := 40 |}
               else None) (employee_week_hours st);
     work_days :=
       omap (λ '((emp, w), days),
               if bool_decide (5 < size days)%nat
               then Some {| dv_employee := emp; dv_week := w; dv_days := size days; dv_limit := 5 |}
               else None) (employee_week_days st);
     daily_shifts :=
       omap (λ '((emp, day), count),
               if bool_decide (1 < count)%nat
               then Some {| sv_employee := emp; sv_day := day; sv_count := count; sv_limit := 1 |}
               else None) (employee_day_shifts st) |}.

Definition no_violations : Violations :=
  {| weekly_hours := []; work_days := []; daily_shifts := [] |}.

Definition validate_constraints (snapshot : DataFrame) : result ValidationResult :=
  filled_shifts ← select_notna snapshot;
  if bool_decide (length filled_shifts = 0%nat) then
    Ok {| valid := true; violations := no_violations; total_violations := 0;
          aggregates := None |}
  else
    st ← for_each accumulate_shift empty_state filled_shifts;
    let violations := check_constraints st in
    let total_violations :=
      (length (weekly_hours violations) + length (work_days violations)
       + length (daily_shifts violations))%nat in
    Ok {| valid := bool_decide (total_violations = 0%nat);
          violations := violations;
          total_violations := total_violations;
          aggregates := Some (employee_week_hours st,
                              prod_map id size <$> employee_week_days st,
                              employee_day_shifts st) |}.

(** ** The integer program (PuLP objects) *)

(** A decision variable is the dictionary key under which the code keeps it:
    [x[(emp, shift_id)]], named [x_{emp}_{id}_{day}], and [day_vars[day]] of
    one employee and week, named [day_{emp}_{week}_{day}]. *)
Inductive LpVariable :=
  | x_var (emp : Z) (shift_id : Z * Z)
  | day_var (emp week day : Z).

Global Instance LpVariable_eq_dec : EqDecision LpVariable.
Proof. solve_decision. Defined.

Record LpAffineExpression := { terms : list (Q * LpVariable); constant : Q }.

Definition lpSum (ts : list (Q * LpVariable)) : LpAffineExpression :=
  {| terms := ts; constant := 0 |}.
Definition lp_const (c : Q) : LpAffineExpression := {| terms := []; constant := c |}.
Definition lp_var (v : LpVariable) : LpAffineExpression := lpSum [(1%Q, v)].
(** [c + e] *)
Definition lp_plus (c : Q) (e : LpAffineExpression) : LpAffineExpression :=
  {| terms := terms e; constant := (c + constant e)%Q |}.

Inductive LpConstraint :=
  | LpLe (lhs rhs : LpAffineExpression)   (* lhs <= rhs *)
  | LpGe (lhs rhs : LpAffineExpression).  (* lhs >= rhs *)

(** [LpProblem("Shift_Assignment", LpMaximize)]; every variable is binary. *)
Record LpProblem := {
  objective : LpAffineExpression;
  constraints : list LpConstraint
}.

Inductive LpStatus :=
  | LpStatusNotSolved | LpStatusOptimal | LpStatusInfeasible
  | LpStatusUnbounded | LpStatusUndefined.

(** The integer [prob.solve()] returns. *)
Definition status_code (s : LpStatus) : Z :=
  match s with
  | LpStatusNotSolved => 0
  | LpStatusOptimal => 1
  | LpStatusInfeasible => -1
  | LpStatusUnbounded => -2
  | LpStatusUndefined => -3
  end.

(** What a call of [prob.solve()] leaves behind: the status and the
    [varValue] of each variable ([None] when the solver set none). *)
Record Solution := { status : LpStatus; varValue : LpVariable → option Q }.

(** The MILP solver is external to the repository: a function of the problem. *)
Abbreviation Solver := (LpProblem → Solution).

(** ** The event log *)

Inductive Message :=
  | MsgExcluding (n : nat)          (* Excluding {n} employees who already violate constraints: *)
  | MsgExcludedHours (n : nat)      (* Hours > 40: {n} *)
  | MsgExcludedDays (n : nat)       (* Days > 5: {n} *)
  | MsgExcludedDaily (n : nat)      (* Daily shifts > 1: {n} *)
  | MsgNoValidEmployees             (* No valid employees available for assignment ... *)
  | MsgSolverStatus (s : LpStatus)  (* Warning: Solver status: {LpStatus[status]} *)
  | MsgInfeasible                   (* Problem is infeasible - no solution found ... *)
  | MsgAlreadyAssigned (shift_id : Z * Z) (holder emp : Z)
                                    (* Warning: Shift ... already assigned to ..., skipping ... *)
  | MsgNoAssignments.               (* No assignments made (problem may be infeasible) *)

Inductive Event :=
  | Printed (m : Message)
  | NewProblem
  | NewVariable (v : LpVariable)
  | Solve (prob : LpProblem).

(** ** Compatibility matrix ([compute_compatibility_matrix]) *)

Record CompatibilityRow := {
  c_EmployeeNumber : Z;
  c_ScheduleDetailID : Z;
  c_DayNum : Z;
  CompatibilityScore : Q;
  c_ShiftDurationHours : Q
}.

Definition compatibility_rows (employee_profiles : list Profile) (shift : Row)
    : result (list CompatibilityRow) :=
  shift_day ← col "DayNum" (DayNum shift);
  shift_time_cat ← col "ShiftTimeCategory" (ShiftTimeCategory shift);
  shift_duration_cat ← col "ShiftDurationCategory" (ShiftDurationCategory shift);
  shift_job ← col "JobNumber" (JobNumber shift);
  shift_type ← col "ShiftType" (ShiftType shift);
  schedule_detail_id ← col "ScheduleDetailID" (ScheduleDetailID shift);
  duration ← col "ShiftDurationHours" (ShiftDurationHours shift);
  Ok ((λ emp_profile,
         {| c_EmployeeNumber := profile_EmployeeNumber emp_profile;
            c_ScheduleDetailID := schedule_detail_id;
            c_DayNum := shift_day;
            CompatibilityScore :=
              get_compatibility_score (prob_columns emp_profile) shift_day
                shift_time_cat shift_duration_cat shift_job shift_type;
            c_ShiftDurationHours := duration |}) <$> employee_profiles).

Definition compute_compatibility_matrix
    (unfilled_shifts : DataFrame) (employee_profiles : ProfileFrame)
    : result (list CompatibilityRow) :=
  unfilled_shifts ← extract_shift_features unfilled_shifts;
  rows ← map_rows (compatibility_rows (iterrows employee_profiles)) unfilled_shifts;
  Ok (concat rows).

(** ** Assignment solver ([solve_assignment]) *)

Definition shift_id_of (shift : Row) : result (Z * Z) :=
  schedule_detail_id ← col "ScheduleDetailID" (ScheduleDetailID shift);
  day ← col "DayNum" (DayNum shift);
  Ok (schedule_detail_id, day).

Definition group_shifts_by_week (shifts : DataFrame) : result (PyDict Z (list (Z * Z))) :=
  let week_id := 0%Z in
  shift_list ← map_rows shift_id_of shifts;
  Ok [(week_id, shift_list)].

Global Instance Q_inhabited : Inhabited Q := populate 0%Q.

Definition current_hours_of (st : AssignmentState) (emp week : Z) : Q :=
  default 0%Q (dict_get (emp, week) (employee_week_hours st)).
Definition current_day_set_of (st : AssignmentState) (emp week : Z) : gset Z :=
  default ∅ (dict_get (emp, week) (employee_week_days st)).
Definition current_days_of (st : AssignmentState) (emp week : Z) : nat :=
  size (current_day_set_of st emp week).
Definition current_shifts_of (st : AssignmentState) (emp day : Z) : nat :=
  default 0%nat (dict_get (emp, day) (employee_day_shifts st)).

(** [any(count > 1 for (e, d), count in employee_day_shifts.items() if e == emp)] *)
Definition has_daily_violation (st : AssignmentState) (emp : Z) : bool :=
  existsb (λ '((e, d), count), bool_decide (e = emp) && bool_decide (1 < count)%nat)
          (employee_day_shifts st).

Inductive Exclusion := ExcludedHours | ExcludedDays | ExcludedDaily.

Global Instance Exclusion_eq_dec : EqDecision Exclusion.
Proof. solve_decision. Defined.

(** The test of the pre-exclusion loop: [None] puts [emp] in the pool. *)
Definition exclusion (st : AssignmentState) (emp : Z) : option Exclusion :=
  let week := 0%Z in
  if Qle_bool 40 (current_hours_of st emp week) then Some ExcludedHours
  else if bool_decide (5 ≤ current_days_of st emp week)%nat then Some ExcludedDays
  else if has_daily_violation st emp then Some ExcludedDaily
  else None.

Definition valid_employees_of (st : AssignmentState) (employees : list Z) : list Z :=
  filter (λ emp, exclusion st emp = None) employees.
Definition excluded_employees_of (st : AssignmentState) (employees : list Z) : list Z :=
  filter (λ emp, exclusion st emp ≠ None) employees.
Definition exclusion_count (st : AssignmentState) (employees : list Z) (why : Exclusion) : nat :=
  length (filter (λ emp, exclusion st emp = Some why) employees).

Definition exclusion_log (st : AssignmentState) (employees : list Z) : list Event :=
  let excluded_employees := excluded_employees_of st employees in
  if bool_decide (0 < length excluded_employees)%nat then
    [Printed (MsgExcluding (length excluded_employees));
     Printed (MsgExcludedHours (exclusion_count st employees ExcludedHours));
     Printed (MsgExcludedDays (exclusion_count st employees ExcludedDays));
     Printed (MsgExcludedDaily (exclusion_count st employees ExcludedDaily))]
  else [].

(** [x[(emp, shift_id)] = LpVariable(..., cat='Binary')] for the pool. *)
Definition x_keys (valid_employees : list Z) (shift_ids : list (Z * Z))
    : list (Z * (Z * Z)) :=
  emp ← valid_employees; shift_id ← shift_ids; [(emp, shift_id)].

Definition objective_of (compatibility : gmap (Z * (Z * Z)) Q)
    (valid_employees : list Z) (shift_ids : list (Z * Z)) : LpAffineExpression :=
  lpSum ((λ '(emp, shift_id),
            (default 0%Q (compatibility !! (emp, shift_id)), x_var emp shift_id))
         <$> x_keys valid_employees shift_ids).

(** Constraint 1: each shift assigned to at most one employee. *)
Definition one_employee_per_shift (valid_employees : list Z) (shift_ids : list (Z * Z))
    : list LpConstraint :=
  (λ shift_id,
     LpLe (lpSum ((λ emp, (1%Q, x_var emp shift_id)) <$> valid_employees)) (lp_const 1))
  <$> shift_ids.

(** Constraint 2: weekly hours limit. *)
Definition weekly_hours_limit (st : AssignmentState) (shift_durations : gmap (Z * Z) Q)
    (week_shifts : PyDict Z (list (Z * Z)))
    (valid_employees : list Z) (shift_ids : list (Z * Z)) : list LpConstraint :=
  emp ← valid_employees;
  '(week, week_shift_list) ← week_shifts;
  let current_hours := current_hours_of st emp week in
  let new_hours :=
    lpSum ((λ shift_id, (shift_durations !!! shift_id, x_var emp shift_id))
           <$> filter (λ shift_id, shift_id ∈ shift_ids) week_shift_list) in
  [LpLe (lp_plus current_hours new_hours) (lp_const 40)].

(** The days of the week's unfilled shifts; the order in which Python
    visits this set only orders the constraints. *)
Definition days_in_week_of (week_shift_list shift_ids : list (Z * Z)) : gset Z :=
  list_to_set (snd <$> filter (λ shift_id, shift_id ∈ shift_ids) week_shift_list).

Definition shifts_on_day_of (week_shift_list shift_ids : list (Z * Z)) (day : Z)
    : list (Z * Z) :=
  filter (λ shift_id, shift_id ∈ shift_ids ∧ shift_id.2 = day) week_shift_list.

(** The linking constraints of one day indicator. *)
Definition day_links (emp week day : Z) (shifts_on_day : list (Z * Z))
    : list LpConstraint :=
  match shifts_on_day with
  | [] => []
  | _ =>
      ((λ shift_id, LpGe (lp_var (day_var emp week day)) (lp_var (x_var emp shift_id)))
       <$> shifts_on_day)
      ++ [LpLe (lp_var (day_var emp week day))
               (lpSum ((λ shift_id, (1%Q, x_var emp shift_id)) <$> shifts_on_day))]
  end.

(** Constraint 3: work days limit.  Without day indicators the code adds
    [current_days <= 5], a plain [True] for an employee of the pool, which
    PuLP ignores. *)
Definition work_days_limit (st : AssignmentState)
    (week_shifts : PyDict Z (list (Z * Z)))
    (valid_employees : list Z) (shift_ids : list (Z * Z)) : list LpConstraint :=
  emp ← valid_employees;
  '(week, week_shift_list) ← week_shifts;
  let current_days := current_days_of st emp week in
  let days_in_week := elements (days_in_week_of week_shift_list shift_ids) in
  let links :=
    day ← days_in_week;
    day_links emp week day (shifts_on_day_of week_shift_list shift_ids day) in
  let day_vars := (λ day, (1%Q, day_var emp week day)) <$> days_in_week in
  links ++
  match day_vars with
  | [] => []
  | _ => [LpLe (lp_plus (inject_Z (Z.of_nat current_days)) (lpSum day_vars)) (lp_const 5)]
  end.

(** Constraint 4: daily shift limit. *)
Definition daily_shift_limit (st : AssignmentState)
    (valid_employees : list Z) (shift_ids : list (Z * Z)) : list LpConstraint :=
  emp ← valid_employees;
  let days_with_shifts : gset Z := list_to_set (snd <$> shift_ids) in
  day ← elements days_with_shifts;
  let current_shifts := current_shifts_of st emp day in
  let shifts_on_day := filter (λ shift_id, shift_id.2 = day) shift_ids in
  let new_shifts_sum := lpSum ((λ shift_id, (1%Q, x_var emp shift_id)) <$> shifts_on_day) in
  [LpLe (lp_plus (inject_Z (Z.of_nat current_shifts)) new_shifts_sum) (lp_const 1)].

Definition build_problem (st : AssignmentState)
    (compatibility : gmap (Z * (Z * Z)) Q) (shift_durations : gmap (Z * Z) Q)
    (week_shifts : PyDict Z (list (Z * Z)))
    (valid_employees : list Z) (shift_ids : list (Z * Z)) : LpProblem :=
  {| objective := objective_of compatibility valid_employees shift_ids;
     constraints :=
       one_employee_per_shift valid_employees shift_ids
       ++ weekly_hours_limit st shift_durations week_shifts valid_employees shift_ids
       ++ work_days_limit st week_shifts valid_employees shift_ids
       ++ daily_shift_limit st valid_employees shift_ids |}.

(** The variables in the order of their creation. *)
Definition created_variables (week_shifts : PyDict Z (list (Z * Z)))
    (valid_employees : list Z) (shift_ids : list (Z * Z)) : list LpVariable :=
  ((λ '(emp, shift_id), x_var emp shift_id) <$> x_keys valid_employees shift_ids)
  ++ (emp ← valid_employees;
      '(week, week_shift_list) ← week_shifts;
      (λ day, day_var emp week day)
      <$> elements (days_in_week_of week_shift_list shift_ids)).

(** One step of the extraction loop. *)
Definition extract_step (varValue : LpVariable → option Q)
    (acc : PyDict (Z * Z) Z * list Event) (key : Z * (Z * Z))
    : PyDict (Z * Z) Z * list Event :=
  let '(assignments, log) := acc in
  let '(emp, shift_id) := key in
  match varValue (x_var emp shift_id) with
  | Some var_value =>
      if Qgt_bool var_value 0.5 then
        match dict_get shift_id assignments with
        | None => (dict_set shift_id emp assignments, log)
        | Some holder => (assignments, log ++ [Printed (MsgAlreadyAssigned shift_id holder emp)])
        end
      else (assignments, log)
  | None => (assignments, log)
  end.

Definition extract_solution (varValue : LpVariable → option Q)
    (valid_employees : list Z) (shift_ids : list (Z * Z))
    : PyDict (Z * Z) Z * list Event :=
  foldl (extract_step varValue) ([], []) (x_keys valid_employees shift_ids).

(** Everything [solve_assignment] computes before the pre-exclusion test. *)
Record Prepared := {
  employees : list Z;
  shift_ids : list (Z * Z);
  shift_durations : gmap (Z * Z) Q;
  compatibility : gmap (Z * (Z * Z)) Q;
  week_shifts : PyDict Z (list (Z * Z));
  state : AssignmentState
}.

(** [shift_durations[shift_id] = shift['ShiftDurationHours']] *)
Definition record_duration (shift_durations : gmap (Z * Z) Q) (shift : Row)
    : result (gmap (Z * Z) Q) :=
  shift_id ← shift_id_of shift;
  duration ← col "ShiftDurationHours" (ShiftDurationHours shift);
  Ok (<[shift_id := duration]> shift_durations).

Definition prepare (unfilled_shifts : DataFrame) (employee_profiles : ProfileFrame)
    (filled_shifts : DataFrame) : result Prepared :=
  compatibility_df ← compute_compatibility_matrix unfilled_shifts employee_profiles;
  employee_numbers ← EmployeeNumber_column employee_profiles;
  let employees := merge_sort Z.le (unique employee_numbers) in
  shift_ids ← map_rows shift_id_of unfilled_shifts;
  shift_durations ← for_each record_duration ∅ unfilled_shifts;
  let compatibility :=
    foldl (λ (d : gmap (Z * (Z * Z)) Q) row,
             <[(c_EmployeeNumber row, (c_ScheduleDetailID row, c_DayNum row))
               := CompatibilityScore row]> d) ∅ compatibility_df in
  week_shifts ← group_shifts_by_week unfilled_shifts;
  st ← accumulate filled_shifts;
  Ok {| employees := employees; shift_ids := shift_ids;
        shift_durations := shift_durations; compatibility := compatibility;
        week_shifts := week_shifts; state := st |}.

Definition problem_of (p : Prepared) : LpProblem :=
  build_problem (state p) (compatibility p) (shift_durations p) (week_shifts p)
    (valid_employees_of (state p) (employees p)) (shift_ids p).

Definition solve_assignment (solver : Solver)
    (unfilled_shifts : DataFrame) (employee_profiles : ProfileFrame)
    (filled_shifts : DataFrame) : result (PyDict (Z * Z) Z * list Event) :=
  p ← prepare unfilled_shifts employee_profiles filled_shifts;
  let valid_employees := valid_employees_of (state p) (employees p) in
  let log := exclusion_log (state p) (employees p) in
  if bool_decide (length valid_employees = 0%nat) then
    Ok ([], log ++ [Printed MsgNoValidEmployees])
  else
    let prob := problem_of p in
    let log := log ++ [NewProblem]
                   ++ (NewVariable <$> created_variables (week_shifts p)
                                         valid_employees (shift_ids p)) in
    let solution := solver prob in
    let log := log ++ [Solve prob] in
    let log := if bool_decide (status_code (status solution) ≠ 1%Z)
               then log ++ [Printed (MsgSolverStatus (status solution))] else log in
    if bool_decide (status_code (status solution) ≠ 1%Z)
       && bool_decide (status_code (status solution) = (-1)%Z)
    then Ok ([], log ++ [Printed MsgInfeasible])
    else
      let '(assignments, warnings) :=
        extract_solution (varValue solution) valid_employees (shift_ids p) in
      Ok (assignments, log ++ warnings).

(** ** Applying the assignments ([fill_unfilled_shifts]) *)

(** [drop_duplicates(subset=['ScheduleDetailID', 'DayNum'], keep='first')] *)
Fixpoint drop_duplicates_from (seen : list (Z * Z)) (df : DataFrame) : result DataFrame :=
  match df with
  | [] => Ok []
  | r :: df' =>
      key ← shift_id_of r;
      if bool_decide (key ∈ seen) then drop_duplicates_from seen df'
      else rest ← drop_duplicates_from (key :: seen) df'; Ok (r :: rest)
  end.

Definition drop_duplicates (df : DataFrame) : result DataFrame :=
  drop_duplicates_from [] df.

(** The boolean mask of one assignment over the rows of [result]. *)
Definition assignment_mask (shift_id : Z * Z) (r : Row) : result bool :=
  schedule_detail_id ← col "ScheduleDetailID" (ScheduleDetailID r);
  day_num ← col "DayNum" (DayNum r);
  is_unfilled ← col "IsUnfilled" (IsUnfilled r);
  Ok (bool_decide (schedule_detail_id = shift_id.1)
      && bool_decide (day_num = shift_id.2) && is_unfilled).

Fixpoint first_true (mask : list bool) : option nat :=
  match mask with
  | [] => None
  | true :: _ => Some 0%nat
  | false :: mask' => S <$> first_true mask'
  end.

Definition apply_assignment (df : DataFrame) (a : (Z * Z) * Z) : result DataFrame :=
  let '(shift_id, emp_num) := a in
  mask ← map_rows (assignment_mask shift_id) df;
  match first_true mask with
  | Some i => Ok (alter (set_assigned emp_num) i df)
  | None => Ok df
  end.

Definition fill_unfilled_shifts (solver : Solver)
    (latest_snapshot : DataFrame) (employee_profiles : ProfileFrame)
    : result (DataFrame * list Event) :=
  let result := latest_snapshot in
  filled_shifts ← select_notna result;
  unfilled_shifts ← select_isna result;
  if bool_decide (length unfilled_shifts = 0%nat) then Ok (result, [])
  else
    unfilled_shifts_deduped ← drop_duplicates unfilled_shifts;
    '(assignments, log) ←
      solve_assignment solver unfilled_shifts_deduped employee_profiles filled_shifts;
    if bool_decide (length assignments = 0%nat) then
      Ok (result, log ++ [Printed MsgNoAssignments])
    else
      result ← for_each apply_assignment result assignments;
      Ok (result, log).

(** ** Validator of the filled shifts ([validate_filled_shifts_constraints]) *)

(** The same accumulation and checks as [validate_constraints], without the
    selection of the filled rows: the early return tests the frame itself,
    and the loop skips the rows whose employee is null. *)
Definition validate_filled_shifts_constraints (filled_shifts : DataFrame)
    : result ValidationResult :=
  if bool_decide (length filled_shifts = 0%nat) then
    Ok {| valid := true; violations := no_violations; total_violations := 0;
          aggregates := None |}
  else
    st ← for_each accumulate_shift empty_state filled_shifts;
    let violations := check_constraints st in
    let total_violations :=
      (length (weekly_hours violations) + length (work_days violations)
       + length (daily_shifts violations))%nat in
    Ok {| valid := bool_decide (total_violations = 0%nat);
          violations := violations;
          total_violations := total_violations;
          aggregates := Some (employee_week_hours st,
                              prod_map id size <$> employee_week_days st,
                              employee_day_shifts st) |}.

(** ** Mean compatibility of an assignment ([compute_assignment_compatibility]) *)

(** The body of the loop over the assigned shifts: [None] when the shift adds
    no score (its employee is null, or has no profile). *)
Definition assignment_score (employee_profiles : ProfileFrame) (shift : Row)
    : result (option Q) :=
  e ← col "EmployeeNumber" (EmployeeNumber shift);
  match e with
  | None => Ok None
  | Some emp_num =>
      _ ← EmployeeNumber_column employee_profiles;
      match filter (λ prof, profile_EmployeeNumber prof = emp_num)
                   (iterrows employee_profiles) with
      | [] => Ok None
      | emp_profile :: _ =>
          shift_day ← col "DayNum" (DayNum shift);
          shift_time_cat ← col "ShiftTimeCategory" (ShiftTimeCategory shift);
          shift_duration_cat ← col "ShiftDurationCategory" (ShiftDurationCategory shift);
          shift_job ← col "JobNumber" (JobNumber shift);
          shift_type ← col "ShiftType" (ShiftType shift);
          Ok (Some (get_compatibility_score (prob_columns emp_profile) shift_day
                      shift_time_cat shift_duration_cat shift_job shift_type))
      end
  end.

(** Python's [sum]: the additions start from 0 and go from left to right. *)
Definition sum (l : list Q) : Q := foldl Qplus 0%Q l.

Definition compute_assignment_compatibility
    (assignments : DataFrame) (employee_profiles : ProfileFrame) : result Q :=
  assignments ← extract_shift_features assignments;
  scores ← map_rows (assignment_score employee_profiles) assignments;
  let compatibility_scores := omap (M:=list) id scores in
  if bool_decide (length compatibility_scores = 0%nat) then Ok 0%Q
  else Ok (sum compatibility_scores
           / inject_Z (Z.of_nat (length compatibility_scores)))%Q.

(** ** Preprocessing ([preprocess_schedule] and its steps) *)

(** A row of the schedule file and of the preprocessed frames: the columns of
    [Row], and those that only the preprocessing reads or writes.  The date of
    a snapshot is the text of the file. *)
Record ScheduleRow := {
  date : option string;
  shift_columns : Row;
  ShiftEndTime_parsed : option TimeOfDay;
  (** [Some None] is a null cell: a day number outside 1..7. *)
  DayOfWeek : option (option string)
}.

Abbreviation ScheduleFrame := (list ScheduleRow).

Definition with_shift_columns (f : Row → Row) (r : ScheduleRow) : ScheduleRow :=
  {| date := date r; shift_columns := f (shift_columns r);
     ShiftEndTime_parsed := ShiftEndTime_parsed r; DayOfWeek := DayOfWeek r |}.

Definition set_ShiftEndTime_parsed (v : TimeOfDay) (r : ScheduleRow) : ScheduleRow :=
  {| date := date r; shift_columns := shift_columns r;
     ShiftEndTime_parsed := Some v; DayOfWeek := DayOfWeek r |}.

Definition set_DayOfWeek (v : option string) (r : ScheduleRow) : ScheduleRow :=
  {| date := date r; shift_columns := shift_columns r;
     ShiftEndTime_parsed := ShiftEndTime_parsed r; DayOfWeek := Some v |}.

Definition set_IsUnfilled (v : bool) (r : Row) : Row :=
  {| ScheduleDetailID := ScheduleDetailID r; DayNum := DayNum r;
     JobNumber := JobNumber r; EmployeeNumber := EmployeeNumber r;
     IsUnfilled := Some v; ShiftStartTime := ShiftStartTime r;
     ShiftEndTime := ShiftEndTime r;
     ShiftStartTime_parsed := ShiftStartTime_parsed r;
     ShiftDurationHours := ShiftDurationHours r;
     ShiftTimeCategory := ShiftTimeCategory r;
     ShiftDurationCategory := ShiftDurationCategory r;
     ShiftType := ShiftType r |}.

(** The three column assignments of [handle_midnight_shifts], one after the
    other; the duration replaces one that the frame already has. *)
Definition handle_midnight_shifts (df : ScheduleFrame) : result ScheduleFrame :=
  df ← map_rows (λ r, t ← col "ShiftStartTime" (ShiftStartTime (shift_columns r));
                      Ok (with_shift_columns (set_ShiftStartTime_parsed t) r)) df;
  df ← map_rows (λ r, t ← col "ShiftEndTime" (ShiftEndTime (shift_columns r));
                      Ok (set_ShiftEndTime_parsed t r)) df;
  map_rows (λ r, start ← col "ShiftStartTime_parsed"
                           (ShiftStartTime_parsed (shift_columns r));
                 end_ ← col "ShiftEndTime_parsed" (ShiftEndTime_parsed r);
                 Ok (with_shift_columns
                       (set_ShiftDurationHours (calculate_hours start end_)) r)) df.

Global Instance result_eq_dec `{EqDecision A} : EqDecision (result A).
Proof. solve_decision. Defined.

(** [drop_duplicates(subset=..., keep='first')] over any subset of columns:
    [subset] reads the cells of the subset in a row. *)
Fixpoint drop_duplicates_by `{EqDecision K} {A} (subset : A → result K)
    (seen : list K) (df : list A) : result (list A) :=
  match df with
  | [] => Ok []
  | r :: df' =>
      key ← subset r;
      if bool_decide (key ∈ seen) then drop_duplicates_by subset seen df'
      else rest ← drop_duplicates_by subset (key :: seen) df'; Ok (r :: rest)
  end.

(** ['date' in df.columns] *)
Definition date_in_columns (df : ScheduleFrame) : bool :=
  forallb (λ r, bool_decide (is_Some (date r))) df.

Definition dated_shift_id_of (r : ScheduleRow) : result (string * (Z * Z)) :=
  d ← col "date" (date r);
  shift_id ← shift_id_of (shift_columns r);
  Ok (d, shift_id).

Definition deduplicate_schedule_details (df : ScheduleFrame) (by_date : bool)
    : result ScheduleFrame :=
  if by_date && date_in_columns df then drop_duplicates_by dated_shift_id_of [] df
  else drop_duplicates_by (λ r, shift_id_of (shift_columns r)) [] df.

(** [pd.isna] of an employee cell. *)
Definition isna {A} (cell : option A) : bool := if cell is None then true else false.

Definition identify_unfilled_shifts (df : ScheduleFrame) : result ScheduleFrame :=
  map_rows (λ r, e ← col "EmployeeNumber" (EmployeeNumber (shift_columns r));
                 Ok (with_shift_columns (set_IsUnfilled (isna e)) r)) df.

(** The dictionary that [parse_scheduling_weeks] maps over the day numbers. *)
Definition day_names : list (Z * string) :=
  [(1%Z, "Friday"); (2%Z, "Saturday"); (3%Z, "Sunday"); (4%Z, "Monday");
   (5%Z, "Tuesday"); (6%Z, "Wednesday"); (7%Z, "Thursday")].

Definition parse_scheduling_weeks (df : ScheduleFrame) : result ScheduleFrame :=
  map_rows (λ r, day ← col "DayNum" (DayNum (shift_columns r));
                 Ok (set_DayOfWeek (dict_get day day_names) r)) df.

Definition preprocess_schedule (df : ScheduleFrame) (deduplicate_by_date : bool)
    : result ScheduleFrame :=
  df ← handle_midnight_shifts df;
  df ← deduplicate_schedule_details df deduplicate_by_date;
  df ← identify_unfilled_shifts df;
  parse_scheduling_weeks df.

(** [df[df['IsUnfilled']]], the selection of the unfilled shifts in [main]. *)
Fixpoint select_IsUnfilled (df : DataFrame) : result DataFrame :=
  match df with
  | [] => Ok []
  | r :: df' =>
      u ← col "IsUnfilled" (IsUnfilled r);
      rest ← select_IsUnfilled df';
      Ok (if (u : bool) then r :: rest else rest)
  end.

(** * Notions used to state the properties *)

(** ** Scores *)

(** A profile whose probability columns all hold values of [[0,1]]. *)
Definition well_formed_profile (employee_profile : gmap string Q) : Prop :=
  map_Forall (λ _ p, 0 <= p ∧ p <= 1)%Q employee_profile.

(** The probability looked up in a column, 0 for an absent column. *)
Definition looked_up (employee_profile : gmap string Q) (column : string) : Q :=
  default 0%Q (employee_profile !! column).

Definition weighted_sum (employee_profile : gmap string Q)
    (shift_day : Z) (shift_time_category shift_duration_category : string)
    (shift_job : Z) (shift_type : string) : Q :=
  (0.30 * looked_up employee_profile (day_col shift_day)
   + 0.25 * looked_up employee_profile (time_col shift_time_category)
   + 0.15 * looked_up employee_profile (duration_col shift_duration_category)
   + 0.20 * looked_up employee_profile (job_col shift_job)
   + 0.10 * looked_up employee_profile (shift_type_col shift_type))%Q.

(** ** Distributions *)

(** The filled historical shifts with their features: the observations from
    which the profiles and the category universes are built. *)
Definition historical_features (historical_data : DataFrame)
    : result (list HistoricalShift) :=
  filled_shifts ← select_notna historical_data;
  features_of filled_shifts.

Definition sum_nat (l : list nat) : nat := foldr Nat.add 0%nat l.
Definition Qsum (l : list Q) : Q := foldr Qplus 0%Q l.

(** The total of the probabilities that a profile holds in the columns of
    one dimension, over a universe of categories. *)
Definition distribution_total {K} (employee_profile : gmap string Q)
    (column : K → string) (universe : list K) : Q :=
  Qsum ((λ k, looked_up employee_profile (column k)) <$> universe).

(** ** Aggregates of a shift set *)

Definition worked_by (emp : Z) (r : Row) : bool :=
  bool_decide (EmployeeNumber r = Some (Some emp)).

(** The hours an employee is committed to: the durations of their shifts,
    added in the order of the rows, each 8.0 where the column is absent. *)
Definition committed_hours (emp : Z) (rows : DataFrame) : Q :=
  foldl (λ acc r, if worked_by emp r
                  then (acc + default 8 (ShiftDurationHours r))%Q else acc) 0%Q rows.

(** The distinct days on which an employee works. *)
Definition days_worked (emp : Z) (rows : DataFrame) : gset Z :=
  list_to_set (omap DayNum (filter (λ r, worked_by emp r = true) rows)).

(** The number of shifts of an employee on a day. *)
Definition shifts_on (emp day : Z) (rows : DataFrame) : nat :=
  length (filter (λ r, worked_by emp r = true ∧ DayNum r = Some day) rows).

(** The columns that the accumulating loops index: [EmployeeNumber] on every
    row, [DayNum] on the filled ones. *)
Definition accumulable (rows : DataFrame) : Prop :=
  Forall (λ r, match EmployeeNumber r with
               | None => False
               | Some None => True
               | Some (Some _) => is_Some (DayNum r)
               end) rows.

(** The three dictionaries never hold a key twice. *)
Definition well_keyed (st : AssignmentState) : Prop :=
  NoDup (employee_week_hours st).*1 ∧ NoDup (employee_week_days st).*1
  ∧ NoDup (employee_day_shifts st).*1.

(** A row on which the accumulating loop raises: it has no [EmployeeNumber]
    cell, or it is filled and has no [DayNum] cell. *)
Definition lacks_indexed_column (r : Row) : Prop :=
  EmployeeNumber r = None
  ∨ (∃ emp, EmployeeNumber r = Some (Some emp)) ∧ DayNum r = None.

(** The row with its duration column filled in with 8.0 where absent. *)
Definition with_default_duration (r : Row) : Row :=
  set_ShiftDurationHours (default 8%Q (ShiftDurationHours r)) r.

(** ** Sample data *)

Definition at_8 : TimeOfDay := {| hour := 8; minute := 0; second := 0 |}.
Definition at_16 : TimeOfDay := {| hour := 16; minute := 0; second := 0 |}.

(** A preprocessed row of shift [id] on [day] for job 7, from 8:00 to 16:00,
    worked by [emp] ([None] when unfilled). *)
Definition sample_shift (id day : Z) (emp : option Z) : Row :=
  {| ScheduleDetailID := Some id; DayNum := Some day; JobNumber := Some 7%Z;
     EmployeeNumber := Some emp;
     IsUnfilled := Some (if emp is None then true else false);
     ShiftStartTime := Some at_8; ShiftEndTime := Some at_16;
     ShiftStartTime_parsed := Some at_8;
     ShiftDurationHours := Some 8%Q;
     ShiftTimeCategory := None; ShiftDurationCategory := None; ShiftType := None |}.

(** The same row without its duration column. *)
Definition without_duration (r : Row) : Row :=
  {| ScheduleDetailID := ScheduleDetailID r; DayNum := DayNum r;
     JobNumber := JobNumber r; EmployeeNumber := EmployeeNumber r;
     IsUnfilled := IsUnfilled r; ShiftStartTime := ShiftStartTime r;
     ShiftEndTime := ShiftEndTime r;
     ShiftStartTime_parsed := ShiftStartTime_parsed r;
     ShiftDurationHours := None;
     ShiftTimeCategory := ShiftTimeCategory r;
     ShiftDurationCategory := ShiftDurationCategory r;
     ShiftType := ShiftType r |}.

(** The same row without its employee column. *)
Definition without_employee (r : Row) : Row :=
  {| ScheduleDetailID := ScheduleDetailID r; DayNum := DayNum r;
     JobNumber := JobNumber r; EmployeeNumber := None;
     IsUnfilled := IsUnfilled r; ShiftStartTime := ShiftStartTime r;
     ShiftEndTime := ShiftEndTime r;
     ShiftStartTime_parsed := ShiftStartTime_parsed r;
     ShiftDurationHours := ShiftDurationHours r;
     ShiftTimeCategory := ShiftTimeCategory r;
     ShiftDurationCategory := ShiftDurationCategory r;
     ShiftType := ShiftType r |}.

(** ** Limits *)

(** An employee whose committed state is at or over a limit: 40 hours or
    more, 5 distinct days or more, or more than one shift on some day. *)
Definition at_limit (emp : Z) (filled_shifts : DataFrame) : Prop :=
  (40 <= committed_hours emp filled_shifts)%Q
  ∨ (5 ≤ size (days_worked emp filled_shifts))%nat
  ∨ ∃ day, (1 < shifts_on emp day filled_shifts)%nat.

(** An unfilled shift with the columns that [solve_assignment] indexes. *)
Definition schedulable (r : Row) : Prop :=
  is_Some (ScheduleDetailID r) ∧ is_Some (DayNum r) ∧ is_Some (JobNumber r)
  ∧ is_Some (ShiftDurationHours r)
  ∧ (is_Some (ShiftStartTime_parsed r) ∨ is_Some (ShiftStartTime r)).

(** A log without any PuLP call: no problem, no variable, no solve. *)
Definition only_prints (log : list Event) : Prop :=
  Forall (λ ev, ∃ m, ev = Printed m) log.

(** ** Reading the solution *)

(** The extraction test on one variable: a value above 0.5. *)
Definition chosen (varValue : LpVariable → option Q) (key : Z * (Z * Z)) : bool :=
  match varValue (x_var key.1 key.2) with
  | Some var_value => Qgt_bool var_value 0.5
  | None => false
  end.

(** The employee of the first key of a shift that passes the test. *)
Fixpoint first_chosen (varValue : LpVariable → option Q) (shift_id : Z * Z)
    (keys : list (Z * (Z * Z))) : option Z :=
  match keys with
  | [] => None
  | key :: keys' =>
      if bool_decide (key.2 = shift_id) && chosen varValue key then Some key.1
      else first_chosen varValue shift_id keys'
  end.

(** A profile with a single probability column. *)
Definition sample_profile (emp : Z) : Profile :=
  {| profile_EmployeeNumber := emp; TotalShifts := 1;
     prob_columns := {[ "Day3_Prob" := 1%Q ]} |}.

(** A solver call that ends with the given status and leaves the value 1 in
    the listed variables, 0 in the others. *)
Definition answering (s : LpStatus) (ones : list LpVariable) : Solver :=
  λ _, {| status := s;
          varValue := λ v, if bool_decide (v ∈ ones) then Some 1%Q else Some 0%Q |}.

(** The statuses that the log reports in a warning. *)
Definition logged_statuses (log : list Event) : list LpStatus :=
  omap (λ ev, match ev with Printed (MsgSolverStatus s) => Some s | _ => None end) log.

(** ** Meaning of the integer program *)

(** The value of a variable, 0 when the solver left none. *)
Definition value (varValue : LpVariable → option Q) (v : LpVariable) : Q :=
  default 0%Q (varValue v).

Definition lp_eval (varValue : LpVariable → option Q) (e : LpAffineExpression) : Q :=
  (constant e + Qsum ((λ t, t.1 * value varValue t.2) <$> terms e))%Q.

Definition holds (varValue : LpVariable → option Q) (c : LpConstraint) : bool :=
  match c with
  | LpLe lhs rhs => Qle_bool (lp_eval varValue lhs) (lp_eval varValue rhs)
  | LpGe lhs rhs => Qle_bool (lp_eval varValue rhs) (lp_eval varValue lhs)
  end.

Definition variables_of_constraint (c : LpConstraint) : list LpVariable :=
  match c with
  | LpLe lhs rhs | LpGe lhs rhs => (terms lhs).*2 ++ (terms rhs).*2
  end.

(** [prob.variables()] *)
Definition variables_of (prob : LpProblem) : list LpVariable :=
  (terms (objective prob)).*2 ++ (constraints prob ≫= variables_of_constraint).

Definition is_binary (q : Q) : bool := Qeq_bool q 0 || Qeq_bool q 1.

(** The values are a point of the program: every variable is 0 or 1 and
    every constraint holds. *)
Definition feasible (prob : LpProblem) (varValue : LpVariable → option Q) : bool :=
  forallb (λ v, is_binary (value varValue v)) (variables_of prob)
  && forallb (holds varValue) (constraints prob).

(** ** What a mapping adds to an employee's week *)

(** The shifts that a mapping assigns to an employee. *)
Definition assigned_shifts (emp : Z) (assignments : PyDict (Z * Z) Z) : list (Z * Z) :=
  (filter (λ a, a.2 = emp) assignments).*1.

Definition row_shift_id (r : Row) : option (Z * Z) :=
  schedule_detail_id ← ScheduleDetailID r; day ← DayNum r; Some (schedule_detail_id, day).

(** The duration of the unfilled shift with a given key. *)
Fixpoint shift_duration (unfilled_shifts : DataFrame) (shift_id : Z * Z) : Q :=
  match unfilled_shifts with
  | [] => 0
  | r :: rest =>
      if bool_decide (row_shift_id r = Some shift_id)
      then default 0%Q (ShiftDurationHours r)
      else shift_duration rest shift_id
  end.

Definition new_hours (emp : Z) (assignments : PyDict (Z * Z) Z)
    (unfilled_shifts : DataFrame) : Q :=
  Qsum (shift_duration unfilled_shifts <$> assigned_shifts emp assignments).

Definition new_days (emp : Z) (assignments : PyDict (Z * Z) Z) : gset Z :=
  list_to_set (assigned_shifts emp assignments).*2.

Definition new_shifts_on (emp day : Z) (assignments : PyDict (Z * Z) Z) : nat :=
  length (filter (λ shift_id, shift_id.2 = day) (assigned_shifts emp assignments)).

(** The solver gave the value 1 to the variable of an employee and a shift. *)
Definition taken (varValue : LpVariable → option Q) (emp : Z) (shift_id : Z * Z) : Prop :=
  Qeq_bool (value varValue (x_var emp shift_id)) 1 = true.

Global Instance taken_dec varValue emp shift_id : Decision (taken varValue emp shift_id).
Proof. unfold taken. apply _. Defined.

(** Five filled shifts of 8 hours on five days for employee 1: 40 hours. *)
Definition full_week : DataFrame :=
  [sample_shift 1 1 (Some 1%Z); sample_shift 2 2 (Some 1%Z);
   sample_shift 3 3 (Some 1%Z); sample_shift 4 4 (Some 1%Z);
   sample_shift 5 5 (Some 1%Z)].
(** * Notions for the further properties *)

(** Two reports with the same verdict: the same flag, the same violations
    and the same count. *)
Definition same_verdict (res res' : ValidationResult) : Prop :=
  valid res = valid res' ∧ violations res = violations res'
  ∧ total_violations res = total_violations res'.

(** A time of the day, as ['%H:%M:%S'] parses one. *)
Definition time_of_day (t : TimeOfDay) : Prop :=
  (0 ≤ hour t < 24)%Z ∧ (0 ≤ minute t < 60)%Z ∧ (0 ≤ second t < 60)%Z.

(** The values of the variables when no shift is assigned: all 0. *)
Definition unassigned : LpVariable → option Q := λ _, Some 0%Q.

(** ** Filling a snapshot *)

(** A row as [identify_unfilled_shifts] leaves it: [IsUnfilled] tells whether
    the employee cell is null. *)
Definition flagged (r : Row) : Prop :=
  ∃ e, EmployeeNumber r = Some e ∧ IsUnfilled r = Some (isna e).

(** The rows that the mask of an assignment to [shift_id] selects. *)
Definition target (shift_id : Z * Z) (r : Row) : Prop :=
  row_shift_id r = Some shift_id ∧ IsUnfilled r = Some true.

Global Instance target_dec shift_id r : Decision (target shift_id r).
Proof. unfold target. apply _. Defined.

(** The hours that the validators count for the row an assignment to
    [shift_id] updates: those of the first selected row. *)
Definition target_duration (df : DataFrame) (shift_id : Z * Z) : Q :=
  match head (filter (target shift_id) df) with
  | Some r => default 8%Q (ShiftDurationHours r)
  | None => 0
  end.

(** The three limits on what an employee holds in a shift set: at most 40
    hours, at most 5 distinct days, at most 1 shift on each day. *)
Definition within_limits (emp : Z) (rows : DataFrame) : Prop :=
  (committed_hours emp rows <= 40)%Q
  ∧ (size (days_worked emp rows) ≤ 5)%nat
  ∧ ∀ day, (shifts_on emp day rows ≤ 1)%nat.

(** What [fill_unfilled_shifts] prepares for the solver on a snapshot. *)
Definition prepared_for (latest_snapshot : DataFrame) (employee_profiles : ProfileFrame)
    : result Prepared :=
  filled_shifts ← select_notna latest_snapshot;
  unfilled_shifts ← select_isna latest_snapshot;
  unfilled_shifts_deduped ← drop_duplicates unfilled_shifts;
  prepare unfilled_shifts_deduped employee_profiles filled_shifts.

(** ** Preprocessed frames *)

(** The raw columns that the preprocessing indexes. *)
Definition raw (r : ScheduleRow) : Prop :=
  is_Some (ShiftStartTime (shift_columns r)) ∧ is_Some (ShiftEndTime (shift_columns r))
  ∧ is_Some (ScheduleDetailID (shift_columns r)) ∧ is_Some (DayNum (shift_columns r))
  ∧ is_Some (EmployeeNumber (shift_columns r)).

(** A row with the columns of [handle_midnight_shifts]. *)
Definition with_durations (start end_ : TimeOfDay) (r : ScheduleRow) : ScheduleRow :=
  with_shift_columns (set_ShiftDurationHours (calculate_hours start end_))
    (set_ShiftEndTime_parsed end_
       (with_shift_columns (set_ShiftStartTime_parsed start) r)).

(** What the preprocessing does to a row that it keeps: the raw cells stay,
    the parsed times, the duration, the flag of the unfilled shifts and the
    name of the day are filled in. *)
Definition preprocessed (r r' : ScheduleRow) : Prop :=
  ∃ start end_ e day,
    ShiftStartTime (shift_columns r) = Some start
    ∧ ShiftEndTime (shift_columns r) = Some end_
    ∧ EmployeeNumber (shift_columns r) = Some e
    ∧ DayNum (shift_columns r) = Some day
    ∧ r' = set_DayOfWeek (dict_get day day_names)
             (with_shift_columns (set_IsUnfilled (isna e)) (with_durations start end_ r)).

(** The rows of a frame come from one snapshot: they have the same date. *)
Definition one_snapshot (df : ScheduleFrame) : Prop :=
  ∀ r r', r ∈ df → r' ∈ df → date r = date r'.

(** A row of a snapshot with the columns that [fill_unfilled_shifts] indexes:
    the key, the employee, the flag, and for an unfilled shift the columns
    that the solver reads; for a filled one the day is among them. *)
Definition fillable (r : Row) : Prop :=
  is_Some (ScheduleDetailID r) ∧ is_Some (DayNum r) ∧ is_Some (EmployeeNumber r)
  ∧ is_Some (IsUnfilled r)
  ∧ (EmployeeNumber r = Some None → schedulable r).


(** ** Sample data of the preprocessing *)

(** A row of the schedule file in the snapshot of [d]: shift [id] on [day]
    for job 7, from 8:00 to 16:00, held by [emp] ([None] when the cell is
    null), before any preprocessing. *)
Definition sample_schedule_row (d : string) (id day : Z) (emp : option Z) : ScheduleRow :=
  {| date := Some d;
     shift_columns :=
       {| ScheduleDetailID := Some id; DayNum := Some day; JobNumber := Some 7%Z;
          EmployeeNumber := Some emp; IsUnfilled := None;
          ShiftStartTime := Some at_8; ShiftEndTime := Some at_16;
          ShiftStartTime_parsed := None; ShiftDurationHours := None;
          ShiftTimeCategory := None; ShiftDurationCategory := None;
          ShiftType := None |};
     ShiftEndTime_parsed := None; DayOfWeek := None |}.

(** A snapshot file of one date: a shift held by employee 1, an unfilled
    shift, and a second line for the unfilled shift. *)
Definition sample_schedule : ScheduleFrame :=
  [sample_schedule_row "2024-01-05" 1 1 (Some 1%Z);
   sample_schedule_row "2024-01-05" 100 3 None;
   sample_schedule_row "2024-01-05" 100 3 None].

(** A snapshot with a filled shift of employee 1 and an unfilled shift. *)
Definition sample_snapshot : DataFrame :=
  [sample_shift 1 1 (Some 1%Z); sample_shift 100 3 None].

(** The solver call that gives shift (100, 3) to employee 2. *)
Definition giving_to_second : Solver :=
  answering LpStatusOptimal [x_var 2 (100, 3)%Z; day_var 2 0 3].

(** Profiles of two employees. *)
Definition sample_profiles : ProfileFrame :=
  ProfileRows [sample_profile 1; sample_profile 2].

(** * Properties *)

(** ** The exception monad *)

Lemma bind_Ok {A B} (m : result A) (f : A → result B) (b : B) :
  m ≫= f = Ok b ↔ ∃ a, m = Ok a ∧ f a = Ok b.
Proof.
  destruct m as [a|c]; simpl; split.
  - eauto.
  - by intros (a' & [= ->] & ?).
  - done.
  - by intros (a' & ? & ?).
Qed.

Lemma col_Ok {A} name (cell : option A) v : col name cell = Ok v ↔ cell = Some v.
Proof. destruct cell; simpl; split; congruence. Qed.

Lemma map_rows_Ok_Forall2 {A B} (f : A → result B) l l' :
  map_rows f l = Ok l' ↔ Forall2 (λ a b, f a = Ok b) l l'.
Proof.
  revert l'. induction l as [|a l IH]; intros l'; simpl.
  - split; [intros [= <-]; constructor | by inversion 1].
  - rewrite bind_Ok. split.
    + intros (b & Hb & H). apply bind_Ok in H as (bs & Hbs & [= <-]).
      constructor; [done | by apply IH].
    + inversion 1 as [|? b ? bs Hb Hbs]; subst. exists b. split; [done|].
      apply bind_Ok. exists bs. split; [by apply IH | done].
Qed.

(** ** Feature extractor *)

Lemma extract_shift_features_row_again r r' :
  extract_shift_features_row r = Ok r' →
  extract_shift_features_row r' = Ok r'
  ∧ ∀ d, ShiftDurationHours r = Some d → ShiftDurationHours r' = Some d.
Proof.
  destruct r as [sid day job emp unf st en sp dur tc dc ty].
  unfold extract_shift_features_row; simpl.
  destruct sp as [p|], st as [s|], dur as [d|], en as [e|]; simpl;
    intros [= <-]; simpl; (split; [reflexivity | congruence]).
Qed.

(** C7: a second run of the feature extractor on its own output returns that
    output unchanged (so the time category, the duration, the duration
    category and the shift type are those of the first run), and a duration
    that the input already has is kept by the run. *)
Theorem extract_shift_features_idempotent (df df' : DataFrame) :
  extract_shift_features df = Ok df' →
  extract_shift_features df' = Ok df'
  ∧ Forall2 (λ r r', ∀ d, ShiftDurationHours r = Some d → ShiftDurationHours r' = Some d)
            df df'.
Proof.
  unfold extract_shift_features. rewrite !map_rows_Ok_Forall2.
  induction 1 as [|r r' df df' Hr _ [IH1 IH2]].
  - split; constructor.
  - apply extract_shift_features_row_again in Hr as [Hr1 Hr2].
    split; constructor; done.
Qed.

(** ** Compatibility scorer *)

Lemma looked_up_bounds employee_profile column :
  well_formed_profile employee_profile →
  (0 <= looked_up employee_profile column ∧ looked_up employee_profile column <= 1)%Q.
Proof.
  intros Hwf. unfold looked_up.
  destruct (employee_profile !! column) as [p|] eqn:Hp; simpl.
  - exact (Hwf _ _ Hp).
  - split; [apply Qle_refl | discriminate].
Qed.

Lemma add_term_looked_up employee_profile weight column score :
  (add_term employee_profile weight column score
   == score + weight * looked_up employee_profile column)%Q.
Proof.
  unfold add_term, looked_up.
  destruct (employee_profile !! column); simpl; ring.
Qed.

(** C5: for a profile whose probabilities lie in [[0,1]], the score is the
    sum of the five looked-up probabilities weighted 0.30 (day), 0.25 (time),
    0.15 (duration), 0.20 (job) and 0.10 (shift type); a column that the
    profile lacks adds nothing to the score; and the score lies in [[0,1]]. *)
Theorem get_compatibility_score_weighted_sum (employee_profile : gmap string Q)
    (shift_day : Z) (shift_time_category shift_duration_category : string)
    (shift_job : Z) (shift_type : string) :
  well_formed_profile employee_profile →
  let score := get_compatibility_score employee_profile shift_day
                 shift_time_category shift_duration_category shift_job shift_type in
  (score == weighted_sum employee_profile shift_day shift_time_category
              shift_duration_category shift_job shift_type)%Q
  ∧ (∀ weight column s,
       employee_profile !! column = None →
       add_term employee_profile weight column s = s)
  ∧ (0 <= score ∧ score <= 1)%Q.
Proof.
  intros Hwf score.
  assert (score == weighted_sum employee_profile shift_day shift_time_category
                     shift_duration_category shift_job shift_type)%Q as Hsum.
  { unfold score, get_compatibility_score, weighted_sum.
    rewrite !add_term_looked_up.
    unfold weight_day, weight_time, weight_duration, weight_job, weight_shift_type.
    ring. }
  split; [exact Hsum|]. split.
  { intros weight column s Hnone. unfold add_term. by rewrite Hnone. }
  rewrite Hsum. unfold weighted_sum.
  pose proof (looked_up_bounds employee_profile (day_col shift_day) Hwf).
  pose proof (looked_up_bounds employee_profile (time_col shift_time_category) Hwf).
  pose proof (looked_up_bounds employee_profile (duration_col shift_duration_category) Hwf).
  pose proof (looked_up_bounds employee_profile (job_col shift_job) Hwf).
  pose proof (looked_up_bounds employee_profile (shift_type_col shift_type) Hwf).
  split; lra.
Qed.

(** ** Lists: [unique], [sorted] *)

Lemma elem_of_unique `{EqDecision A} (l : list A) x : x ∈ unique l ↔ x ∈ l.
Proof.
  induction l as [|y l IH]; simpl; [done|].
  rewrite !elem_of_cons, list_elem_of_filter, IH.
  destruct (decide (x = y)); tauto.
Qed.

Lemma NoDup_unique `{EqDecision A} (l : list A) : NoDup (unique l).
Proof.
  induction l as [|y l IH]; simpl; [constructor|].
  constructor; [|by apply NoDup_filter].
  rewrite list_elem_of_filter. tauto.
Qed.

Lemma elem_of_sorted_unique `{EqDecision A} (R : relation A) `{!RelDecision R}
    (l : list A) x :
  x ∈ merge_sort R (unique l) ↔ x ∈ l.
Proof. by rewrite merge_sort_Permutation, elem_of_unique. Qed.

Lemma NoDup_sorted_unique `{EqDecision A} (R : relation A) `{!RelDecision R}
    (l : list A) :
  NoDup (merge_sort R (unique l)).
Proof. rewrite merge_sort_Permutation. apply NoDup_unique. Qed.

(** ** Counting *)

Lemma value_counts_lookup `{Countable K} (l : list K) (k : K) :
  default 0%nat (value_counts l !! k) = length (filter (λ x, x = k) l).
Proof.
  induction l as [|x l IH]; simpl; [done|].
  rewrite filter_cons. destruct (decide (x = k)) as [->|Hne]; simpl.
  - by rewrite lookup_insert_eq, IH.
  - by rewrite lookup_insert_ne.
Qed.

Lemma sum_indicator `{EqDecision K} (universe : list K) (x : K) :
  NoDup universe → x ∈ universe →
  sum_nat ((λ k, if decide (x = k) then 1%nat else 0%nat) <$> universe) = 1%nat.
Proof.
  induction 1 as [|k universe Hk Hnd IH]; simpl; [by intros ?%elem_of_nil|].
  intros [->|Hx]%elem_of_cons.
  - rewrite decide_True by done. f_equal.
    clear IH. induction universe as [|k' universe IH]; simpl; [done|].
    apply not_elem_of_cons in Hk as [? ?]. apply NoDup_cons in Hnd as [? ?].
    rewrite decide_False by done. simpl. auto.
  - rewrite decide_False by (intros ->; done). simpl. auto.
Qed.

Lemma sum_nat_add {K} (f g : K → nat) (universe : list K) :
  sum_nat ((λ k, f k + g k)%nat <$> universe)
  = (sum_nat (f <$> universe) + sum_nat (g <$> universe))%nat.
Proof. unfold sum_nat. induction universe as [|k universe IH]; csimpl; lia. Qed.

Lemma sum_counts `{EqDecision K} (universe l : list K) :
  NoDup universe → (∀ x, x ∈ l → x ∈ universe) →
  sum_nat ((λ k, length (filter (λ x, x = k) l)) <$> universe) = length l.
Proof.
  intros Hnd. induction l as [|x l IH]; intros Hin.
  - clear. induction universe as [|k universe IHu]; simpl; [done|]. exact IHu.
  - erewrite list_fmap_ext.
    2:{ intros i k _. rewrite filter_cons.
        instantiate (1 := λ k, ((if decide (x = k) then 1 else 0)
                                + length (filter (λ x, x = k) l))%nat).
        simpl. by destruct (decide (x = k)). }
    rewrite sum_nat_add, sum_indicator by (done || apply Hin; by left).
    rewrite IH by (intros; apply Hin; by right). done.
Qed.
Lemma ratio_bounds count total :
  (count ≤ total)%nat → (0 < total)%nat → (0 <= ratio count total ∧ ratio count total <= 1)%Q.
Proof.
  intros Hle Hpos. unfold ratio.
  assert (0 < inject_Z (Z.of_nat total))%Q as Ht.
  { change 0%Q with (inject_Z 0). rewrite <-Zlt_Qlt. lia. }
  split.
  - apply Qle_shift_div_l; [done|]. rewrite Qmult_0_l.
    change 0%Q with (inject_Z 0). rewrite <-Zle_Qle. lia.
  - apply Qle_shift_div_r; [done|]. rewrite Qmult_1_l. rewrite <-Zle_Qle. lia.
Qed.

Lemma Qsum_ratio {K} (f : K → nat) (total : nat) (universe : list K) :
  (Qsum ((λ k, ratio (f k) total) <$> universe)
   == ratio (sum_nat (f <$> universe)) total)%Q.
Proof.
  unfold Qsum, sum_nat, ratio. induction universe as [|k universe IH]; csimpl.
  - unfold Qdiv. ring.
  - rewrite IH, Nat2Z.inj_add, inject_Z_plus. unfold Qdiv. ring.
Qed.

Lemma ratio_self total : (0 < total)%nat → (ratio total total == 1)%Q.
Proof.
  intros Hpos. unfold ratio. apply Qmult_inv_r.
  change 0%Q with (inject_Z 0). rewrite inject_Z_injective. lia.
Qed.

(** ** Column names *)

Lemma string_length_app s t : String.length (s +:+ t) = (String.length s + String.length t)%nat.
Proof. induction s as [|a s IH]; simpl; [done | by rewrite IH]. Qed.

Lemma string_app_inj_r s1 s2 t : s1 +:+ t = s2 +:+ t → s1 = s2.
Proof.
  revert s2. induction s1 as [|a s1 IH]; intros [|b s2] Heq; simpl in *.
  - done.
  - apply (f_equal String.length) in Heq.
    rewrite ?string_length_app in Heq. simpl in Heq.
    rewrite ?string_length_app in Heq. lia.
  - apply (f_equal String.length) in Heq.
    rewrite ?string_length_app in Heq. simpl in Heq.
    rewrite ?string_length_app in Heq. lia.
  - injection Heq as -> Heq. f_equal. by apply IH.
Qed.

Global Instance day_col_inj : Inj (=) (=) day_col.
Proof.
  intros d1 d2 Heq. unfold day_col in Heq.
  apply (inj _) in Heq. apply string_app_inj_r in Heq. by apply (inj pretty).
Qed.

Global Instance job_col_inj : Inj (=) (=) job_col.
Proof.
  intros d1 d2 Heq. unfold job_col in Heq.
  apply (inj _) in Heq. apply string_app_inj_r in Heq. by apply (inj pretty).
Qed.

Global Instance time_col_inj : Inj (=) (=) time_col.
Proof.
  intros d1 d2 Heq. unfold time_col in Heq.
  apply (inj _) in Heq. by apply string_app_inj_r in Heq.
Qed.

Global Instance duration_col_inj : Inj (=) (=) duration_col.
Proof.
  intros d1 d2 Heq. unfold duration_col in Heq.
  apply (inj _) in Heq. by apply string_app_inj_r in Heq.
Qed.

Global Instance shift_type_col_inj : Inj (=) (=) shift_type_col.
Proof.
  intros d1 d2 Heq. unfold shift_type_col in Heq.
  apply (inj _) in Heq. by apply string_app_inj_r in Heq.
Qed.

(** Columns of different dimensions differ in their first two characters. *)
Ltac column_clash :=
  unfold day_col, time_col, duration_col, job_col, shift_type_col;
  simpl; discriminate.

Lemma day_time_col d t : day_col d ≠ time_col t. Proof. column_clash. Qed.
Lemma day_duration_col d t : day_col d ≠ duration_col t. Proof. column_clash. Qed.
Lemma day_job_col d t : day_col d ≠ job_col t. Proof. column_clash. Qed.
Lemma day_shift_type_col d t : day_col d ≠ shift_type_col t. Proof. column_clash. Qed.
Lemma time_duration_col d t : time_col d ≠ duration_col t. Proof. column_clash. Qed.
Lemma time_job_col d t : time_col d ≠ job_col t. Proof. column_clash. Qed.
Lemma time_shift_type_col d t : time_col d ≠ shift_type_col t. Proof. column_clash. Qed.
Lemma duration_job_col d t : duration_col d ≠ job_col t. Proof. column_clash. Qed.
Lemma duration_shift_type_col d t : duration_col d ≠ shift_type_col t. Proof. column_clash. Qed.
Lemma job_shift_type_col d t : job_col d ≠ shift_type_col t. Proof. column_clash. Qed.

(** ** Building the columns of a profile *)

Section add_columns.
Context `{Countable K} (name : K → string) (probs : gmap K Q).

Lemma add_columns_lookup_ne universe profile column :
  (∀ k, k ∈ universe → name k ≠ column) →
  add_columns name probs universe profile !! column = profile !! column.
Proof.
  unfold add_columns. revert profile.
  induction universe as [|k universe IH]; intros profile Hne; simpl; [done|].
  rewrite IH by (intros; apply Hne; by right).
  apply lookup_insert_ne, Hne. by left.
Qed.

Lemma add_columns_lookup universe profile k `{!Inj (=) (=) name} :
  k ∈ universe →
  add_columns name probs universe profile !! name k = Some (default 0%Q (probs !! k)).
Proof.
  unfold add_columns. revert profile.
  induction universe as [|k' universe IH]; intros profile Hk; simpl.
  { by apply elem_of_nil in Hk. }
  destruct (decide (k ∈ universe)) as [Hin|Hnotin]; [by apply IH|].
  apply elem_of_cons in Hk as [->|?]; [|done].
  fold (add_columns name probs universe (<[name k' := default 0%Q (probs !! k')]> profile)).
  rewrite add_columns_lookup_ne; [apply lookup_insert_eq|].
  intros k Hk Heq. apply (inj name) in Heq. congruence.
Qed.

Lemma add_columns_Forall (P : Q → Prop) universe profile :
  (∀ k, P (default 0%Q (probs !! k))) →
  map_Forall (λ _, P) profile →
  map_Forall (λ _, P) (add_columns name probs universe profile).
Proof.
  intros HP. unfold add_columns. revert profile.
  induction universe as [|k universe IH]; intros profile Hprofile; simpl; [done|].
  apply IH. by apply map_Forall_insert_2.
Qed.

End add_columns.

Lemma normalize_lookup `{Countable K} (counts : gmap K nat) total (universe : list K) k :
  k ∈ universe →
  normalize counts total universe !! k = Some (ratio (default 0%nat (counts !! k)) total).
Proof.
  unfold normalize. induction universe as [|k' universe IH]; csimpl.
  { by intros ?%elem_of_nil. }
  intros Hk. destruct (decide (k' = k)) as [->|Hne].
  - apply lookup_insert_eq.
  - rewrite lookup_insert_ne by done. apply IH.
    apply elem_of_cons in Hk as [?|?]; [congruence | done].
Qed.

Lemma normalize_lookup_Some `{Countable K} (counts : gmap K nat) total (universe : list K) k q :
  normalize counts total universe !! k = Some q →
  q = ratio (default 0%nat (counts !! k)) total.
Proof.
  unfold normalize. induction universe as [|k' universe IH]; csimpl; [done|].
  destruct (decide (k' = k)) as [->|Hne].
  - rewrite lookup_insert_eq. congruence.
  - by rewrite lookup_insert_ne.
Qed.

(** ** Profiles *)

Lemma distribution_total_one `{Countable K} (name : K → string)
    (employee_profile : gmap string Q) (universe xs : list K) (total : nat) :
  NoDup universe → (∀ x, x ∈ xs → x ∈ universe) →
  length xs = total → (0 < total)%nat →
  (∀ k, k ∈ universe →
        employee_profile !! name k
        = Some (ratio (default 0%nat (value_counts xs !! k)) total)) →
  (distribution_total employee_profile name universe == 1)%Q.
Proof.
  intros Hnd Hsub Hlen Hpos Hcols. unfold distribution_total.
  erewrite list_fmap_ext.
  2:{ intros i k Hk. apply list_elem_of_lookup_2 in Hk.
      unfold looked_up. rewrite (Hcols k Hk). simpl.
      rewrite value_counts_lookup. reflexivity. }
  rewrite (Qsum_ratio (λ k, length (filter (λ x, x = k) xs))).
  rewrite sum_counts by done. rewrite Hlen. by apply ratio_self.
Qed.

Lemma normalize_bounds `{Countable K} (xs universe : list K) (total : nat) k :
  length xs = total → (0 < total)%nat →
  (0 <= default 0 (normalize (value_counts xs) total universe !! k)
   ∧ default 0 (normalize (value_counts xs) total universe !! k) <= 1)%Q.
Proof.
  intros Hlen Hpos.
  destruct (normalize _ _ _ !! k) as [q|] eqn:Hq; simpl.
  - apply normalize_lookup_Some in Hq as ->.
    apply ratio_bounds; [|done].
    rewrite value_counts_lookup, <-Hlen. apply length_filter.
  - split; [apply Qle_refl | discriminate].
Qed.

Ltac other_dimension :=
  rewrite ?add_columns_lookup_ne by (intros; column_clash).

Lemma build_profile_Some fs emp_num p :
  build_profile fs emp_num = Some p →
  profile_EmployeeNumber p = emp_num
  ∧ TotalShifts p = length (filter (λ f, h_EmployeeNumber f = emp_num) fs)
  ∧ (1 ≤ TotalShifts p)%nat
  ∧ (distribution_total (prob_columns p) day_col (all_days fs) == 1)%Q
  ∧ (distribution_total (prob_columns p) time_col (all_times fs) == 1)%Q
  ∧ (distribution_total (prob_columns p) duration_col (all_durations fs) == 1)%Q
  ∧ (distribution_total (prob_columns p) job_col (all_jobs fs) == 1)%Q
  ∧ (distribution_total (prob_columns p) shift_type_col (all_shift_types fs) == 1)%Q
  ∧ well_formed_profile (prob_columns p).
Proof.
  unfold build_profile.
  set (emp_shifts := filter (λ f, h_EmployeeNumber f = emp_num) fs).
  case_bool_decide as Htotal; [done|]. intros [= <-]; simpl.
  assert (0 < length emp_shifts)%nat as Hpos by lia.
  assert (∀ f, f ∈ emp_shifts → f ∈ fs) as Hsub.
  { intros f. unfold emp_shifts. rewrite list_elem_of_filter. tauto. }
  split; [done|]. split; [done|]. split; [lia|].
  split; [|split; [|split; [|split; [|split]]]].
  - apply (distribution_total_one _ _ _ (h_DayNum <$> emp_shifts) (length emp_shifts));
      [apply NoDup_sorted_unique| |by rewrite length_fmap|done|].
    + intros x (f & -> & Hf)%list_elem_of_fmap.
      apply elem_of_sorted_unique, list_elem_of_fmap_2, Hsub, Hf.
    + intros k Hk. other_dimension.
      rewrite add_columns_lookup by (done || apply _). by rewrite normalize_lookup.
  - apply (distribution_total_one _ _ _ (h_ShiftTimeCategory <$> emp_shifts)
             (length emp_shifts));
      [apply NoDup_sorted_unique| |by rewrite length_fmap|done|].
    + intros x (f & -> & Hf)%list_elem_of_fmap.
      apply elem_of_sorted_unique, list_elem_of_fmap_2, Hsub, Hf.
    + intros k Hk. other_dimension.
      rewrite add_columns_lookup by (done || apply _). by rewrite normalize_lookup.
  - apply (distribution_total_one _ _ _ (h_ShiftDurationCategory <$> emp_shifts)
             (length emp_shifts));
      [apply NoDup_sorted_unique| |by rewrite length_fmap|done|].
    + intros x (f & -> & Hf)%list_elem_of_fmap.
      apply elem_of_sorted_unique, list_elem_of_fmap_2, Hsub, Hf.
    + intros k Hk. other_dimension.
      rewrite add_columns_lookup by (done || apply _). by rewrite normalize_lookup.
  - apply (distribution_total_one _ _ _ (h_JobNumber <$> emp_shifts) (length emp_shifts));
      [apply NoDup_sorted_unique| |by rewrite length_fmap|done|].
    + intros x (f & -> & Hf)%list_elem_of_fmap.
      apply elem_of_sorted_unique, list_elem_of_fmap_2, Hsub, Hf.
    + intros k Hk. other_dimension.
      rewrite add_columns_lookup by (done || apply _). by rewrite normalize_lookup.
  - apply (distribution_total_one _ _ _ (h_ShiftType <$> emp_shifts) (length emp_shifts));
      [apply NoDup_sorted_unique| |by rewrite length_fmap|done|].
    + intros x (f & -> & Hf)%list_elem_of_fmap.
      apply elem_of_sorted_unique, list_elem_of_fmap_2, Hsub, Hf.
    + intros k Hk. other_dimension.
      rewrite add_columns_lookup by (done || apply _). by rewrite normalize_lookup.
  - unfold well_formed_profile.
    repeat (apply (add_columns_Forall _ _ (λ p, 0 <= p ∧ p <= 1)%Q);
            [intros k; apply normalize_bounds; [by rewrite length_fmap | done]|]).
    apply map_Forall_empty.
Qed.

Lemma extract_shift_features_row_raw r r' :
  extract_shift_features_row r = Ok r' →
  ScheduleDetailID r' = ScheduleDetailID r ∧ DayNum r' = DayNum r
  ∧ JobNumber r' = JobNumber r ∧ EmployeeNumber r' = EmployeeNumber r
  ∧ IsUnfilled r' = IsUnfilled r.
Proof.
  destruct r as [sid day job emp unf st en sp dur tc dc ty].
  unfold extract_shift_features_row; simpl.
  destruct sp as [p|], st as [s|], dur as [d|], en as [e|]; simpl;
    intros [= <-]; simpl; done.
Qed.

Lemma select_notna_elem_of df df' r :
  select_notna df = Ok df' →
  r ∈ df' ↔ r ∈ df ∧ ∃ emp, EmployeeNumber r = Some (Some emp).
Proof.
  revert df'. induction df as [|r0 df IH]; intros df'; simpl.
  { intros [= <-]. rewrite elem_of_nil. tauto. }
  rewrite bind_Ok. intros (e & He%col_Ok & H).
  apply bind_Ok in H as (rest & Hrest & [= <-]).
  specialize (IH _ Hrest). destruct e as [emp|].
  - rewrite !elem_of_cons, IH. split.
    + intros [->|[? ?]]; eauto.
    + intros [[->|?] ?]; eauto.
  - rewrite elem_of_cons, IH. split.
    + intros [? ?]; eauto.
    + intros [[->|?] [emp Hemp]]; [congruence | eauto].
Qed.

Lemma Forall2_elem_of_l {A B} (P : A → B → Prop) l k x :
  Forall2 P l k → x ∈ l → ∃ y, y ∈ k ∧ P x y.
Proof.
  intros HF (i & Hi)%list_elem_of_lookup_1.
  destruct (Forall2_lookup_l _ _ _ _ _ HF Hi) as (y & Hy & HP).
  exists y. split; [by eapply list_elem_of_lookup_2 | done].
Qed.

Lemma Forall2_elem_of_r {A B} (P : A → B → Prop) l k y :
  Forall2 P l k → y ∈ k → ∃ x, x ∈ l ∧ P x y.
Proof.
  intros HF (i & Hi)%list_elem_of_lookup_1.
  destruct (Forall2_lookup_r _ _ _ _ _ HF Hi) as (x & Hx & HP).
  exists x. split; [by eapply list_elem_of_lookup_2 | done].
Qed.

Lemma historical_shift_Some r f :
  historical_shift r = Ok (Some f) → EmployeeNumber r = Some (Some (h_EmployeeNumber f)).
Proof.
  unfold historical_shift. rewrite bind_Ok. intros (e & He%col_Ok & H).
  destruct e as [emp|]; [|done].
  repeat (apply bind_Ok in H as (? & _ & H)). by injection H as <-.
Qed.

Lemma historical_shift_filled r emp o :
  EmployeeNumber r = Some (Some emp) → historical_shift r = Ok o →
  ∃ f, o = Some f ∧ h_EmployeeNumber f = emp.
Proof.
  unfold historical_shift. intros ->. simpl.
  intros H. repeat (apply bind_Ok in H as (? & _ & H)). injection H as <-. eauto.
Qed.

Lemma historical_features_employee historical_data fs emp :
  historical_features historical_data = Ok fs →
  (∃ f, f ∈ fs ∧ h_EmployeeNumber f = emp)
  ↔ (∃ r, r ∈ historical_data ∧ EmployeeNumber r = Some (Some emp)).
Proof.
  unfold historical_features, features_of. rewrite bind_Ok. intros (d1 & Hd1 & H).
  apply bind_Ok in H as (d2 & Hd2 & H). apply bind_Ok in H as (hs & Hhs & [= <-]).
  apply map_rows_Ok_Forall2 in Hd2, Hhs. split.
  - intros (f & Hf & <-). apply list_elem_of_omap in Hf as (o & Ho & Hof).
    simpl in Hof. subst o.
    destruct (Forall2_elem_of_r _ _ _ _ Hhs Ho) as (r2 & Hr2 & Hh).
    destruct (Forall2_elem_of_r _ _ _ _ Hd2 Hr2) as (r1 & Hr1 & He).
    apply historical_shift_Some in Hh.
    apply extract_shift_features_row_raw in He as (_ & _ & _ & He & _).
    exists r1. split; [|congruence].
    by apply (select_notna_elem_of _ _ _ Hd1) in Hr1 as [? _].
  - intros (r & Hr & Hemp).
    assert (r ∈ d1) as Hr1 by (apply (select_notna_elem_of _ _ _ Hd1); eauto).
    destruct (Forall2_elem_of_l _ _ _ _ Hd2 Hr1) as (r2 & Hr2 & He).
    destruct (Forall2_elem_of_l _ _ _ _ Hhs Hr2) as (o & Ho & Hh).
    apply extract_shift_features_row_raw in He as (_ & _ & _ & He & _).
    rewrite <-He in Hemp.
    destruct (historical_shift_filled _ _ _ Hemp Hh) as (f & -> & Hf).
    exists f. split; [|done]. apply list_elem_of_omap. eauto.
Qed.

Lemma build_profile_is_Some fs emp_num :
  is_Some (build_profile fs emp_num) ↔ ∃ f, f ∈ fs ∧ h_EmployeeNumber f = emp_num.
Proof.
  unfold build_profile.
  set (emp_shifts := filter (λ f, h_EmployeeNumber f = emp_num) fs).
  split.
  - case_bool_decide as Htotal; [by intros [? ?]|]. intros _.
    destruct emp_shifts as [|f l] eqn:Heq; [done|].
    assert (f ∈ emp_shifts) as Hf by (rewrite Heq; by left).
    apply list_elem_of_filter in Hf as [? ?]. eauto.
  - intros (f & Hf & Hemp).
    assert (f ∈ emp_shifts) as Hin by (apply list_elem_of_filter; done).
    case_bool_decide as Htotal; [|eauto].
    apply length_zero_iff_nil in Htotal. rewrite Htotal in Hin.
    by apply elem_of_nil in Hin.
Qed.

Lemma elem_of_build_profiles fs p :
  p ∈ build_profiles fs →
  build_profile fs (profile_EmployeeNumber p) = Some p.
Proof.
  unfold build_profiles. intros (emp & _ & Hp)%list_elem_of_omap.
  by destruct (build_profile_Some _ _ _ Hp) as (<- & _).
Qed.

Lemma compute_compatibility_Ok historical_data profiles :
  compute_compatibility historical_data = Ok profiles →
  ∃ fs, historical_features historical_data = Ok fs
        ∧ iterrows profiles = build_profiles fs.
Proof.
  unfold compute_compatibility. rewrite bind_Ok. intros (d1 & Hd1 & H).
  destruct d1 as [|r d1].
  - injection H as <-. exists []. split; [|done].
    unfold historical_features. by rewrite Hd1.
  - apply bind_Ok in H as (fs & Hfs & [= <-]). exists fs. split; [|done].
    unfold historical_features. by rewrite Hd1.
Qed.

(** C4: in every profile that [compute_compatibility] returns, the employee
    has at least one historical filled shift, each of the five distributions
    (day, time category, duration category, job, shift type) sums to 1 over
    the categories observed among all employees, and every probability lies
    in [[0,1]]; an employee has a profile exactly when the historical data
    hold a filled shift of theirs, so one with no such shift is absent. *)
Theorem compute_compatibility_distributions (historical_data : DataFrame)
    (profiles : ProfileFrame) :
  compute_compatibility historical_data = Ok profiles →
  ∃ fs, historical_features historical_data = Ok fs
  ∧ (∀ p, p ∈ iterrows profiles →
       (1 ≤ TotalShifts p)%nat
       ∧ (distribution_total (prob_columns p) day_col (all_days fs) == 1)%Q
       ∧ (distribution_total (prob_columns p) time_col (all_times fs) == 1)%Q
       ∧ (distribution_total (prob_columns p) duration_col (all_durations fs) == 1)%Q
       ∧ (distribution_total (prob_columns p) job_col (all_jobs fs) == 1)%Q
       ∧ (distribution_total (prob_columns p) shift_type_col (all_shift_types fs) == 1)%Q
       ∧ (∀ column q, prob_columns p !! column = Some q → 0 <= q ∧ q <= 1)%Q)
  ∧ (∀ emp, (∃ p, p ∈ iterrows profiles ∧ profile_EmployeeNumber p = emp)
            ↔ (∃ r, r ∈ historical_data ∧ EmployeeNumber r = Some (Some emp))).
Proof.
  intros (fs & Hfs & ->)%compute_compatibility_Ok.
  exists fs. split; [done|]. split.
  - intros p Hp%elem_of_build_profiles.
    destruct (build_profile_Some _ _ _ Hp) as (_ & _ & ? & ? & ? & ? & ? & ? & Hwf).
    repeat (split; [done|]). intros column q Hq. exact (Hwf _ _ Hq).
  - intros emp. rewrite <-(historical_features_employee _ _ _ Hfs),
      <-build_profile_is_Some. split.
    + intros (p & Hp%elem_of_build_profiles & <-). eauto.
    + intros [p Hp]. exists p.
      destruct (build_profile_Some _ _ _ Hp) as (Hemp & _). split; [|done].
      apply list_elem_of_omap. exists emp. split; [|done].
      apply elem_of_unique.
      assert (is_Some (build_profile fs emp)) as Hs by eauto.
      apply build_profile_is_Some in Hs as (f & Hf & <-).
      by apply list_elem_of_fmap_2.
Qed.

(** ** Insertion-ordered dictionaries *)

Section dict.
Context `{EqDecision K} {V : Type}.
Implicit Types (d : PyDict K V) (k : K) (v : V).

Lemma dict_get_set_eq k v d : dict_get k (dict_set k v d) = Some v.
Proof.
  induction d as [|[k' v'] d IH]; simpl.
  - by rewrite decide_True.
  - destruct (decide (k' = k)) as [->|Hne]; simpl.
    + by rewrite decide_True.
    + by rewrite decide_False.
Qed.

Lemma dict_get_set_ne k k' v d : k ≠ k' → dict_get k' (dict_set k v d) = dict_get k' d.
Proof.
  intros Hne. induction d as [|[k0 v0] d IH]; simpl.
  - by rewrite decide_False.
  - destruct (decide (k0 = k)) as [->|Hne0]; simpl.
    + by rewrite !decide_False.
    + destruct (decide (k0 = k')); done.
Qed.

Lemma dict_get_set k k' v d :
  dict_get k' (dict_set k v d) = if decide (k = k') then Some v else dict_get k' d.
Proof.
  destruct (decide (k = k')) as [->|?];
    [apply dict_get_set_eq | by apply dict_get_set_ne].
Qed.

Lemma dict_set_keys k v d :
  (dict_set k v d).*1 = if dict_get k d is Some _ then d.*1 else d.*1 ++ [k].
Proof.
  induction d as [|[k' v'] d IH]; csimpl; [done|].
  destruct (decide (k' = k)) as [->|Hne]; csimpl; [done|].
  rewrite IH. by destruct (dict_get k d).
Qed.

Lemma dict_get_None k d : dict_get k d = None ↔ k ∉ d.*1.
Proof.
  induction d as [|[k' v'] d IH]; csimpl.
  - split; [intros _ ?%elem_of_nil; done | done].
  - rewrite not_elem_of_cons. destruct (decide (k' = k)) as [->|Hne].
    + split; [done | by intros [? _]].
    + rewrite IH. split; [by split | by intros [_ ?]].
Qed.

Lemma dict_set_NoDup k v d : NoDup d.*1 → NoDup (dict_set k v d).*1.
Proof.
  intros Hnd. rewrite dict_set_keys.
  destruct (dict_get k d) eqn:Hk; [done|].
  apply NoDup_app. split; [done|]. split; [|apply NoDup_singleton].
  intros k' Hk' ->%list_elem_of_singleton. by apply dict_get_None in Hk.
Qed.

Lemma dict_get_Some k v d : dict_get k d = Some v → (k, v) ∈ d.
Proof.
  induction d as [|[k' v'] d IH]; simpl; [done|].
  destruct (decide (k' = k)) as [->|Hne].
  - intros [= ->]. by left.
  - intros ?. right. auto.
Qed.

Lemma elem_of_dict k v d : NoDup d.*1 → (k, v) ∈ d ↔ dict_get k d = Some v.
Proof.
  intros Hnd. split; [|apply dict_get_Some].
  induction d as [|[k' v'] d IH]; csimpl; [by intros ?%elem_of_nil|].
  csimpl in Hnd. apply NoDup_cons in Hnd as [Hk' Hnd].
  intros [[= -> ->]|Hin]%elem_of_cons.
  - by rewrite decide_True.
  - rewrite decide_False; [by apply IH|].
    intros ->. apply Hk'. by apply (list_elem_of_fmap_2 fst) in Hin.
Qed.

End dict.

(** ** Constraint accumulator *)

Lemma accumulate_shift_Ok st r st' :
  accumulate_shift st r = Ok st' →
  (EmployeeNumber r = Some None ∧ st' = st)
  ∨ (∃ emp day, EmployeeNumber r = Some (Some emp) ∧ DayNum r = Some day
                ∧ st' = record_shift st emp day (default 8%Q (ShiftDurationHours r))).
Proof.
  unfold accumulate_shift. rewrite bind_Ok. intros (e & He%col_Ok & H).
  destruct e as [emp|].
  - apply bind_Ok in H as (day & Hday%col_Ok & [= <-]). right. eauto.
  - injection H as <-. by left.
Qed.

Lemma record_shift_hours st emp day duration k :
  dict_get k (employee_week_hours (record_shift st emp day duration))
  = if decide ((emp, 0%Z) = k)
    then Some (current_hours_of st emp 0 + duration)%Q
    else dict_get k (employee_week_hours st).
Proof. unfold record_shift; simpl. apply dict_get_set. Qed.

Lemma record_shift_days st emp day duration k :
  dict_get k (employee_week_days (record_shift st emp day duration))
  = if decide ((emp, 0%Z) = k)
    then Some (current_day_set_of st emp 0 ∪ {[day]})
    else dict_get k (employee_week_days st).
Proof.
  unfold record_shift, current_day_set_of; simpl. rewrite dict_get_set.
  destruct (decide ((emp, 0%Z) = k)) as [<-|Hne].
  - destruct (dict_get (emp, 0%Z) (employee_week_days st)) eqn:Hget; simpl.
    + by rewrite Hget.
    + by rewrite dict_get_set_eq.
  - destruct (dict_get (emp, 0%Z) (employee_week_days st)); [done|].
    by rewrite dict_get_set_ne.
Qed.

Lemma record_shift_shifts st emp day duration k :
  dict_get k (employee_day_shifts (record_shift st emp day duration))
  = if decide ((emp, day) = k)
    then Some (current_shifts_of st emp day + 1)%nat
    else dict_get k (employee_day_shifts st).
Proof. unfold record_shift; simpl. apply dict_get_set. Qed.

Lemma record_shift_well_keyed st emp day duration :
  well_keyed st → well_keyed (record_shift st emp day duration).
Proof.
  intros (Hh & Hd & Hs). unfold record_shift; simpl. split; [|split]; simpl.
  - by apply dict_set_NoDup.
  - apply dict_set_NoDup. destruct (dict_get _ _); [done | by apply dict_set_NoDup].
  - by apply dict_set_NoDup.
Qed.

Lemma worked_by_true emp r : worked_by emp r = true ↔ EmployeeNumber r = Some (Some emp).
Proof. unfold worked_by. by rewrite bool_decide_eq_true. Qed.

Lemma for_each_accumulate rows st0 st :
  for_each accumulate_shift st0 rows = Ok st →
  (∀ emp, current_hours_of st emp 0
          = foldl (λ acc r, if worked_by emp r
                            then (acc + default 8 (ShiftDurationHours r))%Q else acc)
                  (current_hours_of st0 emp 0) rows)
  ∧ (∀ emp, current_day_set_of st emp 0
            = current_day_set_of st0 emp 0 ∪ days_worked emp rows)
  ∧ (∀ emp day, current_shifts_of st emp day
                = (current_shifts_of st0 emp day + shifts_on emp day rows)%nat)
  ∧ (∀ emp w, w ≠ 0%Z →
       dict_get (emp, w) (employee_week_hours st) = dict_get (emp, w) (employee_week_hours st0)
       ∧ dict_get (emp, w) (employee_week_days st) = dict_get (emp, w) (employee_week_days st0))
  ∧ (well_keyed st0 → well_keyed st).
Proof.
  revert st0. induction rows as [|r rows IH]; intros st0; simpl.
  { intros [= <-]. unfold days_worked, shifts_on. simpl.
    split; [|split; [|split; [|split]]];
      [done | intros; set_solver | intros; lia | done | done]. }
  rewrite bind_Ok. intros (st1 & Hstep & Hrest).
  destruct (IH _ Hrest) as (IHh & IHd & IHs & IHw & IHk). clear IH Hrest.
  apply accumulate_shift_Ok in Hstep as [[Hemp ->]|(e & d & Hemp & Hday & ->)].
  - assert (∀ emp, worked_by emp r = false) as Hnot.
    { intros emp. apply not_true_iff_false. rewrite worked_by_true. congruence. }
    split; [|split; [|split; [|split]]]; try done.
    + intros emp. by rewrite IHh, Hnot.
    + intros emp. rewrite IHd. unfold days_worked. rewrite filter_cons_False; [done|].
      by rewrite Hnot.
    + intros emp day. rewrite IHs. unfold shifts_on. rewrite filter_cons_False; [done|].
      rewrite Hnot. by intros [? _].
  - assert (∀ emp, worked_by emp r = bool_decide (e = emp)) as Hw.
    { intros emp. unfold worked_by. rewrite Hemp. apply bool_decide_ext.
      split; congruence. }
    split; [|split; [|split; [|split]]].
    + intros emp. rewrite IHh, Hw. f_equal.
      unfold current_hours_of at 1. rewrite record_shift_hours.
      case_bool_decide as Heq; [subst; by rewrite decide_True|].
      rewrite decide_False by congruence. done.
    + intros emp. rewrite IHd. unfold days_worked.
      unfold current_day_set_of at 1. rewrite record_shift_days.
      destruct (decide (e = emp)) as [->|Hne].
      * rewrite decide_True by done. rewrite filter_cons_True by (by rewrite Hw, bool_decide_eq_true).
        simpl. rewrite Hday. simpl. set_solver.
      * rewrite decide_False by congruence.
        rewrite filter_cons_False by (rewrite Hw, bool_decide_eq_true; done). done.
    + intros emp day. rewrite IHs. unfold shifts_on.
      unfold current_shifts_of at 1. rewrite record_shift_shifts.
      destruct (decide ((e, d) = (emp, day))) as [[= -> ->]|Hne].
      * rewrite filter_cons_True by (by rewrite Hw, bool_decide_eq_true).
        simpl. lia.
      * rewrite filter_cons_False; [done|].
        rewrite Hw, bool_decide_eq_true, Hday. intros [-> [= ->]]. done.
    + intros emp w Hw0. destruct (IHw emp w Hw0) as [-> ->].
      rewrite record_shift_hours, record_shift_days.
      rewrite !decide_False by congruence. done.
    + intros Hk. by apply IHk, record_shift_well_keyed.
Qed.

Lemma Qgt_bool_true x y : Qgt_bool x y = true ↔ (y < x)%Q.
Proof.
  unfold Qgt_bool. rewrite negb_true_iff, <-not_true_iff_false, Qle_bool_iff.
  split; [apply Qnot_le_lt | apply Qlt_not_le].
Qed.

Lemma well_keyed_empty : well_keyed empty_state.
Proof. repeat split; simpl; constructor. Qed.

Lemma accumulate_Ok filled_shifts st :
  accumulate filled_shifts = Ok st →
  well_keyed st
  ∧ (∀ emp, current_hours_of st emp 0 = committed_hours emp filled_shifts)
  ∧ (∀ emp, current_day_set_of st emp 0 = days_worked emp filled_shifts)
  ∧ (∀ emp day, current_shifts_of st emp day = shifts_on emp day filled_shifts)
  ∧ (∀ emp w hours, dict_get (emp, w) (employee_week_hours st) = Some hours → w = 0%Z)
  ∧ (∀ emp w days, dict_get (emp, w) (employee_week_days st) = Some days → w = 0%Z).
Proof.
  intros (Hh & Hd & Hs & Hw & Hk)%for_each_accumulate.
  split; [apply Hk, well_keyed_empty|].
  split; [exact Hh|].
  split; [intros emp; rewrite Hd; unfold current_day_set_of; simpl; set_solver|].
  split; [intros emp day; by rewrite Hs|].
  split; intros emp w v Hget; destruct (decide (w = 0%Z)) as [|Hne]; try done;
    destruct (Hw emp w Hne) as [H1 H2]; simpl in *; congruence.
Qed.

Lemma accumulate_total rows st0 :
  accumulable rows → ∃ st, for_each accumulate_shift st0 rows = Ok st.
Proof.
  intros Hrows. revert st0. induction Hrows as [|r rows Hr _ IH]; intros st0; simpl.
  { eauto. }
  unfold accumulate_shift.
  destruct (EmployeeNumber r) as [[emp|]|]; simpl; [|apply IH|done].
  destruct Hr as [day ->]. simpl. apply IH.
Qed.

Lemma select_notna_accumulate df df' st0 :
  select_notna df = Ok df' →
  for_each accumulate_shift st0 df' = for_each accumulate_shift st0 df.
Proof.
  revert df' st0. induction df as [|r df IH]; intros df' st0; simpl.
  { by intros [= <-]. }
  rewrite bind_Ok. intros (e & He%col_Ok & H).
  apply bind_Ok in H as (rest & Hrest & [= <-]).
  destruct e as [emp|]; simpl.
  - destruct (accumulate_shift st0 r); simpl; [by apply IH | done].
  - unfold accumulate_shift. rewrite He. simpl. by apply IH.
Qed.

Lemma select_notna_total df :
  accumulable df → ∃ df', select_notna df = Ok df'.
Proof.
  induction 1 as [|r df Hr _ [df' IH]]; simpl; [eauto|].
  destruct (EmployeeNumber r) as [e|]; [|done]. simpl. rewrite IH. simpl. eauto.
Qed.

Lemma validate_constraints_Ok snapshot res :
  validate_constraints snapshot = Ok res →
  ∃ st, accumulate snapshot = Ok st
  ∧ violations res = check_constraints st
  ∧ valid res = bool_decide (length (weekly_hours (violations res))
                             + length (work_days (violations res))
                             + length (daily_shifts (violations res)) = 0)%nat.
Proof.
  unfold validate_constraints. rewrite bind_Ok. intros (filled & Hfilled & H).
  pose proof (select_notna_accumulate _ _ empty_state Hfilled) as Hacc.
  case_bool_decide as Hlen.
  - injection H as <-. apply length_zero_iff_nil in Hlen. subst filled.
    exists empty_state. simpl in *. done.
  - apply bind_Ok in H as (st & Hst & [= <-]). exists st. simpl.
    split; [unfold accumulate; congruence | done].
Qed.

Lemma validate_constraints_total snapshot :
  accumulable snapshot → ∃ res, validate_constraints snapshot = Ok res.
Proof.
  intros Hrows. unfold validate_constraints.
  destruct (select_notna_total _ Hrows) as [filled Hfilled]. rewrite Hfilled. simpl.
  case_bool_decide; [eauto|].
  destruct (accumulate_total _ empty_state Hrows) as [st Hst].
  rewrite (select_notna_accumulate _ _ _ Hfilled), Hst. simpl. eauto.
Qed.

Lemma check_constraints_hours st emp :
  well_keyed st →
  (∀ e w hours, dict_get (e, w) (employee_week_hours st) = Some hours → w = 0%Z) →
  (∃ v, v ∈ weekly_hours (check_constraints st) ∧ hv_employee v = emp)
  ↔ (40 < current_hours_of st emp 0)%Q.
Proof.
  intros (Hnd & _) Hweek. unfold check_constraints; simpl. split.
  - intros (v & Hv & <-). apply list_elem_of_omap in Hv as ([[e w] hours] & Hin & Hv).
    destruct (Qgt_bool hours 40) eqn:Hgt; [|done]. injection Hv as <-. simpl.
    apply elem_of_dict in Hin; [|done].
    rewrite (Hweek _ _ _ Hin) in Hin. unfold current_hours_of. rewrite Hin. simpl.
    by apply Qgt_bool_true.
  - unfold current_hours_of. intros Hgt.
    destruct (dict_get (emp, 0%Z) (employee_week_hours st)) as [hours|] eqn:Hget;
      simpl in Hgt; [|by apply Qlt_not_le in Hgt; destruct Hgt].
    eexists. split; [|shelve]. apply list_elem_of_omap.
    exists ((emp, 0%Z), hours). split; [by apply dict_get_Some|].
    apply Qgt_bool_true in Hgt. rewrite Hgt. reflexivity.
    Unshelve. done.
Qed.

Lemma check_constraints_days st emp :
  well_keyed st →
  (∀ e w days, dict_get (e, w) (employee_week_days st) = Some days → w = 0%Z) →
  (∃ v, v ∈ work_days (check_constraints st) ∧ dv_employee v = emp)
  ↔ (5 < current_days_of st emp 0)%nat.
Proof.
  intros (_ & Hnd & _) Hweek. unfold check_constraints; simpl. split.
  - intros (v & Hv & <-). apply list_elem_of_omap in Hv as ([[e w] days] & Hin & Hv).
    case_bool_decide as Hgt; [|done]. injection Hv as <-. simpl.
    apply elem_of_dict in Hin; [|done].
    rewrite (Hweek _ _ _ Hin) in Hin.
    unfold current_days_of, current_day_set_of. by rewrite Hin.
  - unfold current_days_of, current_day_set_of. intros Hgt.
    destruct (dict_get (emp, 0%Z) (employee_week_days st)) as [days|] eqn:Hget;
      [|change (5 < size (∅ : gset Z))%nat in Hgt; rewrite size_empty in Hgt; lia].
    simpl in Hgt.
    eexists. split; [|shelve]. apply list_elem_of_omap.
    exists ((emp, 0%Z), days). split; [by apply dict_get_Some|].
    rewrite bool_decide_true by done. reflexivity.
    Unshelve. done.
Qed.

Lemma check_constraints_daily st emp day :
  well_keyed st →
  (∃ v, v ∈ daily_shifts (check_constraints st) ∧ sv_employee v = emp ∧ sv_day v = day)
  ↔ (1 < current_shifts_of st emp day)%nat.
Proof.
  intros (_ & _ & Hnd). unfold check_constraints; simpl. split.
  - intros (v & Hv & <- & <-).
    apply list_elem_of_omap in Hv as ([[e d] count] & Hin & Hv).
    case_bool_decide as Hgt; [|done]. injection Hv as <-. simpl.
    apply elem_of_dict in Hin; [|done].
    unfold current_shifts_of. by rewrite Hin.
  - unfold current_shifts_of. intros Hgt.
    destruct (dict_get (emp, day) (employee_day_shifts st)) as [count|] eqn:Hget;
      simpl in Hgt; [|lia].
    eexists. split; [|shelve]. apply list_elem_of_omap.
    exists ((emp, day), count). split; [by apply dict_get_Some|].
    rewrite bool_decide_true by done. reflexivity.
    Unshelve. done.
Qed.

(** C6: on a shift set whose rows have the columns the validator indexes,
    [validate_constraints] returns a report; it lists an hours violation for
    an employee exactly when their summed hours exceed 40, a days violation
    exactly when they work on more than 5 distinct days, a daily violation
    for an employee and a day exactly when they have more than 1 shift on
    that day; and [valid] holds exactly when the three lists are empty.  The
    snapshot is a value that the function only reads. *)
Theorem validate_constraints_reports (snapshot : DataFrame) :
  accumulable snapshot →
  ∃ res, validate_constraints snapshot = Ok res
  ∧ (∀ emp, (∃ v, v ∈ weekly_hours (violations res) ∧ hv_employee v = emp)
            ↔ (40 < committed_hours emp snapshot)%Q)
  ∧ (∀ emp, (∃ v, v ∈ work_days (violations res) ∧ dv_employee v = emp)
            ↔ (5 < size (days_worked emp snapshot))%nat)
  ∧ (∀ emp day, (∃ v, v ∈ daily_shifts (violations res)
                      ∧ sv_employee v = emp ∧ sv_day v = day)
                ↔ (1 < shifts_on emp day snapshot)%nat)
  ∧ (valid res = true
     ↔ weekly_hours (violations res) = [] ∧ work_days (violations res) = []
       ∧ daily_shifts (violations res) = []).
Proof.
  intros Hrows. destruct (validate_constraints_total _ Hrows) as [res Hres].
  exists res. split; [done|].
  destruct (validate_constraints_Ok _ _ Hres) as (st & Hst & Hviol & Hvalid).
  destruct (accumulate_Ok _ _ Hst) as (Hk & Hh & Hd & Hs & Hwh & Hwd).
  rewrite Hviol. split; [|split; [|split]].
  - intros emp. rewrite <-Hh. by apply check_constraints_hours.
  - intros emp. rewrite <-Hd. by apply check_constraints_days.
  - intros emp day. rewrite <-Hs. by apply check_constraints_daily.
  - rewrite Hvalid, Hviol, bool_decide_eq_true.
    rewrite <-!length_zero_iff_nil. lia.
Qed.

(** ** Missing columns *)

Lemma accumulate_shift_default st r :
  accumulate_shift st (with_default_duration r) = accumulate_shift st r.
Proof.
  unfold accumulate_shift, with_default_duration; simpl.
  by destruct (ShiftDurationHours r).
Qed.

Lemma for_each_accumulate_default (rows : DataFrame) st0 :
  for_each accumulate_shift st0 (with_default_duration <$> rows)
  = for_each accumulate_shift st0 rows.
Proof.
  revert st0. induction rows as [|r rows IH]; intros st0; csimpl; [done|].
  rewrite accumulate_shift_default.
  destruct (accumulate_shift st0 r); simpl; [apply IH | done].
Qed.

Lemma select_notna_default (rows : DataFrame) :
  select_notna (with_default_duration <$> rows)
  = (filled ← select_notna rows; Ok (fmap (M:=list) with_default_duration filled)).
Proof.
  induction rows as [|r rows IH]; csimpl; [done|].
  destruct (EmployeeNumber r) as [e|]; simpl; [|done].
  rewrite IH. destruct (select_notna rows); simpl; [|done]. by destruct e.
Qed.

Lemma validate_constraints_default (rows : DataFrame) :
  validate_constraints (with_default_duration <$> rows) = validate_constraints rows.
Proof.
  unfold validate_constraints. rewrite select_notna_default.
  destruct (select_notna rows) as [filled|]; simpl; [|done].
  rewrite length_fmap, for_each_accumulate_default. done.
Qed.

Lemma accumulate_raises rows st0 :
  Exists lacks_indexed_column rows →
  ∃ c, for_each accumulate_shift st0 rows = KeyError c
       ∧ (c = "EmployeeNumber" ∨ c = "DayNum").
Proof.
  intros Hex. revert st0. induction Hex as [r rows Hr|r rows _ IH]; intros st0; simpl.
  - unfold accumulate_shift.
    destruct Hr as [->|[[emp ->] ->]]; simpl; eauto.
  - destruct (accumulate_shift st0 r) as [st1|c] eqn:Hstep; simpl; [apply IH|].
    exists c. split; [done|]. unfold accumulate_shift in Hstep.
    destruct (EmployeeNumber r) as [[emp|]|]; simpl in Hstep;
      [destruct (DayNum r); simpl in Hstep| |]; simplify_eq; auto.
Qed.

Lemma lacks_indexed_column_filled df df' :
  select_notna df = Ok df' → Exists lacks_indexed_column df →
  Exists lacks_indexed_column df'.
Proof.
  revert df'. induction df as [|r df IH]; intros df'; simpl.
  { by intros _ ?%Exists_nil. }
  rewrite bind_Ok. intros (e & He%col_Ok & H).
  apply bind_Ok in H as (rest & Hrest & [= <-]).
  intros [Hr|Hex]%Exists_cons.
  - destruct Hr as [?|[[emp Hemp] Hday]]; [congruence|].
    rewrite He in Hemp. injection Hemp as ->. left. right. eauto.
  - destruct e; [right|]; by apply IH.
Qed.

Lemma validate_constraints_raises rows :
  Exists lacks_indexed_column rows →
  ∃ c, validate_constraints rows = KeyError c
       ∧ (c = "EmployeeNumber" ∨ c = "DayNum").
Proof.
  intros Hex. unfold validate_constraints.
  destruct (select_notna rows) as [filled|c] eqn:Hsel; simpl.
  - pose proof (lacks_indexed_column_filled _ _ Hsel Hex) as Hex'.
    case_bool_decide as Hlen.
    { apply length_zero_iff_nil in Hlen. subst. by apply Exists_nil in Hex'. }
    destruct (accumulate_raises _ empty_state Hex') as (c & -> & Hc). simpl. eauto.
  - exists c. split; [done|]. left.
    clear Hex. revert c Hsel. induction rows as [|r rows IH]; intros c; simpl; [done|].
    destruct (EmployeeNumber r); simpl; [|congruence].
    destruct (select_notna rows); simpl; [done|]. intros [= <-]. by apply IH.
Qed.

(** C8, as the code has it: a shift set with a row that lacks its
    [EmployeeNumber] column, or a filled row that lacks [DayNum], makes the
    accumulator and the validator raise a [KeyError] for that column; on a
    shift set without such a row both return a result, and it is the result
    for the shift set in which every absent duration is 8.0 hours. *)
Theorem missing_columns (rows : DataFrame) :
  (Exists lacks_indexed_column rows →
     (∃ c, accumulate rows = KeyError c ∧ (c = "EmployeeNumber" ∨ c = "DayNum"))
     ∧ (∃ c, validate_constraints rows = KeyError c
             ∧ (c = "EmployeeNumber" ∨ c = "DayNum")))
  ∧ (accumulable rows →
     (∃ st, accumulate rows = Ok st
            ∧ accumulate (with_default_duration <$> rows) = Ok st)
     ∧ (∃ res, validate_constraints rows = Ok res
               ∧ validate_constraints (with_default_duration <$> rows) = Ok res)).
Proof.
  split.
  - intros Hex. split;
      [by apply accumulate_raises | by apply validate_constraints_raises].
  - intros Hrows. split.
    + destruct (accumulate_total _ empty_state Hrows) as [st Hst].
      exists st. unfold accumulate. by rewrite for_each_accumulate_default.
    + destruct (validate_constraints_total _ Hrows) as [res Hres].
      exists res. by rewrite validate_constraints_default.
Qed.

(** C8 as stated fails: a filled shift without its duration column makes
    neither the accumulator nor the validator raise; both count it with 8.0
    hours. *)
Lemma missing_duration_is_tolerated :
  let rows := [without_duration (sample_shift 1 1 (Some 7%Z))] in
  Forall (λ r, ShiftDurationHours r = None) rows
  ∧ (∃ st, accumulate rows = Ok st ∧ current_hours_of st 7 0 = (0 + 8)%Q)
  ∧ (∃ res, validate_constraints rows = Ok res ∧ valid res = true).
Proof.
  split; [by repeat constructor|]. split; eexists; split; reflexivity.
Qed.

Lemma missing_columns_witness :
  let missing := [without_employee (sample_shift 1 1 (Some 7%Z))] in
  let rows := [without_duration (sample_shift 1 1 (Some 7%Z))] in
  Exists lacks_indexed_column missing
  ∧ accumulable rows
  ∧ (∃ c, accumulate missing = KeyError c ∧ (c = "EmployeeNumber" ∨ c = "DayNum"))
  ∧ (∃ res, validate_constraints rows = Ok res
            ∧ validate_constraints (with_default_duration <$> rows) = Ok res).
Proof.
  intros missing rows.
  assert (Exists lacks_indexed_column missing) as Hmissing.
  { left. by left. }
  assert (accumulable rows) as Hrows.
  { repeat constructor. simpl. eauto. }
  split; [exact Hmissing|]. split; [exact Hrows|]. split.
  - exact (proj1 (proj1 (missing_columns missing) Hmissing)).
  - exact (proj2 (proj2 (missing_columns rows) Hrows)).
Defined.

(** ** Filling a snapshot *)

Lemma select_all_filled (df : DataFrame) :
  Forall (λ r, ∃ emp, EmployeeNumber r = Some (Some emp)) df →
  select_notna df = Ok df ∧ select_isna df = Ok [].
Proof.
  induction 1 as [|r df [emp Hr] _ [IH1 IH2]]; simpl; [done|].
  rewrite Hr, IH1, IH2. done.
Qed.

(** C9: on a snapshot whose rows are all filled, [fill_unfilled_shifts]
    returns the snapshot as it is, and its log is empty: no problem is
    created, no decision variable, and the solver is not called. *)
Theorem fill_unfilled_shifts_nothing_to_fill (solver : Solver)
    (latest_snapshot : DataFrame) (employee_profiles : ProfileFrame) :
  Forall (λ r, ∃ emp, EmployeeNumber r = Some (Some emp)) latest_snapshot →
  fill_unfilled_shifts solver latest_snapshot employee_profiles
  = Ok (latest_snapshot, []).
Proof.
  intros [Hfilled Hunfilled]%select_all_filled.
  unfold fill_unfilled_shifts. rewrite Hfilled, Hunfilled. reflexivity.
Qed.

(** ** Pre-exclusion *)

Lemma has_daily_violation_true st emp :
  NoDup (employee_day_shifts st).*1 →
  has_daily_violation st emp = true ↔ ∃ day, (1 < current_shifts_of st emp day)%nat.
Proof.
  intros Hnd. unfold has_daily_violation, current_shifts_of.
  rewrite existsb_exists. split.
  - intros ([[e d] count] & Hin & Htest).
    apply andb_true_iff in Htest as [->%bool_decide_eq_true Hgt%bool_decide_eq_true].
    apply list_elem_of_In, elem_of_dict in Hin; [|done].
    exists d. by rewrite Hin.
  - intros [day Hgt].
    destruct (dict_get (emp, day) (employee_day_shifts st)) as [count|] eqn:Hget;
      simpl in Hgt; [|lia].
    exists ((emp, day), count). split.
    + by apply list_elem_of_In, dict_get_Some.
    + by rewrite !bool_decide_true.
Qed.

Lemma exclusion_at_limit filled_shifts st emp :
  accumulate filled_shifts = Ok st →
  exclusion st emp ≠ None ↔ at_limit emp filled_shifts.
Proof.
  intros (Hk & Hh & Hd & Hs & _)%accumulate_Ok.
  destruct Hk as (_ & _ & Hnd).
  unfold exclusion, at_limit, current_days_of.
  rewrite Hh, Hd.
  destruct (Qle_bool 40 (committed_hours emp filled_shifts)) eqn:Hhours.
  { apply Qle_bool_iff in Hhours. split; [auto | done]. }
  assert (¬ (40 <= committed_hours emp filled_shifts)%Q) as Hnh.
  { rewrite <-Qle_bool_iff. congruence. }
  case_bool_decide as Hdays; [split; [auto | done]|].
  destruct (has_daily_violation st emp) eqn:Hdaily.
  - apply has_daily_violation_true in Hdaily as [day Hday]; [|done].
    rewrite Hs in Hday. split; [eauto | done].
  - split; [done|]. intros [?|[?|[day Hday]]]; [done..|].
    rewrite <-Hs in Hday.
    assert (has_daily_violation st emp = true) as Hv
      by (apply has_daily_violation_true; eauto).
    congruence.
Qed.

(** ** Extraction of the assignments *)

Lemma elem_of_x_keys valid_employees shift_ids emp shift_id :
  (emp, shift_id) ∈ x_keys valid_employees shift_ids
  ↔ emp ∈ valid_employees ∧ shift_id ∈ shift_ids.
Proof.
  unfold x_keys. rewrite list_elem_of_bind. split.
  - intros (e & Hin & He). apply list_elem_of_bind in Hin as (s & Hin & Hs).
    apply list_elem_of_singleton in Hin as [= -> ->]. done.
  - intros [He Hs]. exists emp. split; [|done].
    apply list_elem_of_bind. exists shift_id. split; [by left | done].
Qed.

Lemma extract_step_assignments varValue acc key :
  (extract_step varValue acc key).1
  = if chosen varValue key
    then (if dict_get key.2 acc.1 is None then dict_set key.2 key.1 acc.1 else acc.1)
    else acc.1.
Proof.
  destruct acc as [assignments log], key as [emp shift_id].
  unfold extract_step, chosen; simpl.
  destruct (varValue (x_var emp shift_id)) as [v|]; [|done].
  destruct (Qgt_bool v 0.5); [|done].
  by destruct (dict_get shift_id assignments).
Qed.

Lemma extract_fold varValue keys acc shift_id :
  dict_get shift_id (foldl (extract_step varValue) acc keys).1
  = match dict_get shift_id acc.1 with
    | Some emp => Some emp
    | None => first_chosen varValue shift_id keys
    end.
Proof.
  revert acc. induction keys as [|key keys IH]; intros acc; simpl.
  { by destruct (dict_get shift_id acc.1). }
  rewrite IH, extract_step_assignments.
  destruct (chosen varValue key) eqn:Hc; simpl.
  - destruct (dict_get key.2 acc.1) as [holder|] eqn:Hholder.
    + destruct (dict_get shift_id acc.1) eqn:Hget; [done|].
      rewrite andb_true_r. case_bool_decide as Heq; [|done]. congruence.
    + rewrite dict_get_set, andb_true_r.
      destruct (decide (key.2 = shift_id)) as [Heq|Hne].
      * rewrite bool_decide_true by done. subst. by rewrite Hholder.
      * rewrite bool_decide_false by done. done.
  - by rewrite andb_false_r.
Qed.

Lemma extract_fold_NoDup varValue keys acc :
  NoDup acc.1.*1 → NoDup (foldl (extract_step varValue) acc keys).1.*1.
Proof.
  revert acc. induction keys as [|key keys IH]; intros acc Hnd; simpl; [done|].
  apply IH. rewrite extract_step_assignments.
  destruct (chosen varValue key); [|done].
  destruct (dict_get key.2 acc.1); [done|]. by apply dict_set_NoDup.
Qed.

Lemma extract_fold_only_prints varValue keys acc :
  only_prints acc.2 → only_prints (foldl (extract_step varValue) acc keys).2.
Proof.
  revert acc. induction keys as [|[emp shift_id] keys IH]; intros [a log] Hlog;
    simpl; [done|].
  apply IH. simpl in *.
  destruct (varValue (x_var emp shift_id)) as [v|]; [|done].
  destruct (Qgt_bool v 0.5); [|done].
  destruct (dict_get shift_id a); [|done]. simpl.
  apply Forall_app. split; [done|]. repeat constructor. eauto.
Qed.

Lemma first_chosen_Some varValue shift_id keys emp :
  first_chosen varValue shift_id keys = Some emp →
  (emp, shift_id) ∈ keys ∧ chosen varValue (emp, shift_id) = true.
Proof.
  induction keys as [|[e s] keys IH]; simpl; [done|].
  destruct (bool_decide (s = shift_id) && chosen varValue (e, s)) eqn:Htest.
  - apply andb_true_iff in Htest as [->%bool_decide_eq_true Hc].
    intros [= ->]. split; [by left | done].
  - intros [? ?]%IH. split; [by right | done].
Qed.

Lemma first_chosen_unique varValue shift_id keys emp :
  (emp, shift_id) ∈ keys → chosen varValue (emp, shift_id) = true →
  (∀ emp', (emp', shift_id) ∈ keys → chosen varValue (emp', shift_id) = true → emp' = emp) →
  first_chosen varValue shift_id keys = Some emp.
Proof.
  induction keys as [|[e s] keys IH]; simpl; [by intros ?%elem_of_nil|].
  intros Hin Hc Huniq.
  destruct (bool_decide (s = shift_id) && chosen varValue (e, s)) eqn:Htest.
  - apply andb_true_iff in Htest as [->%bool_decide_eq_true Hce].
    f_equal. apply Huniq; [by left | done].
  - apply IH; [|done|].
    + apply elem_of_cons in Hin as [[= -> ->]|?]; [|done].
      rewrite Hc, bool_decide_true in Htest by done. done.
    + intros emp' Hin' Hc'. apply Huniq; [by right | done].
Qed.

Lemma extract_solution_lookup varValue valid_employees shift_ids shift_id :
  dict_get shift_id (extract_solution varValue valid_employees shift_ids).1
  = first_chosen varValue shift_id (x_keys valid_employees shift_ids).
Proof. unfold extract_solution. by rewrite extract_fold. Qed.

Lemma extract_solution_NoDup varValue valid_employees shift_ids :
  NoDup (extract_solution varValue valid_employees shift_ids).1.*1.
Proof. apply extract_fold_NoDup. constructor. Qed.

Lemma extract_solution_elem_of varValue valid_employees shift_ids shift_id emp :
  (shift_id, emp) ∈ (extract_solution varValue valid_employees shift_ids).1 →
  emp ∈ valid_employees ∧ shift_id ∈ shift_ids ∧ chosen varValue (emp, shift_id) = true.
Proof.
  intros Hin. apply elem_of_dict in Hin; [|apply extract_solution_NoDup].
  rewrite extract_solution_lookup in Hin.
  apply first_chosen_Some in Hin as [Hin Hc].
  apply elem_of_x_keys in Hin as [? ?]. done.
Qed.

(** ** The steps of [solve_assignment] *)

Lemma prepare_Ok unfilled_shifts employee_profiles filled_shifts p :
  prepare unfilled_shifts employee_profiles filled_shifts = Ok p →
  employees p
  = merge_sort Z.le (unique (profile_EmployeeNumber <$> iterrows employee_profiles))
  ∧ map_rows shift_id_of unfilled_shifts = Ok (shift_ids p)
  ∧ week_shifts p = [(0%Z, shift_ids p)]
  ∧ accumulate filled_shifts = Ok (state p)
  ∧ for_each record_duration ∅ unfilled_shifts = Ok (shift_durations p).
Proof.
  unfold prepare. rewrite bind_Ok. intros (cdf & _ & H).
  apply bind_Ok in H as (numbers & Hnumbers & H).
  assert (numbers = profile_EmployeeNumber <$> iterrows employee_profiles) as ->.
  { destruct employee_profiles; simpl in *; congruence. }
  apply bind_Ok in H as (sids & Hsids & H).
  apply bind_Ok in H as (durs & Hdurs & H).
  apply bind_Ok in H as (ws & Hws & H).
  apply bind_Ok in H as (st & Hst & [= <-]). simpl.
  unfold group_shifts_by_week in Hws. rewrite Hsids in Hws. injection Hws as <-.
  done.
Qed.

Lemma elem_of_employees unfilled_shifts employee_profiles filled_shifts p emp :
  prepare unfilled_shifts employee_profiles filled_shifts = Ok p →
  emp ∈ employees p
  ↔ ∃ prof, prof ∈ iterrows employee_profiles ∧ profile_EmployeeNumber prof = emp.
Proof.
  intros (-> & _)%prepare_Ok. rewrite elem_of_sorted_unique, list_elem_of_fmap.
  split; intros (prof & ? & ?); eauto.
Qed.

Lemma elem_of_valid_employees st employees emp :
  emp ∈ valid_employees_of st employees ↔ emp ∈ employees ∧ exclusion st emp = None.
Proof. unfold valid_employees_of. rewrite list_elem_of_filter. tauto. Qed.

Lemma exclusion_log_only_prints st employees : only_prints (exclusion_log st employees).
Proof.
  unfold exclusion_log. case_bool_decide; [|constructor].
  repeat constructor; eauto.
Qed.

(** The three ways in which [solve_assignment] returns. *)
Lemma solve_assignment_Ok solver unfilled_shifts employee_profiles filled_shifts
    assignments log :
  solve_assignment solver unfilled_shifts employee_profiles filled_shifts
  = Ok (assignments, log) →
  ∃ p, prepare unfilled_shifts employee_profiles filled_shifts = Ok p
  ∧ (valid_employees_of (state p) (employees p) = [] ∧ assignments = []
       ∧ only_prints log
     ∨ valid_employees_of (state p) (employees p) ≠ []
       ∧ status (solver (problem_of p)) = LpStatusInfeasible ∧ assignments = []
     ∨ valid_employees_of (state p) (employees p) ≠ []
       ∧ status (solver (problem_of p)) ≠ LpStatusInfeasible
       ∧ assignments = (extract_solution (varValue (solver (problem_of p)))
                          (valid_employees_of (state p) (employees p)) (shift_ids p)).1).
Proof.
  unfold solve_assignment. rewrite bind_Ok. intros (p & Hp & H). exists p.
  split; [done|].
  case_bool_decide as Hvalid.
  - injection H as <- <-. left. apply length_zero_iff_nil in Hvalid.
    split; [done|]. split; [done|].
    apply Forall_app. split; [apply exclusion_log_only_prints|].
    repeat constructor. eauto.
  - right. assert (valid_employees_of (state p) (employees p) ≠ []) as Hne.
    { intros Heq. by rewrite Heq in Hvalid. }
    destruct (status (solver (problem_of p))) eqn:Hstatus; simpl in H.
    3:{ injection H as <- <-. by left. }
    all: right; split; [done|]; split; [done|];
      destruct (extract_solution _ _ _) as [a w]; by injection H as <- _.
Qed.

Lemma map_rows_total {A B} (f : A → result B) (P : B → Prop) (l : list A) :
  Forall (λ a, ∃ b, f a = Ok b ∧ P b) l →
  ∃ l', map_rows f l = Ok l' ∧ Forall P l'.
Proof.
  induction 1 as [|a l (b & Hb & HP) _ (l' & Hl' & HPl')]; simpl.
  - exists []. by split.
  - rewrite Hb, Hl'. simpl. exists (b :: l'). split; [done | by constructor].
Qed.

Lemma schedulable_features employee_profiles r :
  schedulable r →
  ∃ r', extract_shift_features_row r = Ok r'
        ∧ ∃ rows, compatibility_rows employee_profiles r' = Ok rows.
Proof.
  destruct r as [sid day job emp unf st en sp dur tc dc ty].
  intros (Hsid & Hday & Hjob & Hdur & Hstart); simpl in *.
  destruct Hsid as [? ->], Hday as [? ->], Hjob as [? ->], Hdur as [? ->].
  unfold extract_shift_features_row; simpl.
  destruct sp as [p|]; simpl.
  - eexists. split; [reflexivity|]. unfold compatibility_rows; simpl. eauto.
  - destruct Hstart as [[? [=]]|[s ->]]. simpl.
    eexists. split; [reflexivity|]. unfold compatibility_rows; simpl. eauto.
Qed.

Lemma prepare_total unfilled_shifts rows filled_shifts :
  Forall schedulable unfilled_shifts → accumulable filled_shifts →
  ∃ p, prepare unfilled_shifts (ProfileRows rows) filled_shifts = Ok p.
Proof.
  intros Hunfilled Hfilled.
  unfold prepare, compute_compatibility_matrix, extract_shift_features.
  cbn [iterrows EmployeeNumber_column].
  destruct (map_rows_total extract_shift_features_row
              (λ r', ∃ crows, compatibility_rows rows r' = Ok crows)
              unfilled_shifts) as (df & -> & Hdf).
  { eapply Forall_impl; [exact Hunfilled|]. intros r Hr.
    by apply schedulable_features. }
  simpl.
  destruct (map_rows_total (compatibility_rows rows) (λ _, True) df)
    as (crows & -> & _).
  { eapply Forall_impl; [exact Hdf|]. intros r [rs Hrs]. eauto. }
  simpl.
  destruct (map_rows_total shift_id_of (λ _, True) unfilled_shifts)
    as (sids & Hsids & _).
  { eapply Forall_impl; [exact Hunfilled|].
    intros r ([sid Hsid] & [day Hday] & _). unfold shift_id_of.
    rewrite Hsid, Hday. simpl. eauto. }
  rewrite Hsids. simpl.
  assert (∀ d0, ∃ d, for_each record_duration d0 unfilled_shifts = Ok d) as Hdurs.
  { clear -Hunfilled. induction Hunfilled as [|r rows Hr _ IH]; intros d0; simpl; [eauto|].
    destruct Hr as ([sid Hsid] & [day Hday] & _ & [dur Hdur] & _).
    unfold record_duration, shift_id_of. rewrite Hsid, Hday, Hdur. simpl. apply IH. }
  destruct (Hdurs ∅) as [durs ->]. simpl.
  unfold group_shifts_by_week. rewrite Hsids. simpl.
  destruct (accumulate_total _ empty_state Hfilled) as [st Hst].
  unfold accumulate. rewrite Hst. simpl. eauto.
Qed.

(** C10: when every profiled employee is at or over a limit (40 hours or
    more, 5 days or more, or two shifts on one day), [solve_assignment]
    returns the empty mapping, raises nothing, and its log holds only
    printed messages: no problem and no decision variable is created and the
    solver is not called. *)
Theorem solve_assignment_all_excluded (solver : Solver)
    (unfilled_shifts : DataFrame) (employee_profiles : list Profile)
    (filled_shifts : DataFrame) :
  Forall schedulable unfilled_shifts → accumulable filled_shifts →
  (∀ prof, prof ∈ employee_profiles → at_limit (profile_EmployeeNumber prof) filled_shifts) →
  ∃ log, solve_assignment solver unfilled_shifts (ProfileRows employee_profiles)
           filled_shifts
         = Ok ([], log)
         ∧ only_prints log.
Proof.
  intros Hunfilled Hfilled Hlimit.
  destruct (prepare_total _ employee_profiles _ Hunfilled Hfilled) as [p Hp].
  pose proof (prepare_Ok _ _ _ _ Hp) as (_ & _ & _ & Hst & _).
  assert (valid_employees_of (state p) (employees p) = []) as Hvalid.
  { apply elem_of_nil_inv. intros emp [Hemp Hex]%elem_of_valid_employees.
    apply (elem_of_employees _ _ _ _ _ Hp) in Hemp as (prof & Hprof & <-).
    apply Hlimit, (exclusion_at_limit _ _ _ Hst) in Hprof. done. }
  unfold solve_assignment. rewrite Hp. simpl. rewrite Hvalid. simpl.
  eexists. split; [reflexivity|].
  apply Forall_app. split; [apply exclusion_log_only_prints|].
  repeat constructor. eauto.
Qed.

(** C3: an employee whose filled shifts amount to 40 hours or more, to 5
    distinct days or more, or to more than one shift on some day, is not in
    the pool of assignable employees, and whatever the solver answers, no
    shift of the returned mapping is assigned to them. *)
Theorem excluded_employee_never_assigned
    (unfilled_shifts : DataFrame) (employee_profiles : ProfileFrame)
    (filled_shifts : DataFrame) (p : Prepared) (emp : Z) :
  prepare unfilled_shifts employee_profiles filled_shifts = Ok p →
  at_limit emp filled_shifts →
  (emp ∉ valid_employees_of (state p) (employees p))
  ∧ ∀ (solver : Solver) assignments log,
      solve_assignment solver unfilled_shifts employee_profiles filled_shifts
      = Ok (assignments, log) →
      emp ∉ assignments.*2.
Proof.
  intros Hp Hlimit.
  pose proof (prepare_Ok _ _ _ _ Hp) as (_ & _ & _ & Hst & _).
  assert (emp ∉ valid_employees_of (state p) (employees p)) as Hpool.
  { intros [_ Hex]%elem_of_valid_employees.
    by apply (exclusion_at_limit _ _ _ Hst) in Hlimit. }
  split; [exact Hpool|].
  intros solver assignments log (p' & Hp' & Hcases)%solve_assignment_Ok.
  rewrite Hp in Hp'. injection Hp' as <-.
  destruct Hcases as [(_ & -> & _)|[(_ & _ & ->)|(_ & _ & ->)]];
    [by intros ?%elem_of_nil..|].
  intros ([shift_id e] & -> & Hin)%list_elem_of_fmap. simpl in *.
  by apply extract_solution_elem_of in Hin as [? _].
Qed.

(** ** Solver statuses *)

Lemma extract_fold_none_chosen varValue keys acc :
  Forall (λ key, chosen varValue key = false) keys →
  (foldl (extract_step varValue) acc keys).1 = acc.1.
Proof.
  intros Hkeys. revert acc. induction Hkeys as [|key keys Hkey _ IH]; intros acc;
    simpl; [done|].
  by rewrite IH, extract_step_assignments, Hkey.
Qed.

Lemma logged_statuses_app log1 log2 :
  logged_statuses (log1 ++ log2) = logged_statuses log1 ++ logged_statuses log2.
Proof. apply omap_app. Qed.

Lemma extract_fold_logged_statuses varValue keys acc :
  logged_statuses (foldl (extract_step varValue) acc keys).2 = logged_statuses acc.2.
Proof.
  revert acc. induction keys as [|[emp shift_id] keys IH]; intros [a log]; simpl; [done|].
  rewrite IH.
  destruct (varValue (x_var emp shift_id)) as [v|]; [|done].
  destruct (Qgt_bool v 0.5); [|done].
  destruct (dict_get shift_id a); [|done]. simpl.
  rewrite logged_statuses_app. simpl. apply app_nil_r.
Qed.

Lemma exclusion_log_logged_statuses st employees :
  logged_statuses (exclusion_log st employees) = [].
Proof. unfold exclusion_log. by case_bool_decide. Qed.

Lemma new_variables_logged_statuses vars : logged_statuses (NewVariable <$> vars) = [].
Proof. induction vars as [|v vars IH]; csimpl; done. Qed.

Lemma new_problem_logged_statuses vars :
  logged_statuses (NewProblem :: (NewVariable <$> vars)) = [].
Proof. apply new_variables_logged_statuses. Qed.

(** C2, as the code has it: once the problem is handed to the solver,
    [solve_assignment] returns a mapping whatever the status.  With the
    optimal status it is the mapping extracted from the values, and no
    warning is logged; with the infeasible status it is empty, after a
    warning; with any other status a warning is logged and the mapping is
    again the one extracted from the values, which is empty when no value
    exceeds 0.5. *)
Theorem solve_assignment_statuses (solver : Solver)
    (unfilled_shifts : DataFrame) (employee_profiles : ProfileFrame)
    (filled_shifts : DataFrame) (p : Prepared) :
  prepare unfilled_shifts employee_profiles filled_shifts = Ok p →
  valid_employees_of (state p) (employees p) ≠ [] →
  let solution := solver (problem_of p) in
  let extracted := (extract_solution (varValue solution)
                      (valid_employees_of (state p) (employees p)) (shift_ids p)).1 in
  ∃ assignments log,
    solve_assignment solver unfilled_shifts employee_profiles filled_shifts
    = Ok (assignments, log)
    ∧ match status solution with
      | LpStatusOptimal => assignments = extracted ∧ logged_statuses log = []
      | LpStatusInfeasible =>
          assignments = [] ∧ logged_statuses log = [LpStatusInfeasible]
      | other =>
          logged_statuses log = [other]
          ∧ assignments = extracted
          ∧ (Forall (λ key, chosen (varValue solution) key = false)
                    (x_keys (valid_employees_of (state p) (employees p)) (shift_ids p)) →
             assignments = [])
      end.
Proof.
  intros Hp Hvalid solution extracted.
  unfold solve_assignment. rewrite Hp. simpl.
  rewrite bool_decide_false
    by (intros Hlen%length_zero_iff_nil; done).
  fold solution.
  pose proof (extract_fold_logged_statuses (varValue solution)
    (x_keys (valid_employees_of (state p) (employees p)) (shift_ids p)) ([], [])) as Hw.
  assert (Forall (λ key, chosen (varValue solution) key = false)
            (x_keys (valid_employees_of (state p) (employees p)) (shift_ids p)) →
          extracted = []) as Hnone.
  { intros Hnone. unfold extracted, extract_solution.
    by rewrite extract_fold_none_chosen. }
  unfold extracted in *. unfold extract_solution in *.
  destruct (foldl _ _ _) as [a w]. simpl in Hw, Hnone.
  destruct (status solution) eqn:Hstatus; cbn [status_code];
    rewrite ?(bool_decide_true (_ ≠ _)), ?(bool_decide_false (_ ≠ _)),
      ?(bool_decide_true (_ = _)), ?(bool_decide_false (_ = _)) by lia;
    cbn [andb];
    eexists _, _; (split; [reflexivity|]);
    rewrite ?logged_statuses_app, ?exclusion_log_logged_statuses,
      ?new_problem_logged_statuses, ?Hw; auto.
Qed.

(** ** Sums of rationals *)

Lemma Qsum_app l1 l2 : (Qsum (l1 ++ l2) == Qsum l1 + Qsum l2)%Q.
Proof.
  unfold Qsum. induction l1 as [|q l1 IH]; simpl; [ring|]. rewrite IH. ring.
Qed.

Lemma Qsum_Permutation l1 l2 : l1 ≡ₚ l2 → (Qsum l1 == Qsum l2)%Q.
Proof.
  unfold Qsum. induction 1 as [|q l1 l2 _ IH|q1 q2 l|l1 l2 l3 _ IH1 _ IH2]; simpl.
  - reflexivity.
  - by rewrite IH.
  - ring.
  - by rewrite IH1.
Qed.

Lemma is_binary_true q : is_binary q = true ↔ (q == 0 ∨ q == 1)%Q.
Proof. unfold is_binary. by rewrite orb_true_iff, !Qeq_bool_iff. Qed.

Lemma Qeq_bool_false x y : Qeq_bool x y = false ↔ ¬ (x == y)%Q.
Proof. by rewrite <-not_true_iff_false, Qeq_bool_iff. Qed.

Section indicator.
Context {A : Type} (f : A → Q).

(** A sum weighted by 0/1 values is the sum over the entries valued 1. *)
Lemma Qsum_indicator (g : A → Q) (l : list A) :
  Forall (λ a, is_binary (f a) = true) l →
  (Qsum (g <$> filter (λ a, Qeq_bool (f a) 1 = true) l)
   == Qsum ((λ a, g a * f a) <$> l))%Q.
Proof.
  induction 1 as [|a l Ha _ IH]; csimpl; [reflexivity|].
  rewrite filter_cons. fold (Qsum ((λ a, g a * f a)%Q <$> l)). rewrite <-IH.
  destruct (decide (Qeq_bool (f a) 1 = true)) as [H1|H1]; csimpl.
  - apply Qeq_bool_iff in H1. rewrite H1.
    fold (Qsum (g <$> filter (λ a, Qeq_bool (f a) 1 = true) l)). ring.
  - apply is_binary_true in Ha as [H0|H1']; [|by apply Qeq_bool_iff in H1'].
    rewrite H0. ring.
Qed.

Lemma Qsum_binary_nonneg (l : list A) :
  Forall (λ a, is_binary (f a) = true) l → (0 <= Qsum (f <$> l))%Q.
Proof.
  induction 1 as [|a l Ha _ IH]; csimpl; [apply Qle_refl|].
  fold (Qsum (f <$> l)).
  apply is_binary_true in Ha as [-> | ->]; lra.
Qed.

Lemma Qsum_binary_elem (l : list A) a :
  Forall (λ a, is_binary (f a) = true) l → a ∈ l → (f a <= Qsum (f <$> l))%Q.
Proof.
  induction 1 as [|b l Hb Hl IH]; csimpl; [by intros ?%elem_of_nil|].
  fold (Qsum (f <$> l)). pose proof (Qsum_binary_nonneg l Hl).
  intros [->|Hin]%elem_of_cons; [lra|].
  specialize (IH Hin). apply is_binary_true in Hb as [-> | ->]; lra.
Qed.

(** Among 0/1 values that sum to at most 1, at most one is 1. *)
Lemma Qsum_binary_unique (l : list A) a b :
  NoDup l → Forall (λ a, is_binary (f a) = true) l →
  (Qsum (f <$> l) <= 1)%Q → a ∈ l → b ∈ l → (f a == 1)%Q → (f b == 1)%Q → a = b.
Proof.
  intros Hnd Hl. revert Hnd.
  induction Hl as [|c l Hc Hl IH]; csimpl; [by intros _ _ ?%elem_of_nil|].
  fold (Qsum (f <$> l)). intros [Hcl Hnd]%NoDup_cons Hsum Ha Hb Hfa Hfb.
  pose proof (Qsum_binary_nonneg l Hl) as Hnn.
  apply elem_of_cons in Ha as [->|Ha]; apply elem_of_cons in Hb as [->|Hb].
  - done.
  - pose proof (Qsum_binary_elem l b Hl Hb). lra.
  - pose proof (Qsum_binary_elem l a Hl Ha). lra.
  - apply IH; try done. apply is_binary_true in Hc as [Hc|Hc]; lra.
Qed.

(** The entries valued 1 are at most as many as the sum. *)
Lemma Qsum_binary_count (l : list A) :
  Forall (λ a, is_binary (f a) = true) l →
  (inject_Z (Z.of_nat (length (filter (λ a, Qeq_bool (f a) 1 = true) l)))
   == Qsum (f <$> l))%Q.
Proof.
  induction 1 as [|a l Ha _ IH]; csimpl; [reflexivity|].
  rewrite filter_cons. fold (Qsum (f <$> l)). rewrite <-IH.
  destruct (decide (Qeq_bool (f a) 1 = true)) as [H1|H1]; csimpl.
  - apply Qeq_bool_iff in H1. rewrite H1.
    rewrite Nat2Z.inj_succ, <-Z.add_1_l, inject_Z_plus. reflexivity.
  - apply is_binary_true in Ha as [H0|H1']; [|by apply Qeq_bool_iff in H1'].
    rewrite H0. ring.
Qed.

End indicator.

(** ** The constraints of the program *)

Lemma lp_eval_const varValue c : (lp_eval varValue (lp_const c) == c)%Q.
Proof. unfold lp_eval, lp_const, Qsum; simpl. ring. Qed.

Lemma lp_eval_var varValue v : (lp_eval varValue (lp_var v) == value varValue v)%Q.
Proof. unfold lp_eval, lp_var, lpSum, Qsum; simpl. ring. Qed.

Lemma lp_eval_plus_sum {A} varValue c (coef : A → Q) (var : A → LpVariable) (l : list A) :
  (lp_eval varValue (lp_plus c (lpSum ((λ a, (coef a, var a)) <$> l)))
   == c + Qsum ((λ a, coef a * value varValue (var a)) <$> l))%Q.
Proof.
  unfold lp_eval, lp_plus, lpSum; simpl. rewrite <-list_fmap_compose.
  unfold compose; simpl. ring.
Qed.

Lemma lp_eval_sum {A} varValue (coef : A → Q) (var : A → LpVariable) (l : list A) :
  (lp_eval varValue (lpSum ((λ a, (coef a, var a)) <$> l))
   == Qsum ((λ a, coef a * value varValue (var a)) <$> l))%Q.
Proof.
  unfold lp_eval, lpSum; simpl. rewrite <-list_fmap_compose.
  unfold compose; simpl. ring.
Qed.

Lemma Qsum_unit {A} (g : A → Q) (l : list A) :
  (Qsum ((λ a, 1 * g a) <$> l) == Qsum (g <$> l))%Q.
Proof.
  unfold Qsum. induction l as [|a l IH]; csimpl; [reflexivity|]. rewrite IH. ring.
Qed.

Lemma feasible_true prob varValue :
  feasible prob varValue = true →
  (∀ v, v ∈ variables_of prob → is_binary (value varValue v) = true)
  ∧ (∀ c, c ∈ constraints prob → holds varValue c = true).
Proof.
  unfold feasible. rewrite andb_true_iff, !forallb_forall.
  intros [Hvars Hcons]. split; intros ? ?%list_elem_of_In; auto.
Qed.

Lemma filter_all {A} (P : A → Prop) `{!∀ x, Decision (P x)} (l : list A) :
  Forall P l → filter P l = l.
Proof.
  induction 1 as [|a l Ha _ IH]; [done|]. by rewrite filter_cons_True, IH.
Qed.

Lemma filter_elem_of_self `{EqDecision A} (l : list A) : filter (λ x, x ∈ l) l = l.
Proof. apply filter_all, Forall_forall. auto. Qed.

Lemma exists_elem_of {A} (l : list A) : l ≠ [] → ∃ x, x ∈ l.
Proof. destruct l as [|x l]; [done|]. exists x. by left. Qed.

Section program.
Context (p : Prepared) (varValue : LpVariable → option Q).
Context (Hweek : week_shifts p = [(0%Z, shift_ids p)]).
Context (Hfeasible : feasible (problem_of p) varValue = true).

Let valid := valid_employees_of (state p) (employees p).
Let sids := shift_ids p.

Lemma x_var_binary emp shift_id :
  emp ∈ valid → shift_id ∈ sids →
  is_binary (value varValue (x_var emp shift_id)) = true.
Proof using Hfeasible.
  intros Hemp Hsid. apply feasible_true in Hfeasible as [Hvars _]. apply Hvars.
  unfold variables_of, problem_of, build_problem; simpl.
  apply elem_of_app. left. unfold objective_of, lpSum; simpl.
  rewrite <-list_fmap_compose. apply list_elem_of_fmap.
  exists (emp, shift_id). split; [done|]. by apply elem_of_x_keys.
Qed.

Lemma constraint_holds c :
  c ∈ constraints (problem_of p) → holds varValue c = true.
Proof using Hfeasible. apply feasible_true in Hfeasible as [_ Hcons]. apply Hcons. Qed.

Lemma one_employee_per_shift_holds shift_id :
  shift_id ∈ sids →
  (Qsum ((λ emp, value varValue (x_var emp shift_id)) <$> valid) <= 1)%Q.
Proof using Hfeasible.
  intros Hsid.
  assert (holds varValue
            (LpLe (lpSum ((λ emp, (1%Q, x_var emp shift_id)) <$> valid)) (lp_const 1))
          = true) as Hc.
  { apply constraint_holds. unfold problem_of, build_problem; simpl.
    apply elem_of_app. left. unfold one_employee_per_shift.
    apply list_elem_of_fmap. eauto. }
  simpl in Hc. apply Qle_bool_iff in Hc.
  rewrite lp_eval_const, (lp_eval_sum _ (λ _, 1%Q) (λ emp, x_var emp shift_id)) in Hc.
  by rewrite Qsum_unit in Hc.
Qed.

Lemma weekly_hours_limit_holds emp :
  emp ∈ valid →
  (current_hours_of (state p) emp 0
   + Qsum ((λ shift_id, shift_durations p !!! shift_id
                        * value varValue (x_var emp shift_id)) <$> sids) <= 40)%Q.
Proof using Hfeasible Hweek.
  intros Hemp.
  assert (holds varValue
            (LpLe (lp_plus (current_hours_of (state p) emp 0)
                     (lpSum ((λ shift_id, (shift_durations p !!! shift_id,
                                           x_var emp shift_id)) <$> sids)))
                  (lp_const 40)) = true) as Hc.
  { apply constraint_holds. unfold problem_of, build_problem; simpl.
    apply elem_of_app. right. apply elem_of_app. left.
    unfold weekly_hours_limit. apply list_elem_of_bind. exists emp. split; [|done].
    rewrite Hweek. csimpl. rewrite filter_elem_of_self. by left. }
  simpl in Hc. apply Qle_bool_iff in Hc.
  by rewrite lp_eval_const, lp_eval_plus_sum in Hc.
Qed.

Lemma work_days_constraints emp c :
  emp ∈ valid →
  let days_in_week := elements (days_in_week_of sids sids) in
  c ∈ (days_in_week ≫= λ day, day_links emp 0 day (shifts_on_day_of sids sids day))
      ++ match (λ day, (1%Q, day_var emp 0%Z day)) <$> days_in_week with
         | [] => []
         | _ =>
             [LpLe (lp_plus (inject_Z (Z.of_nat (current_days_of (state p) emp 0)))
                            (lpSum ((λ day, (1%Q, day_var emp 0%Z day)) <$> days_in_week)))
                   (lp_const 5)]
         end →
  c ∈ constraints (problem_of p).
Proof using Hweek.
  intros Hemp days_in_week Hc. unfold problem_of, build_problem; simpl.
  apply elem_of_app. right. apply elem_of_app. right. apply elem_of_app. left.
  unfold work_days_limit. apply list_elem_of_bind. exists emp. split; [|done].
  rewrite Hweek. csimpl. by rewrite app_nil_r.
Qed.

Lemma elem_of_days_in_week shift_id :
  shift_id ∈ sids → shift_id.2 ∈ elements (days_in_week_of sids sids).
Proof.
  intros Hsid. apply elem_of_elements. unfold days_in_week_of.
  rewrite filter_elem_of_self. apply elem_of_list_to_set. by apply list_elem_of_fmap_2.
Qed.

Lemma day_link_holds emp shift_id :
  emp ∈ valid → shift_id ∈ sids →
  (value varValue (x_var emp shift_id) <= value varValue (day_var emp 0 shift_id.2))%Q.
Proof using Hfeasible Hweek.
  intros Hemp Hsid.
  assert (holds varValue
            (LpGe (lp_var (day_var emp 0 shift_id.2)) (lp_var (x_var emp shift_id)))
          = true) as Hc.
  { apply constraint_holds, (work_days_constraints emp); [done|].
    apply elem_of_app. left. apply list_elem_of_bind. exists shift_id.2.
    split; [|by apply elem_of_days_in_week].
    assert (shift_id ∈ shifts_on_day_of sids sids shift_id.2) as Hin.
    { unfold shifts_on_day_of. apply list_elem_of_filter. done. }
    unfold day_links. destruct (shifts_on_day_of sids sids shift_id.2) as [|s l] eqn:Heq.
    { by apply elem_of_nil in Hin. }
    apply elem_of_app. left. apply list_elem_of_fmap. by exists shift_id. }
  simpl in Hc. apply Qle_bool_iff in Hc. by rewrite !lp_eval_var in Hc.
Qed.

Lemma work_days_limit_holds emp :
  emp ∈ valid → sids ≠ [] →
  (inject_Z (Z.of_nat (current_days_of (state p) emp 0))
   + Qsum ((λ day, value varValue (day_var emp 0 day))
           <$> elements (days_in_week_of sids sids)) <= 5)%Q.
Proof using Hfeasible Hweek.
  intros Hemp Hne.
  assert (holds varValue
            (LpLe (lp_plus (inject_Z (Z.of_nat (current_days_of (state p) emp 0)))
                     (lpSum ((λ day, (1%Q, day_var emp 0%Z day))
                             <$> elements (days_in_week_of sids sids))))
                  (lp_const 5)) = true) as Hc.
  { apply constraint_holds, (work_days_constraints emp); [done|].
    apply elem_of_app. right.
    destruct (elements (days_in_week_of sids sids)) as [|d l] eqn:Heq.
    - destruct (exists_elem_of _ Hne) as [s Hs].
      pose proof (elem_of_days_in_week s Hs) as Hin.
      rewrite Heq in Hin. by apply elem_of_nil in Hin.
    - csimpl. by left. }
  simpl in Hc. apply Qle_bool_iff in Hc.
  rewrite lp_eval_const, (lp_eval_plus_sum _ _ (λ _, 1%Q) (λ day, day_var emp 0 day)) in Hc.
  by rewrite Qsum_unit in Hc.
Qed.

Lemma day_var_binary emp day :
  emp ∈ valid → day ∈ elements (days_in_week_of sids sids) →
  is_binary (value varValue (day_var emp 0 day)) = true.
Proof using Hfeasible Hweek.
  intros Hemp Hday. apply feasible_true in Hfeasible as [Hvars _]. apply Hvars.
  unfold variables_of. apply elem_of_app. right. apply list_elem_of_bind.
  exists (LpLe (lp_plus (inject_Z (Z.of_nat (current_days_of (state p) emp 0)))
                  (lpSum ((λ day, (1%Q, day_var emp 0%Z day))
                          <$> elements (days_in_week_of sids sids))))
               (lp_const 5)).
  split.
  - simpl. apply elem_of_app. left. rewrite <-list_fmap_compose.
    apply list_elem_of_fmap. exists day. by split.
  - apply (work_days_constraints emp); [done|]. apply elem_of_app. right.
    destruct (elements (days_in_week_of sids sids)) as [|d l] eqn:Heq;
      [by apply elem_of_nil in Hday|].
    csimpl. left.
Qed.

Lemma daily_shift_limit_holds emp day :
  emp ∈ valid → day ∈ sids.*2 →
  (inject_Z (Z.of_nat (current_shifts_of (state p) emp day))
   + Qsum ((λ shift_id, value varValue (x_var emp shift_id))
           <$> filter (λ shift_id, shift_id.2 = day) sids) <= 1)%Q.
Proof using Hfeasible.
  intros Hemp Hday.
  assert (holds varValue
            (LpLe (lp_plus (inject_Z (Z.of_nat (current_shifts_of (state p) emp day)))
                     (lpSum ((λ shift_id, (1%Q, x_var emp shift_id))
                             <$> filter (λ shift_id, shift_id.2 = day) sids)))
                  (lp_const 1)) = true) as Hc.
  { apply constraint_holds. unfold problem_of, build_problem; simpl.
    apply elem_of_app. right. apply elem_of_app. right. apply elem_of_app. right.
    unfold daily_shift_limit. apply list_elem_of_bind. exists emp. split; [|done].
    apply list_elem_of_bind. exists day. split; [by left|].
    by apply elem_of_elements, elem_of_list_to_set. }
  simpl in Hc. apply Qle_bool_iff in Hc.
  rewrite lp_eval_const,
    (lp_eval_plus_sum _ _ (λ _, 1%Q) (λ shift_id, x_var emp shift_id)) in Hc.
  by rewrite Qsum_unit in Hc.
Qed.

End program.

(** ** The mapping read from a point of the program *)

Lemma filter_keys_NoDup {K V} (P : K * V → Prop) `{!∀ x, Decision (P x)} (d : PyDict K V) :
  NoDup d.*1 → NoDup (filter P d).*1.
Proof.
  induction d as [|[k v] d IH]; csimpl; [done|].
  intros [Hk Hd]%NoDup_cons. rewrite filter_cons.
  destruct (decide (P (k, v))); csimpl; [|by apply IH].
  apply NoDup_cons. split; [|by apply IH].
  intros ([k' v'] & -> & Hin%list_elem_of_filter)%list_elem_of_fmap.
  apply Hk. apply list_elem_of_fmap. exists (k', v'). tauto.
Qed.

Lemma elem_of_assigned_shifts emp (assignments : PyDict (Z * Z) Z) shift_id :
  NoDup assignments.*1 →
  shift_id ∈ assigned_shifts emp assignments ↔ dict_get shift_id assignments = Some emp.
Proof.
  intros Hnd. unfold assigned_shifts. rewrite list_elem_of_fmap. split.
  - intros ([s e] & -> & [He Hin]%list_elem_of_filter). simpl in *. subst.
    by apply elem_of_dict.
  - intros Hget. exists (shift_id, emp). split; [done|].
    apply list_elem_of_filter. split; [done|]. by apply dict_get_Some.
Qed.

Section mapping.
Context (p : Prepared) (varValue : LpVariable → option Q).
Context (Hweek : week_shifts p = [(0%Z, shift_ids p)]).
Context (Hfeasible : feasible (problem_of p) varValue = true).
Context (Hemployees : NoDup (employees p)) (Hshifts : NoDup (shift_ids p)).

Let valid := valid_employees_of (state p) (employees p).
Let sids := shift_ids p.
Let assignments := (extract_solution varValue valid sids).1.

Lemma chosen_taken emp shift_id :
  emp ∈ valid → shift_id ∈ sids →
  chosen varValue (emp, shift_id) = true ↔ taken varValue emp shift_id.
Proof using Hfeasible.
  intros Hemp Hsid. pose proof (x_var_binary p varValue Hfeasible emp shift_id Hemp Hsid) as Hb.
  unfold taken, chosen, value in *; simpl.
  destruct (varValue (x_var emp shift_id)) as [q|]; simpl in *; [|done].
  rewrite Qgt_bool_true, Qeq_bool_iff.
  apply is_binary_true in Hb as [Hq|Hq]; rewrite Hq; split; intros H; done.
Qed.

Lemma assigned_taken emp shift_id :
  dict_get shift_id assignments = Some emp
  ↔ emp ∈ valid ∧ shift_id ∈ sids ∧ taken varValue emp shift_id.
Proof using Hfeasible Hemployees.
  unfold assignments. rewrite extract_solution_lookup. split.
  - intros [[Hemp Hsid]%elem_of_x_keys Hc]%first_chosen_Some.
    by apply chosen_taken in Hc.
  - intros (Hemp & Hsid & Htaken). apply first_chosen_unique.
    + by apply elem_of_x_keys.
    + by apply chosen_taken.
    + intros emp' [Hemp' _]%elem_of_x_keys Hc'. apply chosen_taken in Hc'; [|done..].
      apply (Qsum_binary_unique (λ e, value varValue (x_var e shift_id)) valid);
        try done.
      * by apply NoDup_filter.
      * apply Forall_forall. intros e He. by apply (x_var_binary p).
      * by apply (one_employee_per_shift_holds p).
      * by apply Qeq_bool_iff.
      * by apply Qeq_bool_iff.
Qed.

Lemma assignments_NoDup : NoDup assignments.*1.
Proof. apply extract_solution_NoDup. Qed.

Lemma assigned_shifts_taken emp :
  emp ∈ valid →
  assigned_shifts emp assignments ≡ₚ filter (taken varValue emp) sids.
Proof using Hfeasible Hemployees Hshifts.
  intros Hemp. apply NoDup_Permutation.
  - apply filter_keys_NoDup, assignments_NoDup.
  - by apply NoDup_filter.
  - intros shift_id.
    rewrite elem_of_assigned_shifts by apply assignments_NoDup.
    rewrite assigned_taken, list_elem_of_filter. tauto.
Qed.

Lemma assigned_employee_valid emp : emp ∈ assignments.*2 → emp ∈ valid.
Proof.
  intros ([shift_id e] & -> & Hin)%list_elem_of_fmap.
  by apply extract_solution_elem_of in Hin as [? _].
Qed.

End mapping.

(** ** Durations of the unfilled shifts *)

Lemma shift_id_of_Ok r shift_id :
  shift_id_of r = Ok shift_id ↔ row_shift_id r = Some shift_id.
Proof.
  unfold shift_id_of, row_shift_id.
  destruct (ScheduleDetailID r), (DayNum r); simpl; split; congruence.
Qed.

Lemma record_duration_lookup rows sids d0 d :
  for_each record_duration d0 rows = Ok d →
  map_rows shift_id_of rows = Ok sids → NoDup sids →
  ∀ shift_id,
    d !! shift_id = if decide (shift_id ∈ sids)
                    then Some (shift_duration rows shift_id) else d0 !! shift_id.
Proof.
  revert sids d0. induction rows as [|r rows IH]; intros sids d0; simpl.
  { intros [= <-] [= <-] _ shift_id. rewrite decide_False; [done | apply not_elem_of_nil]. }
  rewrite !bind_Ok. intros (d1 & Hstep & Hrest) (s & Hs & Hsids).
  apply bind_Ok in Hsids as (sids' & Hsids' & [= <-]).
  intros [Hs' Hnd]%NoDup_cons shift_id.
  unfold record_duration in Hstep. rewrite Hs in Hstep. simpl in Hstep.
  apply bind_Ok in Hstep as (duration & Hdur%col_Ok & [= <-]).
  rewrite (IH _ _ Hrest Hsids' Hnd). apply shift_id_of_Ok in Hs.
  destruct (decide (shift_id = s)) as [->|Hne].
  - rewrite decide_False by done. rewrite decide_True by (by left).
    rewrite lookup_insert_eq, bool_decide_true by done. by rewrite Hdur.
  - rewrite bool_decide_false by congruence.
    destruct (decide (shift_id ∈ sids')) as [Hin|Hnotin].
    + rewrite decide_True by (by right). done.
    + rewrite decide_False by (apply not_elem_of_cons; done).
      by rewrite lookup_insert_ne.
Qed.

(** ** Counting days *)

Lemma size_le_Qsum (f : Z → Q) (S D : gset Z) :
  S ⊆ D → (∀ d, d ∈ D → is_binary (f d) = true) → (∀ d, d ∈ S → (f d == 1)%Q) →
  (inject_Z (Z.of_nat (size S)) <= Qsum (f <$> elements D))%Q.
Proof.
  intros Hsub Hb Hone.
  rewrite <-(Qsum_binary_count f)
    by (apply Forall_forall; intros d Hd%elem_of_elements; auto).
  rewrite <-Zle_Qle. apply Nat2Z.inj_le. apply submseteq_length.
  apply NoDup_submseteq; [apply NoDup_elements|].
  intros d Hd%elem_of_elements. apply list_elem_of_filter.
  split; [by apply Qeq_bool_iff, Hone | by apply elem_of_elements, Hsub].
Qed.

Lemma Q_of_nat_le (a b : nat) (c : Z) (q : Q) :
  (inject_Z (Z.of_nat b) <= q)%Q →
  (inject_Z (Z.of_nat a) + q <= inject_Z c)%Q → (Z.of_nat (a + b) ≤ c)%Z.
Proof.
  intros Hb Hsum. rewrite Nat2Z.inj_add, Zle_Qle, inject_Z_plus. lra.
Qed.

(** ** The limits on the returned mapping *)

Lemma filter_none {A} (P : A → Prop) `{!∀ x, Decision (P x)} (l : list A) :
  Forall (λ x, ¬ P x) l → filter P l = [].
Proof.
  induction 1 as [|a l Ha _ IH]; [done|]. by rewrite filter_cons_False.
Qed.

Lemma employees_NoDup unfilled_shifts employee_profiles filled_shifts p :
  prepare unfilled_shifts employee_profiles filled_shifts = Ok p →
  NoDup (employees p).
Proof. intros (-> & _)%prepare_Ok. apply NoDup_sorted_unique. Qed.

Lemma valid_employee_daily st emp day :
  NoDup (employee_day_shifts st).*1 → exclusion st emp = None →
  (current_shifts_of st emp day ≤ 1)%nat.
Proof.
  intros Hnd Hex. unfold exclusion in Hex.
  destruct (Qle_bool _ _); [done|]. case_bool_decide; [done|].
  destruct (has_daily_violation st emp) eqn:Hv; [done|].
  destruct (decide (1 < current_shifts_of st emp day)%nat) as [Hgt|]; [|lia].
  assert (has_daily_violation st emp = true) as Hv'
    by (apply has_daily_violation_true; eauto).
  congruence.
Qed.

Lemma extracted_respects_limits
    unfilled_shifts employee_profiles filled_shifts p varValue emp :
  prepare unfilled_shifts employee_profiles filled_shifts = Ok p →
  NoDup (shift_ids p) →
  feasible (problem_of p) varValue = true →
  let assignments := (extract_solution varValue
                        (valid_employees_of (state p) (employees p)) (shift_ids p)).1 in
  emp ∈ assignments.*2 →
  (committed_hours emp filled_shifts + new_hours emp assignments unfilled_shifts <= 40)%Q
  ∧ (size (days_worked emp filled_shifts ∪ new_days emp assignments) ≤ 5)%nat
  ∧ ∀ day, (shifts_on emp day filled_shifts + new_shifts_on emp day assignments ≤ 1)%nat.
Proof.
  intros Hp Hshifts Hfeasible assignments Hassigned.
  pose proof (employees_NoDup _ _ _ _ Hp) as Hemployees.
  pose proof (prepare_Ok _ _ _ _ Hp) as (_ & Hsids & Hweek & Hst & Hdurs).
  destruct (accumulate_Ok _ _ Hst) as (Hk & Hh & Hd & Hs & _).
  set (valid := valid_employees_of (state p) (employees p)) in *.
  assert (emp ∈ valid) as Hemp by (by apply assigned_employee_valid in Hassigned).
  pose proof (assigned_shifts_taken p varValue Hfeasible Hemployees Hshifts emp Hemp)
    as Hperm.
  fold valid in Hperm. fold assignments in Hperm.
  assert (Forall (λ shift_id, is_binary (value varValue (x_var emp shift_id)) = true)
            (shift_ids p)) as Hbinary.
  { apply Forall_forall. intros shift_id Hin. by apply (x_var_binary p). }
  split; [|split].
  - (* hours *)
    rewrite <-Hh. unfold new_hours.
    rewrite (Qsum_Permutation _ _ (fmap_Permutation (shift_duration unfilled_shifts)
                                     _ _ Hperm)).
    rewrite (Qsum_indicator (λ shift_id, value varValue (x_var emp shift_id))
               (shift_duration unfilled_shifts) (shift_ids p) Hbinary).
    pose proof (weekly_hours_limit_holds p varValue Hweek Hfeasible emp Hemp) as Hlimit.
    erewrite list_fmap_ext in Hlimit; [exact Hlimit|].
    intros i shift_id Hin%list_elem_of_lookup_2. simpl.
    unfold lookup_total, map_lookup_total.
    rewrite (record_duration_lookup _ _ _ _ Hdurs Hsids Hshifts shift_id).
    by rewrite decide_True.
  - (* days *)
    rewrite <-Hd. fold (current_days_of (state p) emp 0).
    assert (new_days emp assignments
              ⊆ days_in_week_of (shift_ids p) (shift_ids p)) as Hsub.
    { intros day. unfold new_days. rewrite elem_of_list_to_set.
      intros (shift_id & -> & Hin)%list_elem_of_fmap.
      rewrite Hperm in Hin. apply list_elem_of_filter in Hin as [_ Hin].
      by apply elem_of_elements, (elem_of_days_in_week p). }
    assert (shift_ids p ≠ []) as Hne.
    { intros Heq. apply list_elem_of_fmap in Hassigned as ([s e] & _ & Hin).
      apply extract_solution_elem_of in Hin as (_ & Hin & _).
      rewrite Heq in Hin. by apply elem_of_nil in Hin. }
    pose proof (work_days_limit_holds p varValue Hweek Hfeasible emp Hemp Hne) as Hlimit.
    assert (inject_Z (Z.of_nat (size (new_days emp assignments)))
            <= Qsum ((λ day, value varValue (day_var emp 0 day))
                     <$> elements (days_in_week_of (shift_ids p) (shift_ids p))))%Q
      as Hnew.
    { apply size_le_Qsum; [done| |].
      - intros day Hday%elem_of_elements. by apply (day_var_binary p).
      - intros day. unfold new_days. rewrite elem_of_list_to_set.
        intros (shift_id & -> & Hin)%list_elem_of_fmap.
        rewrite Hperm in Hin. apply list_elem_of_filter in Hin as [Htaken Hin].
        pose proof (day_link_holds p varValue Hweek Hfeasible emp shift_id Hemp Hin)
          as Hlink.
        apply Qeq_bool_iff in Htaken. rewrite Htaken in Hlink.
        assert (is_binary (value varValue (day_var emp 0 shift_id.2)) = true) as Hb
          by (by apply (day_var_binary p), (elem_of_days_in_week p)).
        apply is_binary_true in Hb as [Hb|Hb]; [|done]. rewrite Hb in Hlink.
        by apply Qle_not_lt in Hlink. }
    pose proof (Q_of_nat_le _ _ 5 _ Hnew Hlimit) as Hle.
    pose proof (size_union_alt (current_day_set_of (state p) emp 0)
                  (new_days emp assignments)) as Hunion.
    pose proof (subseteq_size (new_days emp assignments
                               ∖ current_day_set_of (state p) emp 0)
                  (new_days emp assignments)) as Hdiff.
    unfold current_days_of in Hle. rewrite Hunion.
    assert (new_days emp assignments ∖ current_day_set_of (state p) emp 0
              ⊆ new_days emp assignments) as Hincl by set_solver.
    specialize (Hdiff Hincl). lia.
  - (* shifts of one day *)
    intros day. rewrite <-Hs. unfold new_shifts_on. rewrite Hperm.
    rewrite list_filter_filter.
    pose proof (valid_employee_daily (state p) emp day) as Hcurrent.
    apply elem_of_valid_employees in Hemp as Hvalid. destruct Hvalid as [_ Hex].
    destruct Hk as (_ & _ & Hk). specialize (Hcurrent Hk Hex).
    destruct (decide (day ∈ (shift_ids p).*2)) as [Hday|Hday].
    + pose proof (daily_shift_limit_holds p varValue Hfeasible emp day Hemp Hday)
        as Hlimit.
      rewrite <-(Qsum_binary_count (λ shift_id, value varValue (x_var emp shift_id)))
        in Hlimit.
      2:{ apply Forall_forall. intros s [_ Hin]%list_elem_of_filter.
          by apply (x_var_binary p). }
      rewrite list_filter_filter in Hlimit.
      rewrite <-inject_Z_plus, <-Nat2Z.inj_add in Hlimit.
      assert (Z.of_nat (current_shifts_of (state p) emp day
                        + length (filter (λ s, taken varValue emp s ∧ s.2 = day)
                                         (shift_ids p))) ≤ 1)%Z as Hz
        by (rewrite Zle_Qle; exact Hlimit).
      rewrite (list_filter_iff _ (λ s, taken varValue emp s ∧ s.2 = day))
        by (intros s; tauto).
      lia.
    + rewrite filter_none; [simpl; lia|].
      apply Forall_forall. intros s Hin [Hs' _]. apply Hday.
      apply list_elem_of_fmap. eauto.
Qed.

(** C1: when the unfilled shifts have distinct keys and the values that the
    solver leaves are a point of the program (binary, every constraint
    satisfied), the returned mapping has each shift key once, and for every
    employee in it: the committed hours plus the durations of the shifts
    newly assigned to them are at most 40, the days already worked together
    with the newly assigned days are at most 5, and on every day the shifts
    already held plus the newly assigned ones are at most 1. *)
Theorem solve_assignment_respects_limits (solver : Solver)
    (unfilled_shifts : DataFrame) (employee_profiles : ProfileFrame)
    (filled_shifts : DataFrame) (p : Prepared)
    (assignments : PyDict (Z * Z) Z) (log : list Event) :
  prepare unfilled_shifts employee_profiles filled_shifts = Ok p →
  NoDup (shift_ids p) →
  feasible (problem_of p) (varValue (solver (problem_of p))) = true →
  solve_assignment solver unfilled_shifts employee_profiles filled_shifts
  = Ok (assignments, log) →
  NoDup assignments.*1
  ∧ ∀ emp, emp ∈ assignments.*2 →
      (committed_hours emp filled_shifts
       + new_hours emp assignments unfilled_shifts <= 40)%Q
      ∧ (size (days_worked emp filled_shifts ∪ new_days emp assignments) ≤ 5)%nat
      ∧ ∀ day, (shifts_on emp day filled_shifts
                + new_shifts_on emp day assignments ≤ 1)%nat.
Proof.
  intros Hp Hshifts Hfeasible (p' & Hp' & Hcases)%solve_assignment_Ok.
  rewrite Hp in Hp'. injection Hp' as <-.
  destruct Hcases as [(_ & -> & _)|[(_ & _ & ->)|(_ & _ & ->)]].
  - split; [constructor | by intros emp ?%elem_of_nil].
  - split; [constructor | by intros emp ?%elem_of_nil].
  - split; [apply extract_solution_NoDup|].
    intros emp Hemp. by eapply extracted_respects_limits.
Qed.
(** * Further properties *)

(** ** The two validators *)

Lemma for_each_accumulate_select df st0 st :
  for_each accumulate_shift st0 df = Ok st → ∃ filled, select_notna df = Ok filled.
Proof.
  revert st0. induction df as [|r df IH]; intros st0; simpl; [eauto|].
  rewrite bind_Ok. intros (st1 & Hstep & Hrest).
  destruct (IH _ Hrest) as [filled ->].
  apply accumulate_shift_Ok in Hstep as [[-> _]|(e & d & -> & _)]; simpl; eauto.
Qed.

Lemma validate_filled_shifts_constraints_verdict (df : DataFrame) :
  (∀ res, validate_filled_shifts_constraints df = Ok res →
     ∃ res', validate_constraints df = Ok res' ∧ same_verdict res res')
  ∧ (∀ res', validate_constraints df = Ok res' →
     ∃ res, validate_filled_shifts_constraints df = Ok res ∧ same_verdict res res').
Proof.
  unfold validate_filled_shifts_constraints, validate_constraints. split.
  - intros res H. case_bool_decide as Hlen.
    + apply length_zero_iff_nil in Hlen as ->. injection H as <-. simpl.
      eexists. split; [reflexivity | done].
    + apply bind_Ok in H as (st & Hst & [= <-]).
      destruct (for_each_accumulate_select _ _ _ Hst) as [filled Hfilled].
      rewrite Hfilled. simpl.
      pose proof (select_notna_accumulate _ _ empty_state Hfilled) as Hacc.
      rewrite Hst in Hacc. case_bool_decide as Hlen'.
      * apply length_zero_iff_nil in Hlen'. subst filled. simpl in Hacc.
        injection Hacc as <-. eexists. split; [reflexivity | done].
      * rewrite Hacc. simpl. eexists. split; [reflexivity | done].
  - intros res' H. apply bind_Ok in H as (filled & Hfilled & H).
    pose proof (select_notna_accumulate _ _ empty_state Hfilled) as Hacc.
    case_bool_decide as Hlen.
    + apply length_zero_iff_nil in Hlen. subst filled. injection H as <-.
      simpl in Hacc. case_bool_decide; [eexists; split; [reflexivity | done]|].
      rewrite <-Hacc. simpl. eexists. split; [reflexivity | done].
    + apply bind_Ok in H as (st & Hst & [= <-]).
      case_bool_decide as Hlen2.
      { apply length_zero_iff_nil in Hlen2. subst df. simpl in Hfilled.
        injection Hfilled as <-. done. }
      rewrite <-Hacc, Hst. simpl. eexists. split; [reflexivity | done].
Qed.

(** X1: [validate_filled_shifts_constraints] and [validate_constraints]
    return on the same frames, and with the same verdict: the same [valid]
    flag, the same three lists of violations and the same count. *)
Theorem validate_filled_shifts_constraints_agrees (df : DataFrame) :
  (∀ res, validate_filled_shifts_constraints df = Ok res →
     ∃ res', validate_constraints df = Ok res' ∧ same_verdict res res')
  ∧ (∀ res', validate_constraints df = Ok res' →
     ∃ res, validate_filled_shifts_constraints df = Ok res ∧ same_verdict res res').
Proof. apply validate_filled_shifts_constraints_verdict. Qed.

(** ** Pre-exclusion counts *)

(** X2: the pool and the excluded employees split the profiled employees, and
    every excluded employee is counted under exactly one reason: the three
    counts of the log add up to the number of excluded employees. *)
Theorem exclusion_counts_add_up (st : AssignmentState) (employees : list Z) :
  (length (valid_employees_of st employees)
   + length (excluded_employees_of st employees) = length employees)%nat
  ∧ (exclusion_count st employees ExcludedHours
     + exclusion_count st employees ExcludedDays
     + exclusion_count st employees ExcludedDaily
     = length (excluded_employees_of st employees))%nat.
Proof.
  unfold valid_employees_of, excluded_employees_of, exclusion_count.
  induction employees as [|emp employees [IH1 IH2]]; [done|].
  rewrite !filter_cons.
  destruct (exclusion st emp) as [[]|]; repeat case_decide; simplify_eq; simpl; lia.
Qed.

(** ** Durations *)

(** X3: between two times of the day the computed duration is at least 0 and
    less than 24 hours, and it is 0 exactly when the shift ends at the time
    at which it starts. *)
Theorem calculate_hours_bounds (start end_ : TimeOfDay) :
  time_of_day start → time_of_day end_ →
  (0 <= calculate_hours start end_ ∧ calculate_hours start end_ < 24)%Q
  ∧ ((calculate_hours start end_ == 0)%Q ↔ seconds_of start = seconds_of end_).
Proof.
  intros (Hh & Hm & Hs) (Hh' & Hm' & Hs'). unfold calculate_hours, seconds_of.
  case_bool_decide as Hlt;
    unfold Qle, Qlt, Qeq, Qdiv, Qmult, Qinv, inject_Z; simpl; lia.
Qed.

(** ** Mean compatibility *)

Lemma get_compatibility_score_bounds employee_profile shift_day shift_time_category
    shift_duration_category shift_job shift_type :
  well_formed_profile employee_profile →
  (0 <= get_compatibility_score employee_profile shift_day shift_time_category
          shift_duration_category shift_job shift_type
   ∧ get_compatibility_score employee_profile shift_day shift_time_category
       shift_duration_category shift_job shift_type <= 1)%Q.
Proof.
  intros Hwf. unfold get_compatibility_score. rewrite !add_term_looked_up.
  unfold weight_day, weight_time, weight_duration, weight_job, weight_shift_type.
  pose proof (looked_up_bounds employee_profile (day_col shift_day) Hwf).
  pose proof (looked_up_bounds employee_profile (time_col shift_time_category) Hwf).
  pose proof (looked_up_bounds employee_profile (duration_col shift_duration_category) Hwf).
  pose proof (looked_up_bounds employee_profile (job_col shift_job) Hwf).
  pose proof (looked_up_bounds employee_profile (shift_type_col shift_type) Hwf).
  split; lra.
Qed.

Lemma sum_Qsum l : (sum l == Qsum l)%Q.
Proof.
  unfold sum. assert (∀ acc, foldl Qplus acc l == acc + Qsum l)%Q as H.
  { induction l as [|q l IH]; intros acc; simpl; [ring|]. rewrite IH. ring. }
  rewrite H. ring.
Qed.

Lemma Qsum_unit_interval l :
  Forall (λ q, 0 <= q ∧ q <= 1)%Q l →
  (0 <= Qsum l ∧ Qsum l <= inject_Z (Z.of_nat (length l)))%Q.
Proof.
  induction 1 as [|q l [Hq0 Hq1] _ [IH0 IH1]].
  - split; apply Qle_refl.
  - change (Qsum (q :: l)) with (q + Qsum l)%Q.
    change (length (q :: l)) with (S (length l)).
    rewrite Nat2Z.inj_succ, <-Z.add_1_l, inject_Z_plus.
    change (inject_Z 1) with 1%Q. split; lra.
Qed.

Lemma assignment_score_Some employee_profiles r q :
  assignment_score employee_profiles r = Ok (Some q) →
  ∃ prof shift_day shift_time_cat shift_duration_cat shift_job shift_type,
    prof ∈ iterrows employee_profiles
    ∧ EmployeeNumber r = Some (Some (profile_EmployeeNumber prof))
    ∧ q = get_compatibility_score (prob_columns prof) shift_day shift_time_cat
            shift_duration_cat shift_job shift_type.
Proof.
  unfold assignment_score. rewrite bind_Ok. intros (e & He%col_Ok & H).
  destruct e as [emp|]; [|done]. apply bind_Ok in H as (numbers & _ & H).
  destruct (filter _ _) as [|prof rest] eqn:Hfilter; [done|].
  assert (prof ∈ filter (λ prof, profile_EmployeeNumber prof = emp)
                        (iterrows employee_profiles)) as Hin
    by (rewrite Hfilter; by left).
  apply list_elem_of_filter in Hin as [<- Hin].
  apply bind_Ok in H as (d & _ & H). apply bind_Ok in H as (t & _ & H).
  apply bind_Ok in H as (du & _ & H). apply bind_Ok in H as (j & _ & H).
  apply bind_Ok in H as (ty & _ & [= <-]).
  exists prof, d, t, du, j, ty. done.
Qed.

(** X4: with profiles whose probabilities lie in [[0,1]], the mean
    compatibility that [compute_assignment_compatibility] returns lies in
    [[0,1]]. *)
Theorem compute_assignment_compatibility_bounds
    (assignments : DataFrame) (employee_profiles : ProfileFrame) (mean : Q) :
  (∀ prof, prof ∈ iterrows employee_profiles → well_formed_profile (prob_columns prof)) →
  compute_assignment_compatibility assignments employee_profiles = Ok mean →
  (0 <= mean ∧ mean <= 1)%Q.
Proof.
  intros Hwf. unfold compute_assignment_compatibility.
  rewrite bind_Ok. intros (features & _ & H).
  apply bind_Ok in H as (scores & Hscores%map_rows_Ok_Forall2 & H).
  set (compatibility_scores := omap id scores) in *.
  assert (Forall (λ q, 0 <= q ∧ q <= 1)%Q compatibility_scores) as Hall.
  { apply Forall_forall. intros q (o & Ho & Hq)%list_elem_of_omap. simpl in Hq. subst o.
    destruct (Forall2_elem_of_r _ _ _ _ Hscores Ho) as (r & _ & Hr).
    apply assignment_score_Some in Hr as (prof & d & t & du & j & ty & Hprof & _ & ->).
    by apply get_compatibility_score_bounds, Hwf. }
  case_bool_decide as Hlen; injection H as <-; [split; [apply Qle_refl | discriminate]|].
  rewrite sum_Qsum. destruct (Qsum_unit_interval _ Hall) as [H0 H1].
  assert (0 < inject_Z (Z.of_nat (length compatibility_scores)))%Q as Hpos.
  { change 0%Q with (inject_Z 0). rewrite <-Zlt_Qlt. lia. }
  split.
  - apply Qle_shift_div_l; [done|]. lra.
  - apply Qle_shift_div_r; [done|]. lra.
Qed.

Lemma assignment_score_unprofiled rows r :
  (∃ e, EmployeeNumber r = Some e
        ∧ ∀ emp, e = Some emp → emp ∉ profile_EmployeeNumber <$> rows) →
  assignment_score (ProfileRows rows) r = Ok None.
Proof.
  intros (e & He & Hnot). unfold assignment_score. rewrite He. simpl.
  destruct e as [emp|]; [|done]. simpl.
  destruct (filter _ _) as [|prof rest] eqn:Hfilter; [done|].
  assert (prof ∈ filter (λ prof, profile_EmployeeNumber prof = emp) rows) as Hin
    by (rewrite Hfilter; by left).
  apply list_elem_of_filter in Hin as [<- Hin].
  destruct (Hnot _ eq_refl). by apply list_elem_of_fmap_2.
Qed.

(** X5: when no shift of the frame is held by an employee with a profile (its
    employee is null, or has no row in the profiles), the mean compatibility
    is 0.0, the value of the empty list of scores. *)
Theorem compute_assignment_compatibility_unprofiled
    (assignments features : DataFrame) (rows : list Profile) :
  extract_shift_features assignments = Ok features →
  Forall (λ r, ∃ e, EmployeeNumber r = Some e
                    ∧ ∀ emp, e = Some emp → emp ∉ profile_EmployeeNumber <$> rows)
         assignments →
  compute_assignment_compatibility assignments (ProfileRows rows) = Ok 0%Q.
Proof.
  intros Hfeatures Hrows. unfold compute_assignment_compatibility.
  rewrite Hfeatures. simpl.
  assert (map_rows (assignment_score (ProfileRows rows)) features
          = Ok (replicate (length features) None)) as ->.
  { apply map_rows_Ok_Forall2 in Hfeatures. clear -Hfeatures Hrows.
    induction Hfeatures as [|r r' df df' Hr _ IH]; [done|].
    apply Forall_cons in Hrows as [Hr0 Hrows]. simpl.
    apply extract_shift_features_row_raw in Hr as (_ & _ & _ & Hemp & _).
    rewrite assignment_score_unprofiled by (by rewrite Hemp).
    simpl. rewrite IH by done. done. }
  simpl. assert (omap (M:=list) id (replicate (length features) (@None Q)) = []) as ->.
  { induction (length features); [done|]. csimpl. done. }
  done.
Qed.

(** ** Deduplication *)

Section drop_duplicates.
Context `{EqDecision K} {A : Type} (subset : A → result K).

Lemma drop_duplicates_by_Ok seen df df' :
  drop_duplicates_by subset seen df = Ok df' →
  ∃ keys keys',
    map_rows subset df = Ok keys ∧ map_rows subset df' = Ok keys'
    ∧ NoDup keys' ∧ (∀ k, k ∈ keys' ↔ k ∈ keys ∧ k ∉ seen)
    ∧ df' `sublist_of` df
    ∧ ∀ k, k ∉ seen →
        head (filter (λ r, subset r = Ok k) df') = head (filter (λ r, subset r = Ok k) df).
Proof.
  revert seen df'. induction df as [|r df IH]; intros seen df'; simpl.
  { intros [= <-]. exists [], []. simpl.
    split; [done|]. split; [done|]. split; [constructor|].
    split; [intros k; rewrite elem_of_nil; tauto|]. done. }
  rewrite bind_Ok. intros (key & Hkey & H). rewrite Hkey. simpl.
  case_bool_decide as Hseen.
  - destruct (IH _ _ H) as (keys & keys' & -> & Hkeys' & Hnd & Hin & Hsub & Hhead).
    exists (key :: keys), keys'. simpl.
    split; [done|]. split; [done|]. split; [done|]. split; [|split].
    + intros k. rewrite Hin, elem_of_cons. split; [tauto|].
      intros [[->|?] ?]; [done | tauto].
    + by apply sublist_cons.
    + intros k Hk. rewrite Hhead by done.
      rewrite filter_cons_False; [done|]. intros Heq. rewrite Hkey in Heq.
      injection Heq as ->. done.
  - apply bind_Ok in H as (rest & H & [= <-]).
    destruct (IH _ _ H) as (keys & keys' & -> & Hkeys' & Hnd & Hin & Hsub & Hhead).
    exists (key :: keys), (key :: keys'). simpl. rewrite Hkey, Hkeys'. simpl.
    split; [done|]. split; [done|]. split; [|split; [|split]].
    + apply NoDup_cons. split; [|done]. rewrite Hin, elem_of_cons. tauto.
    + intros k. rewrite !elem_of_cons, Hin, elem_of_cons.
      destruct (decide (k = key)) as [->|]; tauto.
    + by apply sublist_skip.
    + intros k Hk. destruct (decide (k = key)) as [->|Hne].
      * by rewrite !filter_cons_True.
      * rewrite !filter_cons_False by congruence.
        apply Hhead. rewrite elem_of_cons. tauto.
Qed.

Lemma drop_duplicates_by_distinct seen df keys :
  map_rows subset df = Ok keys → NoDup keys → (∀ k, k ∈ keys → k ∉ seen) →
  drop_duplicates_by subset seen df = Ok df.
Proof.
  revert seen keys. induction df as [|r df IH]; intros seen keys; simpl; [done|].
  rewrite bind_Ok. intros (key & Hkey & H).
  apply bind_Ok in H as (keys' & Hkeys' & [= <-]).
  intros [Hnotin Hnd]%NoDup_cons Hseen. rewrite Hkey. simpl.
  rewrite bool_decide_false by (apply Hseen; by left).
  rewrite (IH (key :: seen) keys'); [done..|].
  intros k Hk. rewrite elem_of_cons. intros [->|?]; [done|].
  by apply (Hseen k); [right|].
Qed.

Lemma drop_duplicates_by_total seen df keys :
  map_rows subset df = Ok keys → ∃ df', drop_duplicates_by subset seen df = Ok df'.
Proof.
  revert seen keys. induction df as [|r df IH]; intros seen keys; simpl; [eauto|].
  rewrite bind_Ok. intros (key & Hkey & H).
  apply bind_Ok in H as (keys' & Hkeys' & _). rewrite Hkey. simpl.
  case_bool_decide; [by eapply IH|].
  destruct (IH (key :: seen) _ Hkeys') as [rest ->]. simpl. eauto.
Qed.

End drop_duplicates.

Lemma drop_duplicates_from_by seen df :
  drop_duplicates_from seen df = drop_duplicates_by shift_id_of seen df.
Proof.
  revert seen. induction df as [|r df IH]; intros seen; simpl; [done|].
  destruct (shift_id_of r); simpl; [|done]. by rewrite !IH.
Qed.

Lemma head_filter_shift_id (df : DataFrame) shift_id :
  head (filter (λ r, shift_id_of r = Ok shift_id) df)
  = head (filter (λ r, row_shift_id r = Some shift_id) df).
Proof. f_equal. apply list_filter_iff. intros r. apply shift_id_of_Ok. Qed.

Lemma drop_duplicates_Ok (df df' : DataFrame) :
  drop_duplicates df = Ok df' →
  (∃ shift_ids, map_rows shift_id_of df' = Ok shift_ids ∧ NoDup shift_ids)
  ∧ df' `sublist_of` df
  ∧ ∀ shift_id,
      head (filter (λ r, row_shift_id r = Some shift_id) df')
      = head (filter (λ r, row_shift_id r = Some shift_id) df).
Proof.
  unfold drop_duplicates. rewrite drop_duplicates_from_by.
  intros (keys & keys' & _ & Hkeys' & Hnd & _ & Hsub & Hhead)%drop_duplicates_by_Ok.
  split; [eauto|]. split; [done|].
  intros shift_id. rewrite <-!head_filter_shift_id. apply Hhead, not_elem_of_nil.
Qed.

(** X6: the deduplication of the unfilled shifts returns rows with pairwise
    distinct (ScheduleDetailID, DayNum) keys, taken from the input in their
    order; for every key the row it keeps is the first row of the input with
    that key; and it returns whenever every row has the two key columns. *)
Theorem drop_duplicates_keeps_first (df : DataFrame) :
  (∀ df', drop_duplicates df = Ok df' →
     (∃ shift_ids, map_rows shift_id_of df' = Ok shift_ids ∧ NoDup shift_ids)
     ∧ df' `sublist_of` df
     ∧ ∀ shift_id,
         head (filter (λ r, row_shift_id r = Some shift_id) df')
         = head (filter (λ r, row_shift_id r = Some shift_id) df))
  ∧ (Forall (λ r, is_Some (row_shift_id r)) df → ∃ df', drop_duplicates df = Ok df').
Proof.
  split; [apply drop_duplicates_Ok|]. intros Hkeys.
  destruct (map_rows_total shift_id_of (λ _, True) df) as (keys & Hids & _).
  { eapply Forall_impl; [exact Hkeys|]. intros r [k Hk%shift_id_of_Ok]. eauto. }
  unfold drop_duplicates. rewrite drop_duplicates_from_by.
  by eapply drop_duplicates_by_total.
Qed.

(** X7: the deduplication returns a frame whose keys are pairwise distinct as
    it is; so a second deduplication changes nothing. *)
Theorem drop_duplicates_distinct (df : DataFrame) :
  (∀ shift_ids, map_rows shift_id_of df = Ok shift_ids → NoDup shift_ids →
                drop_duplicates df = Ok df)
  ∧ (∀ df', drop_duplicates df = Ok df' → drop_duplicates df' = Ok df').
Proof.
  unfold drop_duplicates. split.
  - intros shift_ids Hids Hnd. rewrite drop_duplicates_from_by.
    eapply drop_duplicates_by_distinct; [done..|]. intros k _. apply not_elem_of_nil.
  - intros df'. rewrite !drop_duplicates_from_by.
    intros (keys & keys' & _ & Hkeys' & Hnd & _)%drop_duplicates_by_Ok.
    eapply drop_duplicates_by_distinct; [done..|]. intros k _. apply not_elem_of_nil.
Qed.

(** ** The program always has a point *)

Lemma lp_eval_unassigned e : (lp_eval unassigned e == constant e)%Q.
Proof.
  unfold lp_eval. assert (Qsum ((λ t, t.1 * value unassigned t.2) <$> terms e) == 0)%Q as ->.
  { induction (terms e) as [|t ts IH]; csimpl; [reflexivity|].
    fold (Qsum ((λ t, t.1 * value unassigned t.2)%Q <$> ts)). rewrite IH.
    unfold value, unassigned; simpl. ring. }
  ring.
Qed.

Lemma holds_unassigned c :
  holds unassigned c = true
  ↔ match c with
    | LpLe lhs rhs => (constant lhs <= constant rhs)%Q
    | LpGe lhs rhs => (constant rhs <= constant lhs)%Q
    end.
Proof. destruct c; simpl; by rewrite Qle_bool_iff, !lp_eval_unassigned. Qed.

Lemma exclusion_None st emp :
  exclusion st emp = None →
  (current_hours_of st emp 0 < 40)%Q ∧ (current_days_of st emp 0 < 5)%nat
  ∧ has_daily_violation st emp = false.
Proof.
  unfold exclusion. destruct (Qle_bool 40 _) eqn:Hh; [done|].
  case_bool_decide as Hd; [done|].
  destruct (has_daily_violation st emp); [done|]. intros _.
  split; [|split; [lia | done]].
  apply Qnot_le_lt. rewrite <-Qle_bool_iff. congruence.
Qed.

(** X8: the program that [solve_assignment] builds always has a point: with
    every variable at 0 (no shift assigned) the variables are binary and
    every constraint holds, so the program is never infeasible. *)
Theorem problem_feasible_unassigned
    (unfilled_shifts : DataFrame) (employee_profiles : ProfileFrame)
    (filled_shifts : DataFrame) (p : Prepared) :
  prepare unfilled_shifts employee_profiles filled_shifts = Ok p →
  feasible (problem_of p) unassigned = true.
Proof.
  intros Hp. pose proof (prepare_Ok _ _ _ _ Hp) as (_ & _ & Hweek & Hst & _).
  destruct (accumulate_Ok _ _ Hst) as ((_ & _ & Hk) & _).
  unfold feasible. apply andb_true_iff. split; [by apply forallb_forall|].
  apply forallb_forall. intros c Hc%list_elem_of_In. apply holds_unassigned.
  unfold problem_of, build_problem in Hc. simpl in Hc. rewrite Hweek in Hc.
  rewrite !elem_of_app in Hc. destruct Hc as [Hc|[Hc|[Hc|Hc]]].
  - apply list_elem_of_fmap in Hc as (shift_id & -> & _). simpl. discriminate.
  - apply list_elem_of_bind in Hc as (emp & Hc & [_ Hex]%elem_of_valid_employees).
    apply exclusion_None in Hex as (Hh & _). csimpl in Hc.
    rewrite ?app_nil_r in Hc. apply list_elem_of_singleton in Hc as ->. simpl. lra.
  - apply list_elem_of_bind in Hc as (emp & Hc & [_ Hex]%elem_of_valid_employees).
    apply exclusion_None in Hex as (_ & Hd & _). csimpl in Hc.
    rewrite ?app_nil_r in Hc. apply elem_of_app in Hc as [Hc|Hc].
    + apply list_elem_of_bind in Hc as (day & Hc & _). unfold day_links in Hc.
      destruct (shifts_on_day_of _ _ _) as [|s ss]; [by apply elem_of_nil in Hc|].
      apply elem_of_app in Hc as [Hc|Hc].
      * apply list_elem_of_fmap in Hc as (shift_id & -> & _). simpl. apply Qle_refl.
      * apply list_elem_of_singleton in Hc as ->. simpl. apply Qle_refl.
    + destruct (_ <$> elements _) as [|v vs]; [by apply elem_of_nil in Hc|].
      apply list_elem_of_singleton in Hc as ->. simpl.
      rewrite Qplus_0_r. change 5%Q with (inject_Z 5). rewrite <-Zle_Qle. lia.
  - apply list_elem_of_bind in Hc as (emp & Hc & [_ Hex]%elem_of_valid_employees).
    apply list_elem_of_bind in Hc as (day & Hc & _).
    apply list_elem_of_singleton in Hc as ->. simpl.
    pose proof (valid_employee_daily _ _ day Hk Hex).
    rewrite Qplus_0_r. change 1%Q with (inject_Z 1). rewrite <-Zle_Qle. lia.
Qed.

(** ** The employee who receives a shift *)

Lemma first_chosen_app varValue shift_id keys1 keys2 :
  first_chosen varValue shift_id (keys1 ++ keys2)
  = match first_chosen varValue shift_id keys1 with
    | Some emp => Some emp
    | None => first_chosen varValue shift_id keys2
    end.
Proof.
  induction keys1 as [|key keys1 IH]; simpl; [done|].
  by destruct (bool_decide (key.2 = shift_id) && chosen varValue key).
Qed.

Lemma first_chosen_employee varValue shift_id emp (shift_ids : list (Z * Z)) :
  first_chosen varValue shift_id (s ← shift_ids; [(emp, s)])
  = if bool_decide (shift_id ∈ shift_ids) && chosen varValue (emp, shift_id)
    then Some emp else None.
Proof.
  induction shift_ids as [|s shift_ids IH]; csimpl; [done|].
  rewrite IH. destruct (decide (s = shift_id)) as [->|Hne].
  - rewrite (bool_decide_true (shift_id = shift_id)) by done.
    rewrite (bool_decide_true (shift_id ∈ shift_id :: shift_ids)) by (by left).
    simpl. destruct (chosen varValue (emp, shift_id)); [done|].
    by rewrite andb_false_r.
  - rewrite (bool_decide_false (s = shift_id)) by done. simpl.
    apply (f_equal (λ b : bool, if b && _ then _ else _)).
    apply bool_decide_ext. rewrite elem_of_cons. naive_solver.
Qed.

Lemma first_chosen_x_keys varValue shift_id valid_employees shift_ids :
  first_chosen varValue shift_id (x_keys valid_employees shift_ids)
  = if bool_decide (shift_id ∈ shift_ids)
    then head (filter (λ emp, chosen varValue (emp, shift_id) = true) valid_employees)
    else None.
Proof.
  unfold x_keys. induction valid_employees as [|emp valid IH]; csimpl.
  { by case_bool_decide. }
  rewrite first_chosen_app, first_chosen_employee, IH.
  case_bool_decide; simpl; [|done].
  rewrite filter_cons. case_decide as Hc.
  - by rewrite Hc.
  - apply not_true_is_false in Hc. by rewrite Hc.
Qed.

Lemma StronglySorted_filter {A} (R : relation A) (P : A → Prop)
    `{!∀ x, Decision (P x)} (l : list A) :
  StronglySorted R l → StronglySorted R (filter P l).
Proof.
  induction 1 as [|x l Hl IH Hx]; [constructor|].
  rewrite filter_cons. case_decide; [|done].
  constructor; [done|]. apply Forall_forall. intros y [_ Hy]%list_elem_of_filter.
  rewrite Forall_forall in Hx. auto.
Qed.

Lemma head_StronglySorted {A} (R : relation A) `{!Reflexive R} (l : list A) x :
  StronglySorted R l → head l = Some x → ∀ y, y ∈ l → R x y.
Proof.
  intros Hl Hx. destruct Hl as [|z l _ Hz]; [done|]. injection Hx as ->.
  intros y [->|Hy]%elem_of_cons; [done|]. rewrite Forall_forall in Hz. auto.
Qed.

Lemma valid_employees_sorted unfilled_shifts employee_profiles filled_shifts p :
  prepare unfilled_shifts employee_profiles filled_shifts = Ok p →
  StronglySorted Z.le (valid_employees_of (state p) (employees p)).
Proof.
  intros (-> & _)%prepare_Ok. apply StronglySorted_filter.
  apply StronglySorted_merge_sort; apply _.
Qed.

(** X9: the mapping gives a shift to the employee with the smallest number
    among those of the pool whose variable for the shift is above 0.5, and it
    holds every shift of the problem for which there is such an employee. *)
Theorem extract_solution_least_employee
    (unfilled_shifts : DataFrame) (employee_profiles : ProfileFrame)
    (filled_shifts : DataFrame) (p : Prepared)
    (varValue : LpVariable → option Q) (shift_id : Z * Z) :
  prepare unfilled_shifts employee_profiles filled_shifts = Ok p →
  let valid_employees := valid_employees_of (state p) (employees p) in
  let assignments := (extract_solution varValue valid_employees (shift_ids p)).1 in
  (∀ emp, dict_get shift_id assignments = Some emp →
     emp ∈ valid_employees ∧ chosen varValue (emp, shift_id) = true
     ∧ ∀ emp', emp' ∈ valid_employees → chosen varValue (emp', shift_id) = true →
               (emp ≤ emp')%Z)
  ∧ (∀ emp', emp' ∈ valid_employees → shift_id ∈ shift_ids p →
             chosen varValue (emp', shift_id) = true →
             is_Some (dict_get shift_id assignments)).
Proof.
  intros Hp valid_employees assignments.
  pose proof (valid_employees_sorted _ _ _ _ Hp) as Hsorted.
  fold valid_employees in Hsorted.
  unfold assignments. rewrite extract_solution_lookup, first_chosen_x_keys.
  split.
  - intros emp Hget. case_bool_decide; [|done].
    assert (emp ∈ filter (λ emp, chosen varValue (emp, shift_id) = true) valid_employees)
      as [Hc Hin]%list_elem_of_filter.
    { destruct (filter _ _); simplify_eq/=. by left. }
    split; [done|]. split; [done|]. intros emp' Hin' Hc'.
    apply (head_StronglySorted Z.le
             (filter (λ emp, chosen varValue (emp, shift_id) = true) valid_employees));
      [by apply StronglySorted_filter | done | by apply list_elem_of_filter].
  - intros emp' Hin Hsid Hc. rewrite bool_decide_true by done.
    destruct (filter _ _) as [|e l] eqn:Hfilter; [|by eexists].
    assert (emp' ∈ filter (λ emp, chosen varValue (emp, shift_id) = true) valid_employees)
      as Hin' by (by apply list_elem_of_filter).
    rewrite Hfilter in Hin'. by apply elem_of_nil in Hin'.
Qed.

(** ** The compatibility matrix *)

Lemma compatibility_rows_Ok employee_profiles shift rows :
  compatibility_rows employee_profiles shift = Ok rows →
  ∃ shift_day shift_time_cat shift_duration_cat shift_job shift_type schedule_detail_id,
    row_shift_id shift = Some (schedule_detail_id, shift_day)
    ∧ rows = (λ emp_profile,
                {| c_EmployeeNumber := profile_EmployeeNumber emp_profile;
                   c_ScheduleDetailID := schedule_detail_id;
                   c_DayNum := shift_day;
                   CompatibilityScore :=
                     get_compatibility_score (prob_columns emp_profile) shift_day
                       shift_time_cat shift_duration_cat shift_job shift_type;
                   c_ShiftDurationHours := default 0%Q (ShiftDurationHours shift) |})
             <$> employee_profiles.
Proof.
  unfold compatibility_rows, row_shift_id.
  destruct (DayNum shift) as [d|]; [|done].
  destruct (ShiftTimeCategory shift) as [t|]; [|done].
  destruct (ShiftDurationCategory shift) as [du|]; [|done].
  destruct (JobNumber shift) as [j|]; [|done].
  destruct (ShiftType shift) as [ty|]; [|done].
  destruct (ScheduleDetailID shift) as [sid|]; [|done].
  destruct (ShiftDurationHours shift) as [dur|]; [|done]. simpl.
  intros [= <-]. by exists d, t, du, j, ty, sid.
Qed.

Lemma elem_of_concat {A} (x : A) (ls : list (list A)) :
  x ∈ concat ls ↔ ∃ l, x ∈ l ∧ l ∈ ls.
Proof.
  induction ls as [|l ls IH]; simpl.
  - rewrite elem_of_nil. split; [done|]. by intros (l & _ & ?%elem_of_nil).
  - rewrite elem_of_app, IH. split.
    + intros [?|(l' & ? & ?)]; [exists l; split; [done | by left]|].
      exists l'. split; [done | by right].
    + intros (l' & ? & [->|?]%elem_of_cons); [by left | right; eauto].
Qed.

(** The rows of the matrix: the pairs of a shift and a profile that they
    score. *)
Lemma compute_compatibility_matrix_Ok unfilled_shifts employee_profiles rows :
  compute_compatibility_matrix unfilled_shifts employee_profiles = Ok rows →
  length rows = (length unfilled_shifts * length (iterrows employee_profiles))%nat
  ∧ (∀ row, row ∈ rows →
       ∃ prof r shift_time_cat shift_duration_cat shift_job shift_type,
         prof ∈ iterrows employee_profiles ∧ r ∈ unfilled_shifts
         ∧ c_EmployeeNumber row = profile_EmployeeNumber prof
         ∧ row_shift_id r = Some (c_ScheduleDetailID row, c_DayNum row)
         ∧ CompatibilityScore row
           = get_compatibility_score (prob_columns prof) (c_DayNum row)
               shift_time_cat shift_duration_cat shift_job shift_type)
  ∧ (∀ prof r, prof ∈ iterrows employee_profiles → r ∈ unfilled_shifts →
       ∃ row, row ∈ rows ∧ c_EmployeeNumber row = profile_EmployeeNumber prof
              ∧ row_shift_id r = Some (c_ScheduleDetailID row, c_DayNum row)).
Proof.
  unfold compute_compatibility_matrix, extract_shift_features.
  rewrite bind_Ok. intros (features & Hfeatures%map_rows_Ok_Forall2 & H).
  apply bind_Ok in H as (rowss & Hrows%map_rows_Ok_Forall2 & [= <-]).
  set (profiles := iterrows employee_profiles) in *.
  assert (∀ r r', extract_shift_features_row r = Ok r' → row_shift_id r = row_shift_id r')
    as Hkey.
  { intros r r' (Hs & Hd & _)%extract_shift_features_row_raw.
    unfold row_shift_id. by rewrite Hs, Hd. }
  split; [|split].
  - rewrite (Forall2_length _ _ _ Hfeatures). clear Hfeatures.
    induction Hrows as [|r rows df dfs Hr _ IH]; [done|].
    simpl. rewrite length_app, IH.
    apply compatibility_rows_Ok in Hr as (? & ? & ? & ? & ? & ? & _ & ->).
    by rewrite length_fmap.
  - intros row (rows & Hrow & Hin)%elem_of_concat.
    destruct (Forall2_elem_of_r _ _ _ _ Hrows Hin) as (r' & Hr' & Hc).
    destruct (Forall2_elem_of_r _ _ _ _ Hfeatures Hr') as (r & Hr & He).
    apply compatibility_rows_Ok in Hc as (d & t & du & j & ty & sid & Hid & ->).
    apply list_elem_of_fmap in Hrow as (prof & -> & Hprof). simpl.
    exists prof, r, t, du, j, ty. rewrite (Hkey _ _ He). done.
  - intros prof r Hprof Hr.
    destruct (Forall2_elem_of_l _ _ _ _ Hfeatures Hr) as (r' & Hr' & He).
    destruct (Forall2_elem_of_l _ _ _ _ Hrows Hr') as (rows & Hin & Hc).
    apply compatibility_rows_Ok in Hc as (d & t & du & j & ty & sid & Hid & ->).
    eexists. split.
    + apply elem_of_concat. eexists. split; [|exact Hin].
      apply list_elem_of_fmap. exists prof. split; [reflexivity | done].
    + simpl. rewrite (Hkey _ _ He). done.
Qed.

(** X10: the compatibility matrix has one row for each pair of an unfilled
    shift and a profile, so as many rows as shifts times profiles; and with
    profiles whose probabilities lie in [[0,1]], every score of the matrix
    lies in [[0,1]]. *)
Theorem compute_compatibility_matrix_rows
    (unfilled_shifts : DataFrame) (employee_profiles : ProfileFrame)
    (rows : list CompatibilityRow) :
  compute_compatibility_matrix unfilled_shifts employee_profiles = Ok rows →
  length rows = (length unfilled_shifts * length (iterrows employee_profiles))%nat
  ∧ (∀ prof r, prof ∈ iterrows employee_profiles → r ∈ unfilled_shifts →
       ∃ row, row ∈ rows ∧ c_EmployeeNumber row = profile_EmployeeNumber prof
              ∧ row_shift_id r = Some (c_ScheduleDetailID row, c_DayNum row))
  ∧ ((∀ prof, prof ∈ iterrows employee_profiles →
              well_formed_profile (prob_columns prof)) →
     Forall (λ row, 0 <= CompatibilityScore row ∧ CompatibilityScore row <= 1)%Q rows).
Proof.
  intros (Hlen & Hrows & Hpairs)%compute_compatibility_matrix_Ok.
  split; [done|]. split; [done|]. intros Hwf. apply Forall_forall.
  intros row (prof & r & t & du & j & ty & Hprof & _ & _ & _ & ->)%Hrows.
  by apply get_compatibility_score_bounds, Hwf.
Qed.

(** ** The coefficients of the objective *)

Lemma foldl_insert_lookup `{Countable K} {A V} (key : A → K) (val : A → V)
    (l : list A) (d0 : gmap K V) k :
  foldl (λ d a, <[key a := val a]> d) d0 l !! k
  = match last (filter (λ a, key a = k) l) with
    | Some a => Some (val a)
    | None => d0 !! k
    end.
Proof.
  revert d0. induction l as [|a l IH]; intros d0; simpl; [done|].
  rewrite IH, filter_cons. case_decide as Heq.
  - rewrite last_cons. destruct (last _); [done|].
    subst k. by rewrite lookup_insert_eq.
  - destruct (last _); [done|]. by rewrite lookup_insert_ne.
Qed.

Lemma prepare_compatibility unfilled_shifts employee_profiles filled_shifts p :
  prepare unfilled_shifts employee_profiles filled_shifts = Ok p →
  ∃ compatibility_df,
    compute_compatibility_matrix unfilled_shifts employee_profiles = Ok compatibility_df
    ∧ compatibility p
      = foldl (λ (d : gmap (Z * (Z * Z)) Q) row,
                 <[(c_EmployeeNumber row, (c_ScheduleDetailID row, c_DayNum row))
                   := CompatibilityScore row]> d) ∅ compatibility_df.
Proof.
  unfold prepare. rewrite bind_Ok. intros (cdf & Hcdf & H). exists cdf.
  split; [done|].
  repeat (apply bind_Ok in H as (? & _ & H)). by injection H as <-.
Qed.

(** X11: the objective has a coefficient for every profiled employee and
    every unfilled shift: the dictionary of the scores holds their pair, so
    the default 0.0 of the objective is never used; the coefficient is a
    score of a profile of that employee, and it lies in [[0,1]] when the
    probabilities of the profiles do. *)
Theorem objective_coefficients
    (unfilled_shifts : DataFrame) (employee_profiles : ProfileFrame)
    (filled_shifts : DataFrame) (p : Prepared) (emp : Z) (shift_id : Z * Z) :
  prepare unfilled_shifts employee_profiles filled_shifts = Ok p →
  emp ∈ employees p → shift_id ∈ shift_ids p →
  ∃ prof shift_time_cat shift_duration_cat shift_job shift_type,
    prof ∈ iterrows employee_profiles ∧ profile_EmployeeNumber prof = emp
    ∧ compatibility p !! (emp, shift_id)
      = Some (get_compatibility_score (prob_columns prof) shift_id.2
                shift_time_cat shift_duration_cat shift_job shift_type)
    ∧ (well_formed_profile (prob_columns prof) →
       ∀ q, compatibility p !! (emp, shift_id) = Some q → (0 <= q ∧ q <= 1)%Q).
Proof.
  intros Hp Hemp Hsid.
  apply (elem_of_employees _ _ _ _ _ Hp) in Hemp as (prof0 & Hprof0 & Hnum).
  pose proof (prepare_Ok _ _ _ _ Hp) as (_ & Hsids%map_rows_Ok_Forall2 & _).
  destruct (Forall2_elem_of_r _ _ _ _ Hsids Hsid) as (r & Hr & Hid%shift_id_of_Ok).
  destruct (prepare_compatibility _ _ _ _ Hp) as (cdf & Hcdf & ->).
  apply compute_compatibility_matrix_Ok in Hcdf as (_ & Hrows & Hpairs).
  destruct (Hpairs _ _ Hprof0 Hr) as (row0 & Hrow0 & Hemp0 & Hkey0).
  rewrite foldl_insert_lookup.
  destruct (last _) as [row|] eqn:Hlast.
  - apply last_Some in Hlast as [l' Hlast].
    assert (row ∈ filter (λ a, (c_EmployeeNumber a, (c_ScheduleDetailID a, c_DayNum a))
                               = (emp, shift_id)) cdf) as Hin.
    { rewrite Hlast. apply elem_of_app. right. by left. }
    apply list_elem_of_filter in Hin as [Heq Hin]. injection Heq as Heq1 Heq2.
    destruct (Hrows _ Hin) as (prof & r' & t & du & j & ty & Hprof & _ & Hnum' & _ & Hscore).
    exists prof, t, du, j, ty. split; [done|]. split; [congruence|].
    assert (c_DayNum row = shift_id.2) as <- by (by rewrite <-Heq2).
    split; [by rewrite Hscore|].
    intros Hwf q [= <-]. rewrite Hscore. by apply get_compatibility_score_bounds.
  - apply last_None in Hlast.
    assert (row0 ∈ filter (λ a, (c_EmployeeNumber a, (c_ScheduleDetailID a, c_DayNum a))
                                = (emp, shift_id)) cdf) as Hin.
    { apply list_elem_of_filter. split; [|done]. rewrite Hid in Hkey0.
      injection Hkey0 as ->. by rewrite Hemp0, Hnum. }
    rewrite Hlast in Hin. by apply elem_of_nil in Hin.
Qed.

(** ** Profiles without columns *)

Lemma solve_assignment_EmptyDataFrame solver unfilled_shifts filled_shifts :
  ∃ column,
    solve_assignment solver unfilled_shifts EmptyDataFrame filled_shifts = KeyError column.
Proof.
  unfold solve_assignment, prepare.
  destruct (compute_compatibility_matrix unfilled_shifts EmptyDataFrame); simpl; eauto.
Qed.

Lemma select_isna_elem_of df df' r :
  select_isna df = Ok df' →
  r ∈ df' ↔ r ∈ df ∧ EmployeeNumber r = Some None.
Proof.
  revert df'. induction df as [|r0 df IH]; intros df'; simpl.
  { intros [= <-]. rewrite elem_of_nil. tauto. }
  rewrite bind_Ok. intros (e & He%col_Ok & H).
  apply bind_Ok in H as (rest & Hrest & [= <-]).
  specialize (IH _ Hrest). destruct e as [emp|].
  - rewrite elem_of_cons, IH. split; [tauto|].
    intros [[->|?] ?]; [congruence | done].
  - rewrite !elem_of_cons, IH. split; [intros [->|[? ?]]; eauto | tauto].
Qed.

(** X12: a history without any filled shift gives the frame without columns
    as profiles, and with it [fill_unfilled_shifts] raises [KeyError] on
    every snapshot that has an unfilled shift. *)
Theorem fill_unfilled_shifts_without_history (solver : Solver)
    (historical_data latest_snapshot : DataFrame) :
  Forall (λ r, EmployeeNumber r = Some None) historical_data →
  (∃ r, r ∈ latest_snapshot ∧ EmployeeNumber r = Some None) →
  compute_compatibility historical_data = Ok EmptyDataFrame
  ∧ ∃ column,
      fill_unfilled_shifts solver latest_snapshot EmptyDataFrame = KeyError column.
Proof.
  intros Hhistory (r & Hr & Hemp). split.
  - unfold compute_compatibility.
    assert (select_notna historical_data = Ok []) as ->; [|done].
    induction Hhistory as [|r0 df Hr0 _ IH]; simpl; [done|]. by rewrite Hr0, IH.
  - unfold fill_unfilled_shifts.
    destruct (select_notna latest_snapshot) as [filled|c]; simpl; [|eauto].
    destruct (select_isna latest_snapshot) as [unfilled|c] eqn:Hunfilled; simpl; [|eauto].
    assert (r ∈ unfilled) as Hin by (by apply (select_isna_elem_of _ _ _ Hunfilled)).
    rewrite bool_decide_false.
    2:{ intros ->%length_zero_iff_nil. by apply elem_of_nil in Hin. }
    destruct (drop_duplicates unfilled) as [deduped|c]; simpl; [|eauto].
    destruct (solve_assignment_EmptyDataFrame solver deduped filled) as [c ->].
    simpl. eauto.
Qed.

(** ** Applying one assignment *)

Lemma assignment_mask_Ok shift_id r b :
  assignment_mask shift_id r = Ok b →
  is_Some (row_shift_id r) ∧ is_Some (IsUnfilled r) ∧ (b = true ↔ target shift_id r).
Proof.
  unfold assignment_mask, target, row_shift_id.
  destruct (ScheduleDetailID r) as [sid|]; [|done].
  destruct (DayNum r) as [day|]; [|done].
  destruct (IsUnfilled r) as [u|]; [|done]. simpl. intros [= <-].
  split; [eauto|]. split; [eauto|]. destruct shift_id as [s d]; simpl.
  rewrite !andb_true_iff, !bool_decide_eq_true. split.
  - by intros [[-> ->] ->].
  - by intros [[= -> ->] [= ->]].
Qed.

Lemma first_true_alter {A} (f : A → A) (P : A → Prop) (l : list A) (mask : list bool) :
  Forall2 (λ a b, b = true ↔ P a) l mask →
  match first_true mask with
  | Some i => ∃ l1 a l2, l = l1 ++ a :: l2 ∧ Forall (λ a, ¬ P a) l1 ∧ P a
                         ∧ alter f i l = l1 ++ f a :: l2
  | None => Forall (λ a, ¬ P a) l
  end.
Proof.
  induction 1 as [|a b l mask Hab _ IH]; simpl; [constructor|].
  destruct b.
  - exists [], a, l. split; [done|]. split; [constructor|]. split; [by apply Hab | done].
  - assert (¬ P a) as Hna by (intros ?%Hab; done).
    destruct (first_true mask) as [i|]; simpl.
    + destruct IH as (l1 & a' & l2 & -> & Hl1 & Ha' & Halter).
      exists (a :: l1), a', l2. split; [done|]. split; [by constructor|].
      split; [done|]. simpl. f_equal. exact Halter.
    + by constructor.
Qed.

Lemma apply_assignment_Ok df shift_id emp df' :
  apply_assignment df (shift_id, emp) = Ok df' →
  (∃ df1 r df2, df = df1 ++ r :: df2 ∧ Forall (λ r, ¬ target shift_id r) df1
                ∧ target shift_id r ∧ df' = df1 ++ set_assigned emp r :: df2)
  ∨ (Forall (λ r, ¬ target shift_id r) df ∧ df' = df).
Proof.
  unfold apply_assignment. rewrite bind_Ok.
  intros (mask & Hmask%map_rows_Ok_Forall2 & H).
  assert (Forall2 (λ r b, b = true ↔ target shift_id r) df mask) as Htarget.
  { eapply Forall2_impl; [exact Hmask|]. intros r b Hb.
    by apply assignment_mask_Ok in Hb as (_ & _ & ?). }
  pose proof (first_true_alter (set_assigned emp) _ _ _ Htarget) as Hfirst.
  destruct (first_true mask) as [i|]; injection H as <-.
  - left. destruct Hfirst as (l1 & r & l2 & ? & ? & ? & ?). by exists l1, r, l2.
  - by right.
Qed.

Lemma apply_assignment_total df shift_id emp :
  Forall (λ r, is_Some (row_shift_id r) ∧ is_Some (IsUnfilled r)) df →
  ∃ df', apply_assignment df (shift_id, emp) = Ok df'.
Proof.
  intros Hdf. unfold apply_assignment.
  destruct (map_rows_total (assignment_mask shift_id) (λ _, True) df) as (mask & -> & _).
  { eapply Forall_impl; [exact Hdf|]. intros r [[k Hk] [u Hu]].
    unfold assignment_mask, row_shift_id in *.
    destruct (ScheduleDetailID r), (DayNum r); simplify_eq/=. rewrite Hu. simpl. eauto. }
  simpl. destruct (first_true mask); eauto.
Qed.

(** ** The aggregates of a frame *)

(** The hours that a row adds to an employee's week. *)
Lemma committed_hours_Qsum emp (rows : DataFrame) :
  (committed_hours emp rows
   == Qsum ((λ r, if worked_by emp r then default 8 (ShiftDurationHours r) else 0)
            <$> rows))%Q.
Proof.
  unfold committed_hours.
  assert (∀ acc,
    foldl (λ acc r, if worked_by emp r
                    then (acc + default 8 (ShiftDurationHours r))%Q else acc) acc rows
    == acc + Qsum ((λ r, if worked_by emp r then default 8 (ShiftDurationHours r) else 0)
                   <$> rows))%Q as H.
  { induction rows as [|r rows IH]; intros acc; csimpl; [unfold Qsum; simpl; ring|].
    rewrite IH. fold (Qsum ((λ r, if worked_by emp r
                                  then default 8 (ShiftDurationHours r) else 0)%Q
                            <$> rows)).
    destruct (worked_by emp r); ring. }
  rewrite H. ring.
Qed.

Lemma worked_by_set_assigned e emp r : worked_by e (set_assigned emp r) = bool_decide (emp = e).
Proof. unfold worked_by; simpl. apply bool_decide_ext. split; congruence. Qed.

Lemma worked_by_unfilled e r : EmployeeNumber r = Some None → worked_by e r = false.
Proof. intros Hr. unfold worked_by. rewrite Hr. by apply bool_decide_false. Qed.

Lemma set_assigned_aggregates df1 r df2 emp day e :
  EmployeeNumber r = Some None → DayNum r = Some day →
  (committed_hours e (df1 ++ set_assigned emp r :: df2)
   == committed_hours e (df1 ++ r :: df2)
      + (if bool_decide (emp = e) then default 8 (ShiftDurationHours r) else 0))%Q
  ∧ days_worked e (df1 ++ set_assigned emp r :: df2)
    = days_worked e (df1 ++ r :: df2) ∪ (if bool_decide (emp = e) then {[day]} else ∅)
  ∧ ∀ d, shifts_on e d (df1 ++ set_assigned emp r :: df2)
         = (shifts_on e d (df1 ++ r :: df2)
            + (if bool_decide (emp = e ∧ day = d) then 1 else 0))%nat.
Proof.
  intros Hemp Hday.
  pose proof (worked_by_unfilled e r Hemp) as Hr.
  pose proof (worked_by_set_assigned e emp r) as Hr'.
  split; [|split].
  - rewrite !committed_hours_Qsum, !fmap_app, !Qsum_app. csimpl.
    rewrite Hr, Hr'. simpl.
    fold (Qsum ((λ r, if worked_by e r then default 8 (ShiftDurationHours r) else 0)%Q
                <$> df2)).
    case_bool_decide; ring.
  - unfold days_worked. rewrite !filter_app, !filter_cons, Hr, Hr'.
    rewrite (decide_False (P := false = true)) by done.
    case_bool_decide as Heq.
    + rewrite decide_True by done. rewrite !omap_app. csimpl. rewrite Hday. csimpl.
      rewrite !list_to_set_app_L, list_to_set_cons. set_solver.
    + rewrite decide_False by done. set_solver.
  - intros d. unfold shifts_on. rewrite !filter_app, !filter_cons, Hr, Hr'.
    rewrite (decide_False (P := false = true ∧ _)) by (by intros [? _]).
    rewrite !length_app. simpl (DayNum (set_assigned emp r)). rewrite Hday.
    destruct (decide (emp = e)) as [->|Hne].
    + rewrite (bool_decide_true (e = e)) by done.
      destruct (decide (day = d)) as [->|Hne'].
      * rewrite decide_True, bool_decide_true by done. simpl. lia.
      * rewrite decide_False, bool_decide_false by naive_solver. simpl. lia.
    + rewrite (bool_decide_false (emp = e)) by done.
      rewrite decide_False, bool_decide_false by naive_solver. simpl. lia.
Qed.

Lemma assigned_shifts_cons e shift_id emp (assignments : PyDict (Z * Z) Z) :
  assigned_shifts e ((shift_id, emp) :: assignments)
  = if bool_decide (emp = e) then shift_id :: assigned_shifts e assignments
    else assigned_shifts e assignments.
Proof.
  unfold assigned_shifts. rewrite filter_cons. simpl.
  case_bool_decide; [by rewrite decide_True | by rewrite decide_False].
Qed.

Lemma elem_of_assigned_shifts_keys e (assignments : PyDict (Z * Z) Z) shift_id :
  shift_id ∈ assigned_shifts e assignments → shift_id ∈ assignments.*1.
Proof.
  unfold assigned_shifts. intros (a & -> & [_ Hin]%list_elem_of_filter)%list_elem_of_fmap.
  by apply list_elem_of_fmap_2.
Qed.

(** ** Applying a mapping *)

Lemma filter_target_assigned shift_id shift_id' emp df1 r df2 :
  shift_id' ≠ shift_id → target shift_id r →
  filter (target shift_id') (df1 ++ set_assigned emp r :: df2)
  = filter (target shift_id') (df1 ++ r :: df2).
Proof.
  intros Hne [Hkey _]. rewrite !filter_app, !filter_cons.
  rewrite decide_False by (by intros [_ ?]).
  rewrite decide_False; [done|]. intros [Hkey' _]. congruence.
Qed.

Lemma target_unfilled shift_id r :
  flagged r → target shift_id r → EmployeeNumber r = Some None ∧ DayNum r = Some shift_id.2.
Proof.
  intros (e & He & Hu) [Hkey Hunfilled]. split.
  - rewrite Hu in Hunfilled. destruct e; [done | by rewrite He].
  - unfold row_shift_id in Hkey.
    destruct (ScheduleDetailID r), (DayNum r); simplify_eq/=. done.
Qed.

Lemma apply_assignments_aggregates (assignments : PyDict (Z * Z) Z) :
  ∀ df result,
    for_each apply_assignment df assignments = Ok result →
    NoDup assignments.*1 → Forall flagged df →
    (∀ shift_id, shift_id ∈ assignments.*1 →
                 is_Some (head (filter (target shift_id) df))) →
    Forall flagged result
    ∧ ∀ e,
        (committed_hours e result
         == committed_hours e df
            + Qsum (target_duration df <$> assigned_shifts e assignments))%Q
        ∧ days_worked e result = days_worked e df ∪ new_days e assignments
        ∧ ∀ d, shifts_on e d result
               = (shifts_on e d df + new_shifts_on e d assignments)%nat.
Proof.
  induction assignments as [|[shift_id emp] assignments IH]; intros df result; simpl.
  { intros [= <-] _ Hdf _. split; [done|]. intros e.
    unfold new_days, new_shifts_on, assigned_shifts, Qsum. simpl.
    split; [ring|]. split; [set_solver | intros; lia]. }
  rewrite bind_Ok. intros (df1 & Hstep & Hrest) [Hnotin Hnd]%NoDup_cons Hdf Htargets.
  apply apply_assignment_Ok in Hstep as [(l1 & r & l2 & -> & Hl1 & Hr & ->)|[Hnone ->]].
  2:{ destruct (Htargets shift_id) as [r Hr]; [by left|].
      rewrite filter_none in Hr by done. done. }
  apply Forall_app in Hdf as Hdf'. destruct Hdf' as [Hdf1 [Hfr Hdf2]%Forall_cons].
  destruct (target_unfilled _ _ Hfr Hr) as [Hemp Hday].
  assert (∀ sid, sid ∈ assignments.*1 →
            filter (target sid) (l1 ++ set_assigned emp r :: l2)
            = filter (target sid) (l1 ++ r :: l2)) as Hsame.
  { intros sid Hsid. apply (filter_target_assigned shift_id); [|done]. by intros ->. }
  destruct (IH _ _ Hrest Hnd) as [Hresult Hagg].
  { apply Forall_app. split; [done|]. apply Forall_cons. split; [|done].
    by exists (Some emp). }
  { intros sid Hsid. rewrite Hsame by done. apply Htargets. by right. }
  split; [done|]. intros e. destruct (Hagg e) as (Hh & Hd & Hs).
  destruct (set_assigned_aggregates l1 r l2 emp shift_id.2 e Hemp Hday) as (Hh1 & Hd1 & Hs1).
  assert (target_duration (l1 ++ r :: l2) shift_id = default 8%Q (ShiftDurationHours r))
    as Hduration.
  { unfold target_duration. rewrite filter_app, filter_none by done.
    by rewrite filter_cons_True. }
  assert (target_duration (l1 ++ set_assigned emp r :: l2) <$> assigned_shifts e assignments
          = target_duration (l1 ++ r :: l2) <$> assigned_shifts e assignments) as Hdurations.
  { apply Forall_fmap_ext, Forall_forall. intros sid Hsid%elem_of_assigned_shifts_keys.
    unfold target_duration. by rewrite Hsame. }
  rewrite assigned_shifts_cons.
  split; [|split].
  - rewrite Hh, Hh1, Hdurations. case_bool_decide; [|ring].
    csimpl. rewrite Hduration.
    fold (Qsum (target_duration (l1 ++ r :: l2) <$> assigned_shifts e assignments)). ring.
  - rewrite Hd, Hd1. unfold new_days. rewrite assigned_shifts_cons.
    case_bool_decide; [|set_solver]. csimpl. set_solver.
  - intros d. rewrite Hs, Hs1. unfold new_shifts_on. rewrite assigned_shifts_cons.
    destruct (decide (emp = e)) as [->|Hne].
    + rewrite (bool_decide_true (e = e)) by done. rewrite filter_cons.
      destruct (decide (shift_id.2 = d)) as [Heq|Hne'].
      * rewrite bool_decide_true by done. simpl. lia.
      * rewrite bool_decide_false by naive_solver. lia.
    + rewrite (bool_decide_false (emp = e)) by done.
      rewrite bool_decide_false by naive_solver. lia.
Qed.

Lemma apply_assignments_rows (assignments : PyDict (Z * Z) Z) :
  ∀ df result,
    for_each apply_assignment df assignments = Ok result →
    Forall2 (λ r r', r' = r
                     ∨ ∃ shift_id emp, (shift_id, emp) ∈ assignments
                                       ∧ target shift_id r ∧ r' = set_assigned emp r)
            df result.
Proof.
  induction assignments as [|[shift_id emp] assignments IH]; intros df result; simpl.
  { intros [= <-]. apply Forall_Forall2_diag, Forall_forall. auto. }
  rewrite bind_Ok. intros (df1 & Hstep & Hrest%IH).
  assert (Forall2 (λ r r', r' = r ∨ (target shift_id r ∧ r' = set_assigned emp r)) df df1)
    as Hfirst.
  { apply apply_assignment_Ok in Hstep as [(l1 & r & l2 & -> & _ & Hr & ->)|[_ ->]].
    - apply Forall2_app; [apply Forall_Forall2_diag, Forall_forall; by left|].
      constructor; [by right|]. apply Forall_Forall2_diag, Forall_forall. by left.
    - apply Forall_Forall2_diag, Forall_forall. by left. }
  eapply Forall2_trans; [|exact Hfirst|exact Hrest].
  simpl. intros r r1 r2 [->|[Hr ->]] [->|(sid' & e' & Hin' & Hr' & ->)].
  - by left.
  - right. exists sid', e'. split; [by right | done].
  - right. exists shift_id, emp. split; [by left | done].
  - by destruct Hr' as [_ ?].
Qed.

(** ** Filling a snapshot *)

(** The two ways in which [fill_unfilled_shifts] returns: at once on a
    snapshot without unfilled shift, or after the mapping of the solver is
    applied (an empty mapping leaves the snapshot as it is). *)
Lemma fill_unfilled_shifts_Ok solver latest_snapshot employee_profiles result log :
  fill_unfilled_shifts solver latest_snapshot employee_profiles = Ok (result, log) →
  ∃ filled_shifts unfilled_shifts,
    select_notna latest_snapshot = Ok filled_shifts
    ∧ select_isna latest_snapshot = Ok unfilled_shifts
    ∧ (unfilled_shifts = [] ∧ result = latest_snapshot
       ∨ ∃ deduped assignments log',
           drop_duplicates unfilled_shifts = Ok deduped
           ∧ solve_assignment solver deduped employee_profiles filled_shifts
             = Ok (assignments, log')
           ∧ for_each apply_assignment latest_snapshot assignments = Ok result).
Proof.
  unfold fill_unfilled_shifts. rewrite bind_Ok. intros (filled & Hfilled & H).
  apply bind_Ok in H as (unfilled & Hunfilled & H).
  exists filled, unfilled. split; [done|]. split; [done|].
  case_bool_decide as Hlen.
  { injection H as <- <-. left. by apply length_zero_iff_nil in Hlen. }
  apply bind_Ok in H as (deduped & Hdeduped & H).
  apply bind_Ok in H as ([assignments log'] & Hsolve & H).
  right. exists deduped, assignments, log'. split; [done|]. split; [done|].
  case_bool_decide as Hlen'.
  - injection H as <- <-. apply length_zero_iff_nil in Hlen'. by subst.
  - apply bind_Ok in H as (res & Hres & [= <- <-]). done.
Qed.

Lemma select_isna_target latest_snapshot unfilled_shifts shift_id :
  select_isna latest_snapshot = Ok unfilled_shifts → Forall flagged latest_snapshot →
  filter (target shift_id) latest_snapshot
  = filter (λ r, row_shift_id r = Some shift_id) unfilled_shifts.
Proof.
  intros Hsel Hflag. revert unfilled_shifts Hsel.
  induction Hflag as [|r df (e & He & Hu) _ IH]; intros unfilled; simpl.
  { by intros [= <-]. }
  rewrite He. simpl. rewrite bind_Ok. intros (rest & Hrest & [= <-]).
  rewrite filter_cons, (IH _ Hrest).
  destruct e as [emp|]; simpl in *.
  - rewrite decide_False; [done|]. intros [_ Ht]. congruence.
  - rewrite filter_cons. destruct (decide (row_shift_id r = Some shift_id)) as [Hk|Hk].
    + by rewrite decide_True.
    + rewrite decide_False; [done|]. by intros [? _].
Qed.

Lemma shift_duration_head (df : DataFrame) shift_id :
  shift_duration df shift_id
  = match head (filter (λ r, row_shift_id r = Some shift_id) df) with
    | Some r => default 0%Q (ShiftDurationHours r)
    | None => 0%Q
    end.
Proof.
  induction df as [|r df IH]; simpl; [done|]. rewrite filter_cons.
  case_bool_decide; [by rewrite decide_True | by rewrite decide_False].
Qed.

Lemma record_duration_columns rows d0 d :
  for_each record_duration d0 rows = Ok d →
  Forall (λ r, is_Some (ShiftDurationHours r)) rows.
Proof.
  revert d0. induction rows as [|r rows IH]; intros d0; simpl; [constructor|].
  rewrite bind_Ok. intros (d1 & Hstep & Hrest). constructor; [|by eapply IH].
  unfold record_duration in Hstep. apply bind_Ok in Hstep as (sid & _ & Hstep).
  apply bind_Ok in Hstep as (duration & Hdur%col_Ok & _). eauto.
Qed.

Lemma head_filter_is_Some {A} (P : A → Prop) `{!∀ x, Decision (P x)} (l : list A) x :
  x ∈ l → P x → ∃ y, head (filter P l) = Some y ∧ y ∈ l ∧ P y.
Proof.
  intros Hin HP. destruct (filter P l) as [|y l'] eqn:Hfilter.
  - assert (x ∈ filter P l) as Hx by (by apply list_elem_of_filter).
    rewrite Hfilter in Hx. by apply elem_of_nil in Hx.
  - assert (y ∈ filter P l) as [? ?]%list_elem_of_filter by (rewrite Hfilter; by left).
    exists y. done.
Qed.

Lemma select_notna_aggregates latest_snapshot filled_shifts st e :
  select_notna latest_snapshot = Ok filled_shifts → accumulate filled_shifts = Ok st →
  committed_hours e filled_shifts = committed_hours e latest_snapshot
  ∧ days_worked e filled_shifts = days_worked e latest_snapshot
  ∧ ∀ d, shifts_on e d filled_shifts = shifts_on e d latest_snapshot.
Proof.
  intros Hsel Hfilled.
  assert (accumulate latest_snapshot = Ok st) as Hsnapshot.
  { unfold accumulate in *. by rewrite <-(select_notna_accumulate _ _ _ Hsel). }
  destruct (accumulate_Ok _ _ Hfilled) as (_ & Hh & Hd & Hs & _).
  destruct (accumulate_Ok _ _ Hsnapshot) as (_ & Hh' & Hd' & Hs' & _).
  split; [by rewrite <-Hh, <-Hh'|]. split; [by rewrite <-Hd, <-Hd'|].
  intros d. by rewrite <-Hs, <-Hs'.
Qed.

Lemma assigned_shifts_nil e (assignments : PyDict (Z * Z) Z) :
  e ∉ assignments.*2 → assigned_shifts e assignments = [].
Proof.
  intros Hnot. unfold assigned_shifts. rewrite filter_none; [done|].
  apply Forall_forall. intros a Hin Heq. apply Hnot. subst e.
  by apply list_elem_of_fmap_2.
Qed.

(** What [fill_unfilled_shifts] does to the aggregates of the employees,
    when the values that the solver leaves are a point of its program. *)
Lemma fill_unfilled_shifts_aggregates solver latest_snapshot employee_profiles result log :
  Forall flagged latest_snapshot →
  (∀ p, prepared_for latest_snapshot employee_profiles = Ok p →
        feasible (problem_of p) (varValue (solver (problem_of p))) = true) →
  fill_unfilled_shifts solver latest_snapshot employee_profiles = Ok (result, log) →
  ∃ assignments : PyDict (Z * Z) Z,
    Forall flagged result
    ∧ Forall2 (λ r r', r' = r
                       ∨ ∃ shift_id emp, (shift_id, emp) ∈ assignments
                                         ∧ target shift_id r ∧ r' = set_assigned emp r)
              latest_snapshot result
    ∧ (∀ e, e ∈ assignments.*2 → within_limits e result)
    ∧ (∀ e, e ∉ assignments.*2 →
         (committed_hours e result == committed_hours e latest_snapshot)%Q
         ∧ days_worked e result = days_worked e latest_snapshot
         ∧ ∀ d, shifts_on e d result = shifts_on e d latest_snapshot).
Proof.
  intros Hflag Hsolver Hfill.
  assert (∀ df : DataFrame,
            Forall2 (λ r r' : Row, r' = r
                       ∨ ∃ shift_id emp, (shift_id, emp) ∈ ([] : PyDict (Z * Z) Z)
                                         ∧ target shift_id r ∧ r' = set_assigned emp r)
                    df df) as Hsame.
  { intros df. apply Forall_Forall2_diag, Forall_forall. by left. }
  assert (∃ assignments : PyDict (Z * Z) Z,
            assignments = [] ∧ result = latest_snapshot
            ∨ ∃ filled unfilled deduped p,
                select_notna latest_snapshot = Ok filled
                ∧ select_isna latest_snapshot = Ok unfilled
                ∧ drop_duplicates unfilled = Ok deduped
                ∧ prepare deduped employee_profiles filled = Ok p
                ∧ assignments
                  = (extract_solution (varValue (solver (problem_of p)))
                       (valid_employees_of (state p) (employees p)) (shift_ids p)).1
                ∧ for_each apply_assignment latest_snapshot assignments = Ok result)
    as [assignments Hcases].
  { apply fill_unfilled_shifts_Ok in Hfill
      as (filled & unfilled & Hfilled & Hunfilled & [[-> ->]|Hfill]).
    { exists []. by left. }
    destruct Hfill as (deduped & assignments & log' & Hdeduped & Hsolve & Happly).
    exists assignments.
    apply solve_assignment_Ok in Hsolve as (p & Hp & Hcases).
    destruct Hcases as [(_ & -> & _)|[(_ & _ & ->)|(_ & _ & ->)]];
      [left; by injection Happly as <-..|].
    right. by exists filled, unfilled, deduped, p. }
  exists assignments.
  destruct Hcases as [[-> ->]|Hcases].
  { split; [done|]. split; [apply Hsame|]. split; [by intros e ?%elem_of_nil|]. done. }
  destruct Hcases as (filled & unfilled & deduped & p & Hfilled & Hunfilled & Hdeduped
                      & Hp & Hassignments & Happly).
  assert (prepared_for latest_snapshot employee_profiles = Ok p) as Hprepared.
  { unfold prepared_for. rewrite Hfilled, Hunfilled. simpl. by rewrite Hdeduped. }
  specialize (Hsolver _ Hprepared).
  pose proof (prepare_Ok _ _ _ _ Hp) as (_ & Hsids & _ & Hst & Hdurs).
  destruct (drop_duplicates_Ok _ _ Hdeduped) as ((sids & Hsids' & Hnd) & _ & Hhead).
  rewrite Hsids in Hsids'. injection Hsids' as <-.
  apply record_duration_columns in Hdurs.
  assert (∀ shift_id, shift_id ∈ shift_ids p →
            ∃ r d, head (filter (target shift_id) latest_snapshot) = Some r
                   ∧ ShiftDurationHours r = Some d
                   ∧ shift_duration deduped shift_id = d) as Htarget.
  { intros shift_id Hin. apply map_rows_Ok_Forall2 in Hsids.
    destruct (Forall2_elem_of_r _ _ _ _ Hsids Hin) as (r0 & Hr0 & Hid%shift_id_of_Ok).
    destruct (head_filter_is_Some (λ r, row_shift_id r = Some shift_id) deduped r0)
      as (r & Hr & Hrin & _); [done..|].
    rewrite Forall_forall in Hdurs. destruct (Hdurs _ Hrin) as [d Hd].
    exists r, d. rewrite (select_isna_target _ _ _ Hunfilled Hflag), <-Hhead.
    split; [done|]. split; [done|]. by rewrite shift_duration_head, Hr, Hd. }
  assert (∀ shift_id, shift_id ∈ assignments.*1 → shift_id ∈ shift_ids p) as Hkeys.
  { intros shift_id ([s e] & -> & Hin)%list_elem_of_fmap. rewrite Hassignments in Hin.
    by apply extract_solution_elem_of in Hin as (_ & ? & _). }
  destruct (apply_assignments_aggregates _ _ _ Happly) as [Hresult Hagg].
  { rewrite Hassignments. apply extract_solution_NoDup. }
  { done. }
  { intros shift_id Hin%Hkeys. destruct (Htarget _ Hin) as (r & d & -> & _). eauto. }
  split; [done|]. split; [by apply apply_assignments_rows|].
  assert (∀ e, target_duration latest_snapshot <$> assigned_shifts e assignments
               = shift_duration deduped <$> assigned_shifts e assignments) as Hdurations.
  { intros e. apply Forall_fmap_ext, Forall_forall.
    intros shift_id Hin%elem_of_assigned_shifts_keys%Hkeys.
    destruct (Htarget _ Hin) as (r & d & Hr & Hd & ->).
    unfold target_duration. by rewrite Hr, Hd. }
  split.
  - intros e He. destruct (Hagg e) as (Hh & Hd & Hs).
    rewrite Hassignments in He.
    destruct (extracted_respects_limits _ _ _ _ _ e Hp Hnd Hsolver He) as (Lh & Ld & Ls).
    rewrite <-Hassignments in Lh, Ld, Ls.
    destruct (select_notna_aggregates _ _ _ e Hfilled Hst) as (Fh & Fd & Fs).
    rewrite Fh, Fd in *. split; [|split].
    + rewrite Hh, Hdurations. exact Lh.
    + by rewrite Hd.
    + intros d. rewrite Hs, <-Fs. apply Ls.
  - intros e He. destruct (Hagg e) as (Hh & Hd & Hs).
    unfold new_days, new_shifts_on in *. rewrite assigned_shifts_nil in * by done.
    split; [|split].
    + rewrite Hh. unfold Qsum. simpl. ring.
    + rewrite Hd. set_solver.
    + intros d. rewrite Hs. simpl. lia.
Qed.

(** X13: [fill_unfilled_shifts] returns the rows of the snapshot in their
    order, each one either as it was or, for a row flagged unfilled, with the
    number of a profiled employee as [EmployeeNumber] and [IsUnfilled] set to
    false; a row that is not flagged unfilled is never changed. *)
Theorem fill_unfilled_shifts_rows (solver : Solver)
    (latest_snapshot : DataFrame) (employee_profiles : ProfileFrame)
    (result : DataFrame) (log : list Event) :
  fill_unfilled_shifts solver latest_snapshot employee_profiles = Ok (result, log) →
  Forall2 (λ r r', r' = r
                   ∨ (IsUnfilled r = Some true
                      ∧ ∃ prof, prof ∈ iterrows employee_profiles
                                ∧ r' = set_assigned (profile_EmployeeNumber prof) r))
          latest_snapshot result.
Proof.
  intros (filled & unfilled & _ & _ & [[_ ->]|Hfill])%fill_unfilled_shifts_Ok.
  { apply Forall_Forall2_diag, Forall_forall. by left. }
  destruct Hfill as (deduped & assignments & log' & _ & Hsolve & Happly).
  apply apply_assignments_rows in Happly.
  eapply Forall2_impl; [exact Happly|]. simpl.
  intros r r' [->|(shift_id & emp & Hin & [_ Hr] & ->)]; [by left|]. right.
  split; [done|].
  apply solve_assignment_Ok in Hsolve as (p & Hp & Hcases).
  destruct Hcases as [(_ & -> & _)|[(_ & _ & ->)|(_ & _ & ->)]];
    [by apply elem_of_nil in Hin..|].
  apply extract_solution_elem_of in Hin as ([Hemp _]%elem_of_valid_employees & _).
  apply (elem_of_employees _ _ _ _ _ Hp) in Hemp as (prof & Hprof & <-). eauto.
Qed.

(** X14: on a snapshot whose [IsUnfilled] flags tell the null employees, and
    when the values that the solver leaves are a point of the program it is
    given, every employee to whom [fill_unfilled_shifts] gives a shift is
    within the three limits in the filled snapshot: at most 40 hours, at most
    5 distinct days, at most 1 shift on each day, counted over the shifts
    they held and those they received. *)
Theorem fill_unfilled_shifts_respects_limits (solver : Solver)
    (latest_snapshot : DataFrame) (employee_profiles : ProfileFrame)
    (result : DataFrame) (log : list Event) :
  Forall flagged latest_snapshot →
  (∀ p, prepared_for latest_snapshot employee_profiles = Ok p →
        feasible (problem_of p) (varValue (solver (problem_of p))) = true) →
  fill_unfilled_shifts solver latest_snapshot employee_profiles = Ok (result, log) →
  ∀ i r r' emp,
    latest_snapshot !! i = Some r → result !! i = Some r' →
    EmployeeNumber r = Some None → EmployeeNumber r' = Some (Some emp) →
    within_limits emp result.
Proof.
  intros Hflag Hsolver Hfill.
  destruct (fill_unfilled_shifts_aggregates _ _ _ _ _ Hflag Hsolver Hfill)
    as (assignments & _ & Hrows & Hlimits & _).
  intros i r r' emp Hr Hr' Hnull Hemp. apply Hlimits.
  destruct (Forall2_lookup_lr _ _ _ _ _ _ Hrows Hr Hr')
    as [->|(shift_id & e & Hin & _ & ->)]; [congruence|].
  simpl in Hemp. injection Hemp as ->. by apply (list_elem_of_fmap_2 snd) in Hin.
Qed.

(** X15: under the same conditions, filling keeps every employee within the
    limits: one who is within the three limits in the snapshot is within
    them in the filled snapshot. *)
Theorem fill_unfilled_shifts_keeps_limits (solver : Solver)
    (latest_snapshot : DataFrame) (employee_profiles : ProfileFrame)
    (result : DataFrame) (log : list Event) (emp : Z) :
  Forall flagged latest_snapshot →
  (∀ p, prepared_for latest_snapshot employee_profiles = Ok p →
        feasible (problem_of p) (varValue (solver (problem_of p))) = true) →
  fill_unfilled_shifts solver latest_snapshot employee_profiles = Ok (result, log) →
  within_limits emp latest_snapshot → within_limits emp result.
Proof.
  intros Hflag Hsolver Hfill (Lh & Ld & Ls).
  destruct (fill_unfilled_shifts_aggregates _ _ _ _ _ Hflag Hsolver Hfill)
    as (assignments & _ & _ & Hlimits & Hother).
  destruct (decide (emp ∈ assignments.*2)) as [Hin|Hnot]; [by apply Hlimits|].
  destruct (Hother _ Hnot) as (Hh & Hd & Hs).
  split; [by rewrite Hh|]. split; [by rewrite Hd|]. intros d. by rewrite Hs.
Qed.

(** ** The validator after the filling *)

Lemma accumulate_accumulable rows st0 st :
  for_each accumulate_shift st0 rows = Ok st → accumulable rows.
Proof.
  revert st0. induction rows as [|r rows IH]; intros st0; simpl; [constructor|].
  rewrite bind_Ok. intros (st1 & Hstep & Hrest). constructor; [|by eapply IH].
  apply accumulate_shift_Ok in Hstep as [[-> _]|(e & d & -> & -> & _)]; [done | eauto].
Qed.

Lemma nil_or_elem_of {A} (l : list A) : l = [] ∨ ∃ x, x ∈ l.
Proof. destruct l as [|x l]; [by left|]. right. exists x. by left. Qed.

Lemma validate_constraints_valid snapshot res :
  validate_constraints snapshot = Ok res →
  valid res = true ↔ ∀ emp, within_limits emp snapshot.
Proof.
  intros Hres. destruct (validate_constraints_Ok _ _ Hres) as (st & Hst & Hviol & Hvalid).
  destruct (accumulate_Ok _ _ Hst) as (Hk & Hh & Hd & Hs & Hwh & Hwd).
  pose proof (λ emp, check_constraints_hours st emp Hk Hwh) as Chours.
  pose proof (λ emp, check_constraints_days st emp Hk Hwd) as Cdays.
  pose proof (λ emp day, check_constraints_daily st emp day Hk) as Cdaily.
  rewrite Hvalid, bool_decide_eq_true, Hviol. unfold within_limits. split.
  - intros Hzero emp.
    assert (weekly_hours (check_constraints st) = []
            ∧ work_days (check_constraints st) = []
            ∧ daily_shifts (check_constraints st) = []) as (H1 & H2 & H3).
    { rewrite <-!length_zero_iff_nil. lia. }
    rewrite H1 in Chours. rewrite H2 in Cdays. rewrite H3 in Cdaily.
    rewrite <-Hh, <-Hd. split; [|split].
    + apply Qnot_lt_le. intros Hgt%Chours. destruct Hgt as (v & Hv & _).
      by apply elem_of_nil in Hv.
    + apply Nat.nlt_ge. intros Hgt%Cdays. destruct Hgt as (v & Hv & _).
      by apply elem_of_nil in Hv.
    + intros day. rewrite <-Hs. apply Nat.nlt_ge. intros Hgt%Cdaily.
      destruct Hgt as (v & Hv & _). by apply elem_of_nil in Hv.
  - intros Hlimits.
    destruct (nil_or_elem_of (weekly_hours (check_constraints st))) as [->|[v Hv]].
    2:{ destruct (Hlimits (hv_employee v)) as (Lh & _). rewrite <-Hh in Lh.
        assert (40 < current_hours_of st (hv_employee v) 0)%Q as Hgt
          by (apply Chours; eauto).
        by apply Qlt_not_le in Hgt. }
    destruct (nil_or_elem_of (work_days (check_constraints st))) as [->|[v Hv]].
    2:{ destruct (Hlimits (dv_employee v)) as (_ & Ld & _). rewrite <-Hd in Ld.
        assert (5 < current_days_of st (dv_employee v) 0)%nat as Hgt
          by (apply Cdays; eauto).
        unfold current_days_of in Hgt. lia. }
    destruct (nil_or_elem_of (daily_shifts (check_constraints st))) as [->|[v Hv]]; [done|].
    destruct (Hlimits (sv_employee v)) as (_ & _ & Ls). specialize (Ls (sv_day v)).
    rewrite <-Hs in Ls.
    assert (1 < current_shifts_of st (sv_employee v) (sv_day v))%nat as Hgt
      by (apply Cdaily; eauto).
    lia.
Qed.

Lemma fill_unfilled_shifts_valid (solver : Solver)
    (latest_snapshot : DataFrame) (employee_profiles : ProfileFrame)
    (result : DataFrame) (log : list Event) (before : ValidationResult) :
  Forall flagged latest_snapshot →
  (∀ p, prepared_for latest_snapshot employee_profiles = Ok p →
        feasible (problem_of p) (varValue (solver (problem_of p))) = true) →
  fill_unfilled_shifts solver latest_snapshot employee_profiles = Ok (result, log) →
  validate_constraints latest_snapshot = Ok before → valid before = true →
  ∃ after, validate_constraints result = Ok after
           ∧ valid after = true ∧ total_violations after = 0%nat.
Proof.
  intros Hflag Hsolver Hfill Hbefore Hvalid.
  destruct (fill_unfilled_shifts_aggregates _ _ _ _ _ Hflag Hsolver Hfill)
    as (assignments & _ & Hrows & Hlimits & Hother).
  pose proof (proj1 (validate_constraints_valid _ _ Hbefore) Hvalid) as Hwithin.
  destruct (validate_constraints_Ok _ _ Hbefore) as (st & Hst%accumulate_accumulable & _).
  assert (accumulable result) as Hresult.
  { eapply Forall2_Forall_r; [exact Hrows|]. eapply Forall_impl; [exact Hst|].
    simpl. intros r Hr r' [->|(shift_id & e & _ & [Hkey _] & ->)]; [done|]. simpl.
    unfold row_shift_id in Hkey. destruct (ScheduleDetailID r), (DayNum r); by eauto. }
  destruct (validate_constraints_total _ Hresult) as [after Hafter].
  exists after. split; [done|].
  assert (valid after = true) as Hafter_valid.
  { apply (validate_constraints_valid _ _ Hafter). intros emp.
    destruct (decide (emp ∈ assignments.*2)) as [Hin|Hnot]; [by apply Hlimits|].
    destruct (Hother _ Hnot) as (Hh & Hd & Hs). destruct (Hwithin emp) as (Lh & Ld & Ls).
    split; [by rewrite Hh|]. split; [by rewrite Hd|]. intros d. by rewrite Hs. }
  split; [done|].
  unfold validate_constraints in Hafter. apply bind_Ok in Hafter as (filled & _ & Hafter).
  case_bool_decide; [by injection Hafter as <-|].
  apply bind_Ok in Hafter as (st' & _ & [= <-]). simpl in *.
  by apply bool_decide_eq_true in Hafter_valid.
Qed.

(** X16: under the same conditions, filling keeps the snapshot valid: when
    [validate_constraints] finds the snapshot valid, it returns on the
    filled snapshot and finds it valid, without any violation. *)
Theorem fill_unfilled_shifts_keeps_valid (solver : Solver)
    (latest_snapshot : DataFrame) (employee_profiles : ProfileFrame)
    (result : DataFrame) (log : list Event) (before : ValidationResult) :
  Forall flagged latest_snapshot →
  (∀ p, prepared_for latest_snapshot employee_profiles = Ok p →
        feasible (problem_of p) (varValue (solver (problem_of p))) = true) →
  fill_unfilled_shifts solver latest_snapshot employee_profiles = Ok (result, log) →
  validate_constraints latest_snapshot = Ok before → valid before = true →
  ∃ after, validate_constraints result = Ok after
           ∧ valid after = true ∧ total_violations after = 0%nat.
Proof. apply fill_unfilled_shifts_valid. Qed.

(** ** Preprocessing *)

Lemma map_rows_set {A} (f : A → result A) (l l' : list A) :
  map_rows f l = Ok l' → Forall2 (λ a b, f a = Ok b) l l'.
Proof. apply map_rows_Ok_Forall2. Qed.

Lemma handle_midnight_shifts_Ok df df' :
  handle_midnight_shifts df = Ok df' ↔
  Forall2 (λ r r', ∃ start end_,
             ShiftStartTime (shift_columns r) = Some start
             ∧ ShiftEndTime (shift_columns r) = Some end_
             ∧ r' = with_durations start end_ r) df df'.
Proof.
  unfold handle_midnight_shifts. split.
  - rewrite bind_Ok. intros (d1 & H1%map_rows_Ok_Forall2 & H).
    apply bind_Ok in H as (d2 & H2%map_rows_Ok_Forall2 & H3%map_rows_Ok_Forall2).
    assert (Forall2 (λ r r2, ∃ r1,
              (t ← col "ShiftStartTime" (ShiftStartTime (shift_columns r));
               Ok (with_shift_columns (set_ShiftStartTime_parsed t) r)) = Ok r1
              ∧ (t ← col "ShiftEndTime" (ShiftEndTime (shift_columns r1));
                 Ok (set_ShiftEndTime_parsed t r1)) = Ok r2) df d2) as H12.
    { eapply Forall2_trans; [|exact H1|exact H2]. simpl. intros x y z Hxy Hyz.
      exists y. done. }
    eapply Forall2_trans; [|exact H12|exact H3].
    simpl. intros r r2 r3 (r1 & Hr1 & Hr2) Hr3.
    apply bind_Ok in Hr1 as (start & Hstart%col_Ok & [= <-]).
    apply bind_Ok in Hr2 as (end_ & Hend%col_Ok & [= <-]). simpl in *.
    injection Hr3 as <-. by exists start, end_.
  - intros Hrows.
    assert (map_rows (λ r, t ← col "ShiftStartTime" (ShiftStartTime (shift_columns r));
                           Ok (with_shift_columns (set_ShiftStartTime_parsed t) r)) df
            = Ok ((λ r, with_shift_columns
                          (set_ShiftStartTime_parsed
                             (default at_8 (ShiftStartTime (shift_columns r)))) r) <$> df))
      as ->.
    { clear -Hrows. induction Hrows as [|r r' df df' (s & e & Hs & _) _ IH]; [done|].
      csimpl. rewrite Hs. simpl. by rewrite IH. }
    simpl.
    assert (map_rows (λ r, t ← col "ShiftEndTime" (ShiftEndTime (shift_columns r));
                           Ok (set_ShiftEndTime_parsed t r))
              ((λ r, with_shift_columns
                       (set_ShiftStartTime_parsed
                          (default at_8 (ShiftStartTime (shift_columns r)))) r) <$> df)
            = Ok ((λ r, set_ShiftEndTime_parsed
                          (default at_8 (ShiftEndTime (shift_columns r)))
                          (with_shift_columns
                             (set_ShiftStartTime_parsed
                                (default at_8 (ShiftStartTime (shift_columns r)))) r))
                  <$> df)) as ->.
    { clear -Hrows. induction Hrows as [|r r' df df' (s & e & _ & He & _) _ IH]; [done|].
      csimpl. rewrite He. simpl. by rewrite IH. }
    simpl. clear -Hrows.
    induction Hrows as [|r r' df df' (s & e & Hs & He & ->) _ IH]; [done|].
    csimpl. rewrite Hs, He. simpl. by rewrite IH.
Qed.

Lemma drop_duplicates_by_Forall2 `{EqDecision K} {A B} (R : A → B → Prop)
    (subset : A → result K) (subset' : B → result K) (l : list A) (l' : list B) :
  Forall2 R l l' → (∀ a b, R a b → subset a = subset' b) →
  ∀ seen k', drop_duplicates_by subset' seen l' = Ok k' →
             ∃ k, drop_duplicates_by subset seen l = Ok k ∧ Forall2 R k k'.
Proof.
  intros Hl Hkey. induction Hl as [|a b l l' Hab _ IH]; intros seen k'; simpl.
  { intros [= <-]. by exists []. }
  rewrite (Hkey _ _ Hab). destruct (subset' b) as [key|]; simpl; [|done].
  case_bool_decide; [apply IH|].
  rewrite bind_Ok. intros (rest & Hrest & [= <-]).
  destruct (IH _ _ Hrest) as (k & -> & Hk). simpl.
  exists (a :: k). split; [done | by constructor].
Qed.

Lemma date_in_columns_Forall2 (R : ScheduleRow → ScheduleRow → Prop) l l' :
  Forall2 R l l' → (∀ a b, R a b → date a = date b) →
  date_in_columns l = date_in_columns l'.
Proof.
  intros Hl Hdate. unfold date_in_columns.
  induction Hl as [|a b l l' Hab _ IH]; simpl; [done|].
  by rewrite (Hdate _ _ Hab), IH.
Qed.

Lemma deduplicate_schedule_details_Forall2 (R : ScheduleRow → ScheduleRow → Prop)
    l l' by_date k' :
  Forall2 R l l' →
  (∀ a b, R a b → date a = date b
                  ∧ shift_id_of (shift_columns a) = shift_id_of (shift_columns b)) →
  deduplicate_schedule_details l' by_date = Ok k' →
  ∃ k, deduplicate_schedule_details l by_date = Ok k ∧ Forall2 R k k'.
Proof.
  intros Hl HR. unfold deduplicate_schedule_details.
  rewrite (date_in_columns_Forall2 R l l') by (done || apply HR).
  destruct (by_date && date_in_columns l').
  - apply drop_duplicates_by_Forall2; [done|]. intros a b [Hd Hid]%HR.
    unfold dated_shift_id_of. by rewrite Hd, Hid.
  - apply drop_duplicates_by_Forall2; [done|]. by intros a b [_ ?]%HR.
Qed.

Lemma preprocess_schedule_Ok df by_date df' :
  preprocess_schedule df by_date = Ok df' →
  ∃ kept, deduplicate_schedule_details df by_date = Ok kept
          ∧ Forall2 preprocessed kept df'.
Proof.
  unfold preprocess_schedule. rewrite bind_Ok.
  intros (d1 & H1%handle_midnight_shifts_Ok & H).
  apply bind_Ok in H as (d2 & H2 & H). apply bind_Ok in H as (d3 & H3 & H4).
  apply map_rows_Ok_Forall2 in H3, H4.
  destruct (deduplicate_schedule_details_Forall2 _ _ _ by_date d2 H1)
    as (kept & Hkept & Hd2); [|done|].
  { intros a b (s & e & _ & _ & ->). done. }
  exists kept. split; [done|].
  assert (Forall2 (λ r2 r', ∃ r3,
            (e ← col "EmployeeNumber" (EmployeeNumber (shift_columns r2));
             Ok (with_shift_columns (set_IsUnfilled (isna e)) r2)) = Ok r3
            ∧ (day ← col "DayNum" (DayNum (shift_columns r3));
               Ok (set_DayOfWeek (dict_get day day_names) r3)) = Ok r') d2 df') as H34.
  { eapply Forall2_trans; [|exact H3|exact H4]. simpl. intros x y z Hxy Hyz.
    exists y. done. }
  eapply Forall2_trans; [|exact Hd2|exact H34].
  simpl. intros r r2 r' (s & e & Hs & He & ->) (r3 & Hr3 & Hr').
  apply bind_Ok in Hr3 as (emp & Hemp%col_Ok & [= <-]).
  apply bind_Ok in Hr' as (day & Hday%col_Ok & [= <-]).
  by exists s, e, emp, day.
Qed.

Lemma Forall_sublist {A} (P : A → Prop) (l1 l2 : list A) :
  l1 `sublist_of` l2 → Forall P l2 → Forall P l1.
Proof.
  rewrite !Forall_forall. intros Hsub Hl2 x Hx. eapply Hl2, elem_of_sublist; done.
Qed.

Lemma preprocess_schedule_total df by_date :
  Forall raw df → ∃ df', preprocess_schedule df by_date = Ok df'.
Proof.
  intros Hraw. unfold preprocess_schedule.
  set (keyed := λ r : ScheduleRow,
         is_Some (ScheduleDetailID (shift_columns r)) ∧ is_Some (DayNum (shift_columns r))
         ∧ is_Some (EmployeeNumber (shift_columns r))).
  assert (∃ d1, handle_midnight_shifts df = Ok d1 ∧ Forall keyed d1) as (d1 & -> & Hd1).
  { exists ((λ r, with_durations (default at_8 (ShiftStartTime (shift_columns r)))
                    (default at_8 (ShiftEndTime (shift_columns r))) r) <$> df).
    split.
    - apply handle_midnight_shifts_Ok, Forall2_fmap_r, Forall_Forall2_diag.
      eapply Forall_impl; [exact Hraw|]. intros r ([s Hs] & [e He] & _).
      exists s, e. by rewrite Hs, He.
    - apply Forall_fmap. eapply Forall_impl; [exact Hraw|].
      intros r (_ & _ & ? & ? & ?). done. }
  simpl.
  assert (∃ d2, deduplicate_schedule_details d1 by_date = Ok d2 ∧ Forall keyed d2)
    as (d2 & -> & Hd2).
  { unfold deduplicate_schedule_details.
    destruct (by_date && date_in_columns d1) eqn:Hdate.
    - destruct (map_rows_total dated_shift_id_of (λ _, True) d1) as (keys & Hkeys & _).
      { apply andb_true_iff in Hdate as [_ Hdate]. unfold date_in_columns in Hdate.
        rewrite forallb_forall in Hdate. apply Forall_forall. intros r Hr.
        rewrite Forall_forall in Hd1. destruct (Hd1 _ Hr) as ([sid Hsid] & [day Hday] & _).
        apply list_elem_of_In, Hdate, bool_decide_eq_true in Hr as [d Hd].
        unfold dated_shift_id_of, shift_id_of. rewrite Hd, Hsid, Hday. simpl. eauto. }
      destruct (drop_duplicates_by_total dated_shift_id_of [] _ _ Hkeys) as [d2 Hd2].
      exists d2. split; [done|].
      apply drop_duplicates_by_Ok in Hd2 as (? & ? & _ & _ & _ & _ & Hsub & _).
      by eapply Forall_sublist.
    - destruct (map_rows_total (λ r, shift_id_of (shift_columns r)) (λ _, True) d1)
        as (keys & Hkeys & _).
      { eapply Forall_impl; [exact Hd1|]. intros r ([sid Hsid] & [day Hday] & _).
        unfold shift_id_of. rewrite Hsid, Hday. simpl. eauto. }
      destruct (drop_duplicates_by_total (λ r, shift_id_of (shift_columns r)) [] _ _ Hkeys)
        as [d2 Hd2].
      exists d2. split; [done|].
      apply drop_duplicates_by_Ok in Hd2 as (? & ? & _ & _ & _ & _ & Hsub & _).
      by eapply Forall_sublist. }
  simpl. unfold identify_unfilled_shifts, parse_scheduling_weeks.
  destruct (map_rows_total
              (λ r, e ← col "EmployeeNumber" (EmployeeNumber (shift_columns r));
                    Ok (with_shift_columns (set_IsUnfilled (isna e)) r))
              (λ r, is_Some (DayNum (shift_columns r))) d2) as (d3 & -> & Hd3).
  { eapply Forall_impl; [exact Hd2|]. intros r (_ & Hday & [e He]).
    rewrite He. simpl. eauto. }
  cbn -[dict_get].
  destruct (map_rows_total
              (λ r, day ← col "DayNum" (DayNum (shift_columns r));
                    Ok (set_DayOfWeek (dict_get day day_names) r))
              (λ _, True) d3) as (df' & -> & _); [|eauto].
  eapply Forall_impl; [exact Hd3|]. intros r [day Hday]. rewrite Hday.
  cbn -[dict_get]. eauto.
Qed.

(** X17: [preprocess_schedule] keeps the rows that the deduplication of the
    raw frame keeps, in their order, and on each of them it leaves the raw
    cells as they are and fills in the parsed times, the duration computed
    from the two times (whatever duration the row had), the flag of the
    unfilled shifts and the name of the day; and it returns whenever every
    row has the raw columns. *)
Theorem preprocess_schedule_rows (df : ScheduleFrame) (deduplicate_by_date : bool) :
  (∀ df', preprocess_schedule df deduplicate_by_date = Ok df' →
     ∃ kept, deduplicate_schedule_details df deduplicate_by_date = Ok kept
             ∧ Forall2 preprocessed kept df')
  ∧ (Forall raw df → ∃ df', preprocess_schedule df deduplicate_by_date = Ok df').
Proof.
  split; [intros df'; apply preprocess_schedule_Ok | apply preprocess_schedule_total].
Qed.

(** ** A preprocessed snapshot *)

Lemma preprocessed_columns r r' :
  preprocessed r r' →
  flagged (shift_columns r')
  ∧ date r' = date r
  ∧ shift_id_of (shift_columns r') = shift_id_of (shift_columns r)
  ∧ is_Some (DayNum (shift_columns r'))
  ∧ is_Some (ShiftDurationHours (shift_columns r')).
Proof.
  intros (s & e & emp & day & Hs & He & Hemp & Hday & ->). simpl.
  split; [by exists emp|]. split; [done|]. split; [done|]. eauto.
Qed.

Lemma select_IsUnfilled_flagged (df : DataFrame) :
  Forall flagged df → select_IsUnfilled df = select_isna df.
Proof.
  induction 1 as [|r df (e & He & Hu) _ IH]; simpl; [done|].
  rewrite He, Hu, IH. simpl. by destruct e.
Qed.

Lemma select_isna_sublist (df unfilled_shifts : DataFrame) :
  select_isna df = Ok unfilled_shifts → unfilled_shifts `sublist_of` df.
Proof.
  revert unfilled_shifts. induction df as [|r df IH]; intros unfilled; simpl.
  { by intros [= <-]. }
  rewrite bind_Ok. intros (e & _ & H). apply bind_Ok in H as (rest & Hrest%IH & [= <-]).
  destruct e; [by apply sublist_cons | by apply sublist_skip].
Qed.

Lemma select_isna_total (df : DataFrame) :
  Forall (λ r, is_Some (EmployeeNumber r)) df → ∃ unfilled_shifts, select_isna df = Ok unfilled_shifts.
Proof.
  induction 1 as [|r df [e He] _ [rest IH]]; simpl; [eauto|].
  rewrite He, IH. simpl. eauto.
Qed.

Lemma map_rows_sublist {A B} (f : A → result B) (l l' : list A) ks :
  map_rows f l = Ok ks → l' `sublist_of` l →
  ∃ ks', map_rows f l' = Ok ks' ∧ ks' `sublist_of` ks.
Proof.
  intros Hks Hsub. revert ks Hks.
  induction Hsub as [|a l' l _ IH|a l' l _ IH]; intros ks; simpl.
  - intros [= <-]. by exists [].
  - rewrite bind_Ok. intros (b & Hb & H). apply bind_Ok in H as (bs & Hbs & [= <-]).
    destruct (IH _ Hbs) as (ks' & -> & Hsub'). rewrite Hb. simpl.
    exists (b :: ks'). split; [done | by apply sublist_skip].
  - rewrite bind_Ok. intros (b & Hb & H). apply bind_Ok in H as (bs & Hbs & [= <-]).
    destruct (IH _ Hbs) as (ks' & -> & Hsub').
    exists ks'. split; [done | by apply sublist_cons].
Qed.

Lemma deduplicate_schedule_details_distinct df by_date kept :
  deduplicate_schedule_details df by_date = Ok kept →
  by_date = false ∨ one_snapshot df →
  ∃ shift_ids, map_rows (λ r, shift_id_of (shift_columns r)) kept = Ok shift_ids
               ∧ NoDup shift_ids.
Proof.
  unfold deduplicate_schedule_details. intros Hkept Hone.
  destruct (by_date && date_in_columns df) eqn:Hdate.
  - apply andb_true_iff in Hdate as [-> _]. destruct Hone as [|Hone]; [done|].
    apply drop_duplicates_by_Ok in Hkept
      as (keys & keys' & _ & Hkeys'%map_rows_Ok_Forall2 & Hnd & _ & Hsub & _).
    exists (keys'.*2). split.
    + apply map_rows_Ok_Forall2, Forall2_fmap_r.
      eapply Forall2_impl; [exact Hkeys'|]. intros r k Hk. unfold dated_shift_id_of in Hk.
      apply bind_Ok in Hk as (d & _ & Hk). apply bind_Ok in Hk as (sid & Hsid & [= <-]).
      done.
    + apply NoDup_fmap_2_strong; [|done]. intros [d1 s1] [d2 s2] H1 H2 Heq.
      simpl in Heq. subst s2. f_equal.
      destruct (Forall2_elem_of_r _ _ _ _ Hkeys' H1) as (r1 & Hr1 & Hk1).
      destruct (Forall2_elem_of_r _ _ _ _ Hkeys' H2) as (r2 & Hr2 & Hk2).
      unfold dated_shift_id_of in Hk1, Hk2.
      apply bind_Ok in Hk1 as (d1' & Hd1%col_Ok & Hk1).
      apply bind_Ok in Hk1 as (? & _ & [= -> _]).
      apply bind_Ok in Hk2 as (d2' & Hd2%col_Ok & Hk2).
      apply bind_Ok in Hk2 as (? & _ & [= -> _]).
      assert (date r1 = date r2) as Hsame
        by (apply Hone; eapply elem_of_sublist; done).
      congruence.
  - apply drop_duplicates_by_Ok in Hkept as (keys & keys' & _ & Hkeys' & Hnd & _).
    eauto.
Qed.

Lemma deduplicate_schedule_details_sublist df by_date kept :
  deduplicate_schedule_details df by_date = Ok kept → kept `sublist_of` df.
Proof.
  unfold deduplicate_schedule_details.
  destruct (by_date && date_in_columns df);
    by intros (? & ? & _ & _ & _ & _ & Hsub & _)%drop_duplicates_by_Ok.
Qed.

(** X18: a snapshot that [preprocess_schedule] returns meets what the filling
    and the validators look for: every [IsUnfilled] flag tells whether the
    employee is null, the columns that the validators index are there, and
    selecting the unfilled shifts by the flag (as [main] does) or by the null
    employee (as [fill_unfilled_shifts] does) gives the same rows.  When the
    deduplication was global, or the raw rows are of one date, the unfilled
    shifts have pairwise distinct keys, so the deduplication inside
    [fill_unfilled_shifts] removes nothing. *)
Theorem preprocess_schedule_snapshot (df : ScheduleFrame) (deduplicate_by_date : bool)
    (df' : ScheduleFrame) :
  preprocess_schedule df deduplicate_by_date = Ok df' →
  let latest_snapshot := shift_columns <$> df' in
  Forall flagged latest_snapshot
  ∧ accumulable latest_snapshot
  ∧ select_IsUnfilled latest_snapshot = select_isna latest_snapshot
  ∧ (deduplicate_by_date = false ∨ one_snapshot df →
     ∃ unfilled_shifts shift_ids,
       select_isna latest_snapshot = Ok unfilled_shifts
       ∧ map_rows shift_id_of unfilled_shifts = Ok shift_ids ∧ NoDup shift_ids
       ∧ drop_duplicates unfilled_shifts = Ok unfilled_shifts).
Proof.
  intros (kept & Hkept & Hrows)%preprocess_schedule_Ok latest_snapshot.
  assert (Forall (λ r', flagged (shift_columns r')
                        ∧ is_Some (DayNum (shift_columns r'))) df') as Hcolumns.
  { eapply Forall2_Forall_r; [exact Hrows|]. apply Forall_forall.
    intros r _ r' (? & _ & _ & ? & _)%preprocessed_columns. done. }
  assert (Forall flagged latest_snapshot) as Hflag.
  { apply Forall_fmap. eapply Forall_impl; [exact Hcolumns|]. by intros r' [? _]. }
  split; [done|]. split; [|split; [by apply select_IsUnfilled_flagged|]].
  { apply Forall_fmap. eapply Forall_impl; [exact Hcolumns|].
    intros r' [(e & He & _) Hday]. simpl. rewrite He. by destruct e. }
  intros Hone.
  destruct (deduplicate_schedule_details_distinct _ _ _ Hkept Hone) as (sids & Hsids & Hnd).
  assert (map_rows shift_id_of latest_snapshot = Ok sids) as Hsnapshot.
  { apply map_rows_Ok_Forall2, Forall2_fmap_l. apply map_rows_Ok_Forall2 in Hsids.
    apply Forall2_flip in Hrows.
    eapply Forall2_trans; [|exact Hrows|exact Hsids]. simpl.
    intros r' r sid (_ & _ & Hid & _)%preprocessed_columns Hr. by rewrite Hid. }
  destruct (select_isna_total latest_snapshot) as [unfilled Hunfilled].
  { eapply Forall_impl; [exact Hflag|]. intros r (e & He & _). eauto. }
  destruct (map_rows_sublist _ _ _ _ Hsnapshot (select_isna_sublist _ _ Hunfilled))
    as (sids' & Hsids' & Hsub).
  exists unfilled, sids'. split; [done|]. split; [done|].
  assert (NoDup sids') as Hnd' by (by eapply sublist_NoDup).
  split; [done|]. unfold drop_duplicates. rewrite drop_duplicates_from_by.
  eapply drop_duplicates_by_distinct; [done..|]. intros k _. apply not_elem_of_nil.
Qed.

(** ** Returning *)

Lemma solve_assignment_total solver unfilled_shifts rows filled_shifts :
  Forall schedulable unfilled_shifts → accumulable filled_shifts →
  ∃ assignments log,
    solve_assignment solver unfilled_shifts (ProfileRows rows) filled_shifts
    = Ok (assignments, log).
Proof.
  intros Hunfilled Hfilled.
  destruct (prepare_total _ rows _ Hunfilled Hfilled) as [p Hp].
  unfold solve_assignment. rewrite Hp. simpl.
  case_bool_decide; [eauto|].
  destruct (bool_decide (status_code (status (solver (problem_of p))) ≠ 1%Z)
            && bool_decide (status_code (status (solver (problem_of p))) = (-1)%Z));
    [eauto|].
  destruct (extract_solution _ _ _) as [assignments warnings]. eauto.
Qed.

(** X19: when the unfilled shifts have the columns that the solver reads, the
    filled ones those that the accumulator indexes, and the profiles are a
    frame with columns, [solve_assignment] raises nothing, whatever status
    and values the solver leaves; the mapping it returns has each key once,
    every key is the key of an unfilled shift and every employee has a
    profile. *)
Theorem solve_assignment_returns (solver : Solver)
    (unfilled_shifts : DataFrame) (rows : list Profile) (filled_shifts : DataFrame) :
  Forall schedulable unfilled_shifts → accumulable filled_shifts →
  ∃ assignments log,
    solve_assignment solver unfilled_shifts (ProfileRows rows) filled_shifts
    = Ok (assignments, log)
    ∧ NoDup assignments.*1
    ∧ ∀ shift_id emp, (shift_id, emp) ∈ assignments →
        (∃ r, r ∈ unfilled_shifts ∧ row_shift_id r = Some shift_id)
        ∧ (∃ prof, prof ∈ rows ∧ profile_EmployeeNumber prof = emp).
Proof.
  intros Hunfilled Hfilled.
  destruct (solve_assignment_total solver _ rows _ Hunfilled Hfilled)
    as (assignments & log & Hsolve).
  exists assignments, log. split; [done|].
  apply solve_assignment_Ok in Hsolve as (p & Hp & Hcases).
  destruct Hcases as [(_ & -> & _)|[(_ & _ & ->)|(_ & _ & ->)]];
    [split; [constructor | by intros ? ? ?%elem_of_nil]..|].
  split; [apply extract_solution_NoDup|].
  intros shift_id emp
    ([Hemp _]%elem_of_valid_employees & Hsid & _)%extract_solution_elem_of.
  pose proof (prepare_Ok _ _ _ _ Hp) as (_ & Hsids%map_rows_Ok_Forall2 & _).
  destruct (Forall2_elem_of_r _ _ _ _ Hsids Hsid) as (r & Hr & Hid%shift_id_of_Ok).
  split; [eauto|]. by apply (elem_of_employees _ _ _ _ _ Hp) in Hemp.
Qed.

Lemma for_each_apply_assignment_total (assignments : PyDict (Z * Z) Z) :
  ∀ df, Forall (λ r, is_Some (row_shift_id r) ∧ is_Some (IsUnfilled r)) df →
        ∃ result, for_each apply_assignment df assignments = Ok result.
Proof.
  induction assignments as [|[shift_id emp] assignments IH]; intros df Hdf;
    cbn [for_each]; [eauto|].
  destruct (apply_assignment_total df shift_id emp Hdf) as [df1 Hstep].
  rewrite Hstep. cbn [mbind result_bind]. apply IH.
  apply apply_assignment_Ok in Hstep as [(l1 & r & l2 & -> & _ & _ & ->)|[_ ->]]; [|done].
  apply Forall_app in Hdf as [Hl1 [Hr Hl2]%Forall_cons].
  apply Forall_app. split; [done|]. apply Forall_cons. split; [|done].
  destruct Hr as [Hkey _]. split; [exact Hkey | by eexists].
Qed.

Lemma fillable_columns (latest_snapshot : DataFrame) :
  Forall fillable latest_snapshot →
  accumulable latest_snapshot
  ∧ Forall (λ r, is_Some (row_shift_id r) ∧ is_Some (IsUnfilled r)) latest_snapshot.
Proof.
  intros Hrows. split.
  - eapply Forall_impl; [exact Hrows|]. intros r (_ & Hday & [e He] & _).
    rewrite He. by destruct e.
  - eapply Forall_impl; [exact Hrows|]. intros r ([sid Hsid] & [day Hday] & _ & Hu & _).
    split; [|done]. unfold row_shift_id. rewrite Hsid, Hday. by eexists.
Qed.

Lemma fill_unfilled_shifts_total solver latest_snapshot rows :
  Forall fillable latest_snapshot →
  ∃ result log,
    fill_unfilled_shifts solver latest_snapshot (ProfileRows rows) = Ok (result, log).
Proof.
  intros Hrows. destruct (fillable_columns _ Hrows) as [Hacc Hmask].
  unfold fill_unfilled_shifts.
  destruct (select_notna_total _ Hacc) as [filled Hfilled]. rewrite Hfilled. simpl.
  destruct (select_isna_total latest_snapshot) as [unfilled Hunfilled].
  { eapply Forall_impl; [exact Hrows|]. by intros r (_ & _ & ? & _). }
  rewrite Hunfilled. simpl. case_bool_decide; [eauto|].
  assert (Forall schedulable unfilled) as Hsched.
  { apply Forall_forall. intros r [Hr Hnull]%(select_isna_elem_of _ _ _ Hunfilled).
    rewrite Forall_forall in Hrows. destruct (Hrows _ Hr) as (_ & _ & _ & _ & Hs). auto. }
  assert (Forall (λ r, is_Some (row_shift_id r)) unfilled) as Hkeys.
  { eapply Forall_impl; [exact Hsched|]. intros r ([sid Hsid] & [day Hday] & _).
    unfold row_shift_id. rewrite Hsid, Hday. by eexists. }
  destruct (map_rows_total shift_id_of (λ _, True) unfilled) as (keys & Hids & _).
  { eapply Forall_impl; [exact Hkeys|]. intros r [k Hk%shift_id_of_Ok]. eauto. }
  destruct (drop_duplicates_by_total shift_id_of [] _ _ Hids) as [deduped Hdeduped].
  unfold drop_duplicates. rewrite drop_duplicates_from_by, Hdeduped. simpl.
  assert (Forall schedulable deduped) as Hsched'.
  { apply drop_duplicates_by_Ok in Hdeduped as (? & ? & _ & _ & _ & _ & Hsub & _).
    by eapply Forall_sublist. }
  assert (accumulable filled) as Hacc'.
  { apply Forall_forall. intros r [Hr _]%(select_notna_elem_of _ _ _ Hfilled).
    unfold accumulable in Hacc. rewrite Forall_forall in Hacc. by apply Hacc. }
  destruct (solve_assignment_total solver _ rows _ Hsched' Hacc')
    as (assignments & log & ->).
  simpl. case_bool_decide; [eauto|].
  destruct (for_each_apply_assignment_total assignments _ Hmask) as [result ->].
  simpl. eauto.
Qed.

(** X20: on a snapshot whose rows have the key, the employee and the flag,
    and whose unfilled shifts have the columns that the solver reads,
    [fill_unfilled_shifts] raises nothing with profiles that are a frame with
    columns, whatever the solver answers; and it returns as many rows as the
    snapshot has. *)
Theorem fill_unfilled_shifts_returns (solver : Solver)
    (latest_snapshot : DataFrame) (rows : list Profile) :
  Forall fillable latest_snapshot →
  ∃ result log,
    fill_unfilled_shifts solver latest_snapshot (ProfileRows rows) = Ok (result, log)
    ∧ length result = length latest_snapshot.
Proof.
  intros Hrows. destruct (fill_unfilled_shifts_total solver _ rows Hrows)
    as (result & log & Hfill).
  exists result, log. split; [done|].
  apply fill_unfilled_shifts_Ok in Hfill
    as (filled & unfilled & _ & _ & [[_ ->]|Hfill]); [done|].
  destruct Hfill as (deduped & assignments & log' & _ & _ & Happly).
  symmetry. eapply Forall2_length, apply_assignments_rows, Happly.
Qed.

(** ** The profiles of a history *)

Lemma build_profiles_numbers fs :
  profile_EmployeeNumber <$> build_profiles fs = unique (h_EmployeeNumber <$> fs).
Proof.
  unfold build_profiles.
  assert (∀ emps, Forall (λ emp, emp ∈ h_EmployeeNumber <$> fs) emps →
                  profile_EmployeeNumber <$> omap (build_profile fs) emps = emps) as H.
  { induction 1 as [|emp emps Hemp _ IH]; csimpl; [done|].
    apply list_elem_of_fmap in Hemp as (f & -> & Hf).
    destruct (build_profile fs (h_EmployeeNumber f)) as [p|] eqn:Hp.
    - csimpl. rewrite IH. by destruct (build_profile_Some _ _ _ Hp) as (-> & _).
    - assert (is_Some (build_profile fs (h_EmployeeNumber f))) as [? ?]
        by (apply build_profile_is_Some; eauto).
      congruence. }
  apply H, Forall_forall. intros emp. by rewrite elem_of_unique.
Qed.

(** X21: the frame of the profiles has one row for each employee with a
    filled shift in the history, in the order of their first filled shift:
    no employee number occurs on two rows. *)
Theorem compute_compatibility_one_profile_per_employee
    (historical_data : DataFrame) (profiles : ProfileFrame) :
  compute_compatibility historical_data = Ok profiles →
  NoDup (profile_EmployeeNumber <$> iterrows profiles)
  ∧ ∃ fs, historical_features historical_data = Ok fs
          ∧ profile_EmployeeNumber <$> iterrows profiles
            = unique (h_EmployeeNumber <$> fs).
Proof.
  intros (fs & Hfs & ->)%compute_compatibility_Ok.
  rewrite build_profiles_numbers. split; [apply NoDup_unique | eauto].
Qed.

(** ** The aggregates of the report *)

Lemma dict_get_fmap `{EqDecision K} {V W} (f : V → W) (d : PyDict K V) k :
  dict_get k (prod_map id f <$> d) = f <$> dict_get k d.
Proof.
  induction d as [|[k' v] d IH]; csimpl; [done|]. by case_decide.
Qed.

(** X22: the three aggregate entries of the report of [validate_constraints]
    hold, for every employee, the hours they are committed to, the number of
    distinct days they work and their number of shifts on each day (nothing
    for an employee without filled shift); the report has no such entries
    exactly when the snapshot has no filled shift. *)
Theorem validate_constraints_aggregates (snapshot : DataFrame) (res : ValidationResult) :
  validate_constraints snapshot = Ok res →
  match aggregates res with
  | Some (hours, days, shifts) =>
      (∃ r emp, r ∈ snapshot ∧ EmployeeNumber r = Some (Some emp))
      ∧ ∀ emp,
          default 0%Q (dict_get (emp, 0%Z) hours) = committed_hours emp snapshot
          ∧ default 0%nat (dict_get (emp, 0%Z) days) = size (days_worked emp snapshot)
          ∧ ∀ day, default 0%nat (dict_get (emp, day) shifts) = shifts_on emp day snapshot
  | None => ∀ r, r ∈ snapshot → EmployeeNumber r = Some None
  end.
Proof.
  unfold validate_constraints. rewrite bind_Ok. intros (filled & Hfilled & H).
  pose proof (select_notna_accumulate _ _ empty_state Hfilled) as Hacc.
  case_bool_decide as Hlen.
  - injection H as <-. simpl. apply length_zero_iff_nil in Hlen. subst filled.
    intros r Hr. clear Hacc. revert Hfilled Hr. induction snapshot as [|r0 df IH]; simpl.
    { by intros _ ?%elem_of_nil. }
    rewrite bind_Ok. intros (e & He%col_Ok & H).
    apply bind_Ok in H as (rest & Hrest & H). destruct e; [done|]. injection H as ->.
    intros [->|Hr]%elem_of_cons; [done | by apply IH].
  - apply bind_Ok in H as (st & Hst & [= <-]). simpl. split.
    + destruct filled as [|r filled]; [done|].
      assert (r ∈ r :: filled) as Hr by (by left).
      apply (select_notna_elem_of _ _ _ Hfilled) in Hr as [Hr [emp Hemp]]. eauto.
    + assert (accumulate snapshot = Ok st) as Hsnapshot
        by (unfold accumulate; congruence).
      destruct (accumulate_Ok _ _ Hsnapshot) as (_ & Hh & Hd & Hs & _).
      intros emp. split; [apply Hh|]. split; [|apply Hs].
      rewrite <-Hd, dict_get_fmap. unfold current_day_set_of.
      by destruct (dict_get (emp, 0%Z) (employee_week_days st)).
Qed.

(** ** Employees at a limit *)

Lemma at_limit_select_notna latest_snapshot filled_shifts st emp :
  select_notna latest_snapshot = Ok filled_shifts → accumulate filled_shifts = Ok st →
  at_limit emp latest_snapshot → at_limit emp filled_shifts.
Proof.
  intros Hsel Hacc. unfold at_limit.
  destruct (select_notna_aggregates _ _ _ emp Hsel Hacc) as (-> & -> & Hs).
  intros [?|[?|[day ?]]]; [by left | by right; left|].
  right. right. exists day. by rewrite Hs.
Qed.

(** X23: whatever the solver answers, [fill_unfilled_shifts] gives no shift
    to an employee who is at a limit in the snapshot (40 hours or more, 5
    days or more, or two shifts on one day): every row that such an employee
    holds in the filled snapshot is a row of the snapshot, unchanged. *)
Theorem fill_unfilled_shifts_spares_employees_at_limit (solver : Solver)
    (latest_snapshot : DataFrame) (employee_profiles : ProfileFrame)
    (result : DataFrame) (log : list Event) (emp : Z) :
  fill_unfilled_shifts solver latest_snapshot employee_profiles = Ok (result, log) →
  at_limit emp latest_snapshot →
  ∀ i r r', latest_snapshot !! i = Some r → result !! i = Some r' →
            EmployeeNumber r' = Some (Some emp) → r' = r.
Proof.
  intros (filled & unfilled & Hfilled & _ & [[_ ->]|Hfill])%fill_unfilled_shifts_Ok
    Hlimit i r r' Hr Hr' Hemp; [congruence|].
  destruct Hfill as (deduped & assignments & log' & _ & Hsolve & Happly).
  apply apply_assignments_rows in Happly.
  destruct (Forall2_lookup_lr _ _ _ _ _ _ Happly Hr Hr')
    as [->|(shift_id & e & Hin & _ & ->)]; [done|].
  simpl in Hemp. injection Hemp as ->. exfalso.
  apply solve_assignment_Ok in Hsolve as (p & Hp & Hcases).
  destruct Hcases as [(_ & -> & _)|[(_ & _ & ->)|(_ & _ & ->)]];
    [by apply elem_of_nil in Hin..|].
  apply extract_solution_elem_of in Hin as ([_ Hex]%elem_of_valid_employees & _).
  pose proof (prepare_Ok _ _ _ _ Hp) as (_ & _ & _ & Hst & _).
  apply (exclusion_at_limit _ _ emp Hst); [|done].
  by eapply at_limit_select_notna.
Qed.

(** ** The checks of [main] before and after the filling *)

Lemma select_notna_idempotent (df filled_shifts : DataFrame) :
  select_notna df = Ok filled_shifts → select_notna filled_shifts = Ok filled_shifts.
Proof.
  revert filled_shifts. induction df as [|r df IH]; intros filled; simpl.
  { by intros [= <-]. }
  rewrite bind_Ok. intros (e & He%col_Ok & H).
  apply bind_Ok in H as (rest & Hrest & [= <-]). destruct e; [|by apply IH].
  simpl. rewrite He. simpl. by rewrite (IH _ Hrest).
Qed.

Lemma validate_constraints_select_notna (df filled_shifts : DataFrame) :
  select_notna df = Ok filled_shifts →
  validate_constraints filled_shifts = validate_constraints df.
Proof.
  intros Hsel. unfold validate_constraints.
  by rewrite Hsel, (select_notna_idempotent _ _ Hsel).
Qed.

(** X24: the two checks of [main] on a preprocessed snapshot.  When
    [validate_filled_shifts_constraints] finds the filled shifts of the
    preprocessed snapshot valid, and the values that the solver leaves are a
    point of the program it is given, [validate_constraints] returns on the
    snapshot that [fill_unfilled_shifts] returns and finds it valid, with no
    violation. *)
Theorem filled_snapshot_passes_the_check (solver : Solver)
    (latest_snapshot processed_latest : ScheduleFrame) (deduplicate_by_date : bool)
    (employee_profiles : ProfileFrame) (filled_shifts filled_snapshot : DataFrame)
    (existing_validation : ValidationResult) (log : list Event) :
  preprocess_schedule latest_snapshot deduplicate_by_date = Ok processed_latest →
  select_notna (shift_columns <$> processed_latest) = Ok filled_shifts →
  validate_filled_shifts_constraints filled_shifts = Ok existing_validation →
  valid existing_validation = true →
  (∀ p, prepared_for (shift_columns <$> processed_latest) employee_profiles = Ok p →
        feasible (problem_of p) (varValue (solver (problem_of p))) = true) →
  fill_unfilled_shifts solver (shift_columns <$> processed_latest) employee_profiles
  = Ok (filled_snapshot, log) →
  ∃ constraint_validation,
    validate_constraints filled_snapshot = Ok constraint_validation
    ∧ valid constraint_validation = true
    ∧ total_violations constraint_validation = 0%nat.
Proof.
  intros (kept & _ & Hrows)%preprocess_schedule_Ok Hfilled Hexisting Hvalid Hsolver Hfill.
  assert (Forall flagged (shift_columns <$> processed_latest)) as Hflag.
  { apply Forall_fmap. eapply Forall2_Forall_r; [exact Hrows|]. apply Forall_forall.
    intros r _ r' (? & _)%preprocessed_columns. done. }
  destruct (proj1 (validate_filled_shifts_constraints_verdict filled_shifts)
              _ Hexisting) as (before & Hbefore & Hsame & _).
  rewrite (validate_constraints_select_notna _ _ Hfilled) in Hbefore.
  eapply fill_unfilled_shifts_valid; [done..|congruence].
Qed.


(** ** The definitions on sample data *)

Example categorize_shift_time_bounds :
  (λ h, categorize_shift_time {| hour := h; minute := 0; second := 0 |})
  <$> [5; 6; 11; 12; 17; 18; 21; 22; 0]%Z
  = ["night"; "morning"; "morning"; "afternoon"; "afternoon"; "evening"; "evening";
     "night"; "night"].
Proof. reflexivity. Qed.

(** A shift from 22:00 to 06:00 lasts 8 hours. *)
Example calculate_hours_past_midnight :
  (calculate_hours {| hour := 22; minute := 0; second := 0 |}
                   {| hour := 6; minute := 0; second := 0 |} == 8)%Q.
Proof. reflexivity. Qed.

Example categorize_duration_bounds :
  categorize_duration <$> [6; 6.5; 10; 10.5]%Q = ["short"; "medium"; "medium"; "long"].
Proof. reflexivity. Qed.

(** A profile that gives probability 0 to day 2 adds nothing to the score
    of a shift on that day. *)
Example day_never_worked_adds_nothing (score : Q) :
  (add_term {[ "Day1_Prob" := 1; "Day2_Prob" := 0 ]} weight_day (day_col 2) score
   == score)%Q.
Proof.
  unfold add_term. change (day_col 2) with "Day2_Prob".
  rewrite lookup_insert_ne by done. rewrite lookup_singleton_eq. ring.
Qed.

(** One unfilled shift of 8 hours on day 3, employee 1 at 38 committed
    hours over four days, employee 2 free: giving the shift to employee 1 is
    no point of the program, giving it to employee 2 is one. *)
Example thirty_eight_hours :
  let filled_shifts :=
    [set_ShiftDurationHours 10 (sample_shift 1 1 (Some 1%Z));
     set_ShiftDurationHours 10 (sample_shift 2 2 (Some 1%Z));
     set_ShiftDurationHours 10 (sample_shift 3 4 (Some 1%Z));
     sample_shift 4 6 (Some 1%Z)] in
  let to_first := varValue (answering LpStatusOptimal
                              [x_var 1 (100, 3)%Z; day_var 1 0 3] {| objective := lp_const 0; constraints := [] |}) in
  let to_second := varValue (answering LpStatusOptimal
                               [x_var 2 (100, 3)%Z; day_var 2 0 3] {| objective := lp_const 0; constraints := [] |}) in
  (p ← prepare [sample_shift 100 3 None] (ProfileRows [sample_profile 1; sample_profile 2])
         filled_shifts;
   Ok (committed_hours 1 filled_shifts,
       feasible (problem_of p) to_first, feasible (problem_of p) to_second))
  = Ok ((0 + 10 + 10 + 10 + 8)%Q, false, true).
Proof. vm_compute. reflexivity. Qed.

(** The frame that [compute_compatibility] returns for a history without
    filled shifts has no [EmployeeNumber] column: [solve_assignment] raises
    on it. *)
Example solve_assignment_without_profiles (solver : Solver) :
  (profiles ← compute_compatibility [sample_shift 1 1 None];
   solve_assignment solver [sample_shift 100 3 None] profiles [])
  = KeyError "EmployeeNumber".
Proof. reflexivity. Qed.

(** ** Instances of the theorems above on sample data *)

Lemma extract_shift_features_idempotent_witness :
  let df := [without_duration (sample_shift 1 1 (Some 7%Z)); sample_shift 2 2 None] in
  ∃ df', extract_shift_features df = Ok df'
  ∧ extract_shift_features df' = Ok df'
  ∧ Forall2 (λ r r', ∀ d, ShiftDurationHours r = Some d → ShiftDurationHours r' = Some d)
            df df'.
Proof.
  intros df. eexists. split; [reflexivity|].
  apply extract_shift_features_idempotent. reflexivity.
Defined.

Lemma get_compatibility_score_weighted_sum_witness :
  let employee_profile : gmap string Q := {[ "Day3_Prob" := 1%Q ]} in
  well_formed_profile employee_profile
  ∧ (0 <= get_compatibility_score employee_profile 3 "morning" "medium" 7 "morning_medium"
     ∧ get_compatibility_score employee_profile 3 "morning" "medium" 7 "morning_medium" <= 1)%Q.
Proof.
  intros employee_profile.
  assert (well_formed_profile employee_profile) as Hwf.
  { apply map_Forall_singleton. split; discriminate. }
  split; [exact Hwf|].
  exact (proj2 (proj2 (get_compatibility_score_weighted_sum employee_profile
                         3 "morning" "medium" 7 "morning_medium" Hwf))).
Defined.

Lemma compute_compatibility_distributions_witness :
  let historical_data :=
    [sample_shift 1 1 (Some 7%Z); sample_shift 2 2 (Some 7%Z);
     sample_shift 3 2 (Some 9%Z); sample_shift 4 3 None] in
  ∃ profiles, compute_compatibility historical_data = Ok profiles
  ∧ ∀ emp, (∃ p, p ∈ iterrows profiles ∧ profile_EmployeeNumber p = emp)
           ↔ (∃ r, r ∈ historical_data ∧ EmployeeNumber r = Some (Some emp)).
Proof.
  intros historical_data. eexists. split; [vm_compute; reflexivity|].
  edestruct (compute_compatibility_distributions historical_data)
    as (fs & _ & _ & Hemp); [vm_compute; reflexivity|].
  exact Hemp.
Defined.

Lemma validate_constraints_reports_witness :
  let snapshot := [sample_shift 1 1 (Some 7%Z); sample_shift 2 1 (Some 7%Z);
                   sample_shift 3 2 None] in
  accumulable snapshot
  ∧ ∃ res, validate_constraints snapshot = Ok res
    ∧ (∀ emp day, (∃ v, v ∈ daily_shifts (violations res)
                        ∧ sv_employee v = emp ∧ sv_day v = day)
                  ↔ (1 < shifts_on emp day snapshot)%nat).
Proof.
  intros snapshot.
  assert (accumulable snapshot) as Hrows.
  { repeat constructor; simpl; eauto. }
  split; [exact Hrows|].
  destruct (validate_constraints_reports snapshot Hrows)
    as (res & Hres & _ & _ & Hdaily & _).
  exists res. split; [exact Hres | exact Hdaily].
Defined.

(** C2 as stated fails: with the status [Undefined] and a value of 1 left
    in a variable, the returned mapping is not empty. *)
Lemma undefined_status_keeps_assignments :
  let solver := answering LpStatusUndefined [x_var 2 (100, 3)%Z] in
  ∃ log,
    solve_assignment solver [sample_shift 100 3 None]
      (ProfileRows [sample_profile 1; sample_profile 2]) []
    = Ok ([((100, 3)%Z, 2%Z)], log).
Proof. eexists. vm_compute. reflexivity. Qed.

Lemma solve_assignment_statuses_witness :
  let solver := answering LpStatusNotSolved [] in
  let unfilled_shifts := [sample_shift 100 3 None] in
  let employee_profiles := ProfileRows [sample_profile 1; sample_profile 2] in
  ∃ p, prepare unfilled_shifts employee_profiles [] = Ok p
  ∧ valid_employees_of (state p) (employees p) ≠ []
  ∧ ∃ log, solve_assignment solver unfilled_shifts employee_profiles [] = Ok ([], log)
           ∧ logged_statuses log = [LpStatusNotSolved].
Proof.
  intros solver unfilled_shifts employee_profiles.
  eexists. split; [vm_compute; reflexivity|].
  split; [vm_compute; discriminate|].
  edestruct (solve_assignment_statuses solver unfilled_shifts employee_profiles [])
    as (assignments & log & Hsolve & Hstatus);
    [vm_compute; reflexivity | vm_compute; discriminate |].
  exists log. vm_compute in Hstatus. destruct Hstatus as (Hlog & -> & _).
  split; [exact Hsolve | exact Hlog].
Defined.

Lemma solve_assignment_respects_limits_witness :
  let solver :=
    answering LpStatusOptimal
      [x_var 2 (100, 3)%Z; day_var 2 0 3; x_var 1 (101, 4)%Z; day_var 1 0 4] in
  let unfilled_shifts := [sample_shift 100 3 None; sample_shift 101 4 None] in
  let employee_profiles := ProfileRows [sample_profile 1; sample_profile 2] in
  let filled_shifts := [sample_shift 1 1 (Some 1%Z); sample_shift 2 2 (Some 1%Z)] in
  let assignments := [((101, 4)%Z, 1%Z); ((100, 3)%Z, 2%Z)] in
  ∃ p log,
    prepare unfilled_shifts employee_profiles filled_shifts = Ok p
    ∧ NoDup (shift_ids p)
    ∧ feasible (problem_of p) (varValue (solver (problem_of p))) = true
    ∧ solve_assignment solver unfilled_shifts employee_profiles filled_shifts
      = Ok (assignments, log)
    ∧ (committed_hours 1 filled_shifts
       + new_hours 1 assignments unfilled_shifts <= 40)%Q.
Proof.
  intros solver unfilled_shifts employee_profiles filled_shifts assignments.
  let r := eval vm_compute in
             (prepare unfilled_shifts employee_profiles filled_shifts) in
  match r with
  | Ok ?p0 =>
      exists p0; eexists;
      assert (prepare unfilled_shifts employee_profiles filled_shifts = Ok p0) as Hp
        by (vm_compute; reflexivity);
      assert (NoDup (shift_ids p0)) as Hshifts
        by (simpl; repeat constructor; set_solver);
      assert (feasible (problem_of p0) (varValue (solver (problem_of p0))) = true)
        as Hfeasible by (vm_compute; reflexivity)
  end.
  assert (solve_assignment solver unfilled_shifts employee_profiles filled_shifts
          = Ok (assignments, _)) as Hsolve
    by (vm_compute; reflexivity).
  split; [exact Hp|]. split; [exact Hshifts|]. split; [exact Hfeasible|].
  split; [exact Hsolve|].
  destruct (solve_assignment_respects_limits solver unfilled_shifts employee_profiles
              filled_shifts _ assignments _ Hp Hshifts Hfeasible Hsolve) as [_ Hlimits].
  apply (Hlimits 1%Z). vm_compute. set_solver.
Defined.

Lemma fill_unfilled_shifts_nothing_to_fill_witness :
  let snapshot := [sample_shift 1 1 (Some 1%Z); sample_shift 2 2 (Some 2%Z)] in
  Forall (λ r, ∃ emp, EmployeeNumber r = Some (Some emp)) snapshot
  ∧ fill_unfilled_shifts (answering LpStatusOptimal []) snapshot (ProfileRows [sample_profile 1])
    = Ok (snapshot, []).
Proof.
  intros snapshot.
  assert (Forall (λ r, ∃ emp, EmployeeNumber r = Some (Some emp)) snapshot) as Hfilled.
  { repeat constructor; simpl; eauto. }
  split; [exact Hfilled|].
  exact (fill_unfilled_shifts_nothing_to_fill _ snapshot _ Hfilled).
Defined.

Lemma full_week_at_limit : at_limit 1 full_week.
Proof. left. vm_compute. discriminate. Qed.

Lemma solve_assignment_all_excluded_witness :
  let unfilled_shifts := [sample_shift 100 6 None] in
  let employee_profiles := [sample_profile 1] in
  Forall schedulable unfilled_shifts ∧ accumulable full_week
  ∧ (∀ prof, prof ∈ employee_profiles →
             at_limit (profile_EmployeeNumber prof) full_week)
  ∧ ∃ log, solve_assignment (answering LpStatusOptimal [x_var 1 (100, 6)%Z])
             unfilled_shifts (ProfileRows employee_profiles) full_week
           = Ok ([], log)
           ∧ only_prints log.
Proof.
  intros unfilled_shifts employee_profiles.
  assert (Forall schedulable unfilled_shifts) as Hunfilled.
  { repeat constructor; simpl; eauto. }
  assert (accumulable full_week) as Hfilled.
  { repeat constructor; simpl; eauto. }
  assert (∀ prof, prof ∈ employee_profiles →
                  at_limit (profile_EmployeeNumber prof) full_week) as Hlimit.
  { intros prof ->%list_elem_of_singleton. exact full_week_at_limit. }
  split; [exact Hunfilled|]. split; [exact Hfilled|]. split; [exact Hlimit|].
  exact (solve_assignment_all_excluded _ unfilled_shifts employee_profiles full_week
           Hunfilled Hfilled Hlimit).
Defined.

Lemma excluded_employee_never_assigned_witness :
  let unfilled_shifts := [sample_shift 100 6 None] in
  let employee_profiles := ProfileRows [sample_profile 1; sample_profile 2] in
  ∃ p, prepare unfilled_shifts employee_profiles full_week = Ok p
  ∧ at_limit 1 full_week
  ∧ 1%Z ∉ valid_employees_of (state p) (employees p).
Proof.
  intros unfilled_shifts employee_profiles.
  let r := eval vm_compute in (prepare unfilled_shifts employee_profiles full_week) in
  match r with
  | Ok ?p0 =>
      exists p0;
      assert (prepare unfilled_shifts employee_profiles full_week = Ok p0) as Hp
        by (vm_compute; reflexivity)
  end.
  split; [exact Hp|]. split; [exact full_week_at_limit|].
  exact (proj1 (excluded_employee_never_assigned unfilled_shifts employee_profiles
                  full_week _ 1%Z Hp full_week_at_limit)).
Defined.

(** ** Instances of the further properties on sample data *)

Lemma validate_filled_shifts_constraints_agrees_witness :
  let df := [sample_shift 1 1 (Some 7%Z); sample_shift 2 1 (Some 7%Z);
             sample_shift 3 2 None] in
  ∃ res res', validate_filled_shifts_constraints df = Ok res
              ∧ validate_constraints df = Ok res'
              ∧ valid res = false ∧ same_verdict res res'.
Proof.
  intros df.
  destruct (validate_filled_shifts_constraints df) as [res|column] eqn:Hres;
    [|vm_compute in Hres; discriminate].
  destruct (proj1 (validate_filled_shifts_constraints_agrees df) res Hres)
    as (res' & Hres' & Hsame).
  exists res, res'. split; [reflexivity|]. split; [exact Hres'|].
  split; [|exact Hsame]. vm_compute in Hres. injection Hres as <-. reflexivity.
Defined.

Lemma calculate_hours_bounds_witness :
  time_of_day at_16 ∧ time_of_day at_8
  ∧ (0 <= calculate_hours at_16 at_8 ∧ calculate_hours at_16 at_8 < 24)%Q.
Proof.
  assert (time_of_day at_16) as Hstart by (unfold time_of_day; simpl; lia).
  assert (time_of_day at_8) as Hend by (unfold time_of_day; simpl; lia).
  split; [exact Hstart|]. split; [exact Hend|].
  exact (proj1 (calculate_hours_bounds at_16 at_8 Hstart Hend)).
Defined.

Lemma compute_assignment_compatibility_bounds_witness :
  let assignments := [sample_shift 1 3 (Some 1%Z); sample_shift 2 2 None] in
  let employee_profiles := ProfileRows [sample_profile 1] in
  (∀ prof, prof ∈ iterrows employee_profiles → well_formed_profile (prob_columns prof))
  ∧ ∃ mean, compute_assignment_compatibility assignments employee_profiles = Ok mean
            ∧ (0 <= mean ∧ mean <= 1)%Q.
Proof.
  intros assignments employee_profiles.
  assert (∀ prof, prof ∈ iterrows employee_profiles →
                  well_formed_profile (prob_columns prof)) as Hwf.
  { intros prof ->%list_elem_of_singleton. apply map_Forall_singleton.
    split; discriminate. }
  split; [exact Hwf|].
  destruct (compute_assignment_compatibility assignments employee_profiles)
    as [mean|column] eqn:Hmean; [|vm_compute in Hmean; discriminate].
  exists mean. split; [reflexivity|].
  exact (compute_assignment_compatibility_bounds assignments employee_profiles mean
           Hwf Hmean).
Defined.

Lemma compute_assignment_compatibility_unprofiled_witness :
  let assignments := [sample_shift 1 1 (Some 5%Z); sample_shift 2 2 None] in
  let rows := [sample_profile 1] in
  Forall (λ r, ∃ e, EmployeeNumber r = Some e
                    ∧ ∀ emp, e = Some emp → emp ∉ profile_EmployeeNumber <$> rows)
         assignments
  ∧ compute_assignment_compatibility assignments (ProfileRows rows) = Ok 0%Q.
Proof.
  intros assignments rows.
  assert (Forall (λ r, ∃ e, EmployeeNumber r = Some e
                    ∧ ∀ emp, e = Some emp → emp ∉ profile_EmployeeNumber <$> rows)
                 assignments) as Hunprofiled.
  { repeat constructor; eexists; (split; [reflexivity|]); intros emp [= <-].
    intros [=]%list_elem_of_singleton. }
  split; [exact Hunprofiled|].
  destruct (extract_shift_features assignments) as [features|column] eqn:Hfeatures;
    [|vm_compute in Hfeatures; discriminate].
  exact (compute_assignment_compatibility_unprofiled assignments features rows
           Hfeatures Hunprofiled).
Defined.

Lemma drop_duplicates_keeps_first_witness :
  let df := [sample_shift 100 3 None; sample_shift 101 4 None;
             without_duration (sample_shift 100 3 None)] in
  Forall (λ r, is_Some (row_shift_id r)) df
  ∧ ∃ df', drop_duplicates df = Ok df'
           ∧ df' `sublist_of` df
           ∧ head (filter (λ r, row_shift_id r = Some (100, 3)%Z) df')
             = Some (sample_shift 100 3 None).
Proof.
  intros df.
  assert (Forall (λ r, is_Some (row_shift_id r)) df) as Hkeys.
  { repeat constructor; eexists; reflexivity. }
  split; [exact Hkeys|].
  destruct (proj2 (drop_duplicates_keeps_first df) Hkeys) as [df' Hdf'].
  destruct (proj1 (drop_duplicates_keeps_first df) df' Hdf') as (_ & Hsub & Hfirst).
  exists df'. split; [exact Hdf'|]. split; [exact Hsub|].
  rewrite (Hfirst (100, 3)%Z). reflexivity.
Defined.

Lemma drop_duplicates_distinct_witness :
  let df := [sample_shift 100 3 None; sample_shift 101 4 None] in
  ∃ shift_ids, map_rows shift_id_of df = Ok shift_ids ∧ NoDup shift_ids
               ∧ drop_duplicates df = Ok df.
Proof.
  intros df. exists [(100, 3)%Z; (101, 4)%Z].
  assert (map_rows shift_id_of df = Ok [(100, 3)%Z; (101, 4)%Z]) as Hids
    by reflexivity.
  assert (NoDup [(100, 3)%Z; (101, 4)%Z]) as Hdistinct
    by (repeat constructor; set_solver).
  split; [exact Hids|]. split; [exact Hdistinct|].
  exact (proj1 (drop_duplicates_distinct df) _ Hids Hdistinct).
Defined.

Lemma problem_feasible_unassigned_witness :
  let unfilled_shifts := [sample_shift 100 3 None; sample_shift 101 4 None] in
  let employee_profiles := ProfileRows [sample_profile 1; sample_profile 2] in
  ∃ p, prepare unfilled_shifts employee_profiles full_week = Ok p
       ∧ feasible (problem_of p) unassigned = true.
Proof.
  intros unfilled_shifts employee_profiles.
  destruct (prepare unfilled_shifts employee_profiles full_week) as [p|column] eqn:Hp;
    [|vm_compute in Hp; discriminate].
  exists p. split; [reflexivity|].
  exact (problem_feasible_unassigned unfilled_shifts employee_profiles full_week p Hp).
Defined.

Lemma extract_solution_least_employee_witness :
  let unfilled_shifts := [sample_shift 100 3 None] in
  let employee_profiles := ProfileRows [sample_profile 2; sample_profile 1] in
  let varValue := varValue (answering LpStatusOptimal
                              [x_var 2 (100, 3)%Z; x_var 1 (100, 3)%Z]
                              {| objective := lp_const 0; constraints := [] |}) in
  ∃ p emp,
    prepare unfilled_shifts employee_profiles [] = Ok p
    ∧ dict_get (100, 3)%Z
        (extract_solution varValue (valid_employees_of (state p) (employees p))
           (shift_ids p)).1
      = Some emp
    ∧ (emp ≤ 1)%Z.
Proof.
  intros unfilled_shifts employee_profiles varValue.
  destruct (prepare unfilled_shifts employee_profiles []) as [p|column] eqn:Hp;
    [|vm_compute in Hp; discriminate].
  pose proof (extract_solution_least_employee unfilled_shifts employee_profiles []
                p varValue (100, 3)%Z Hp) as [Hleast Hheld].
  assert (2%Z ∈ valid_employees_of (state p) (employees p)
          ∧ 1%Z ∈ valid_employees_of (state p) (employees p)
          ∧ (100, 3)%Z ∈ shift_ids p) as (Hsecond & Hfirst & Hshift).
  { vm_compute in Hp. injection Hp as <-.
    repeat split; apply (bool_decide_unpack _); vm_compute; exact I. }
  destruct (Hheld 2%Z Hsecond Hshift) as [emp Hemp]; [reflexivity|].
  exists p, emp. split; [reflexivity|]. split; [exact Hemp|].
  exact (proj2 (proj2 (Hleast emp Hemp)) 1%Z Hfirst eq_refl).
Defined.

Lemma compute_compatibility_matrix_rows_witness :
  let unfilled_shifts := [sample_shift 100 3 None; sample_shift 101 4 None] in
  let employee_profiles := ProfileRows [sample_profile 1; sample_profile 2] in
  ∃ rows, compute_compatibility_matrix unfilled_shifts employee_profiles = Ok rows
          ∧ length rows = 4%nat.
Proof.
  intros unfilled_shifts employee_profiles.
  destruct (compute_compatibility_matrix unfilled_shifts employee_profiles)
    as [rows|column] eqn:Hrows; [|vm_compute in Hrows; discriminate].
  exists rows. split; [reflexivity|].
  exact (proj1 (compute_compatibility_matrix_rows unfilled_shifts employee_profiles
                  rows Hrows)).
Defined.

Lemma objective_coefficients_witness :
  let unfilled_shifts := [sample_shift 100 3 None] in
  let employee_profiles := ProfileRows [sample_profile 1; sample_profile 2] in
  ∃ p, prepare unfilled_shifts employee_profiles [] = Ok p
       ∧ 2%Z ∈ employees p ∧ (100, 3)%Z ∈ shift_ids p
       ∧ is_Some (compatibility p !! (2%Z, (100, 3)%Z)).
Proof.
  intros unfilled_shifts employee_profiles.
  destruct (prepare unfilled_shifts employee_profiles []) as [p|column] eqn:Hp;
    [|vm_compute in Hp; discriminate].
  exists p.
  assert (2%Z ∈ employees p ∧ (100, 3)%Z ∈ shift_ids p) as [Hemp Hshift].
  { vm_compute in Hp. injection Hp as <-.
    split; apply (bool_decide_unpack _); vm_compute; exact I. }
  split; [reflexivity|]. split; [exact Hemp|]. split; [exact Hshift|].
  destruct (objective_coefficients unfilled_shifts employee_profiles [] p 2%Z
              (100, 3)%Z Hp Hemp Hshift)
    as (prof & ? & ? & ? & ? & _ & _ & Hscore & _).
  rewrite Hscore. eexists. reflexivity.
Defined.

Lemma fill_unfilled_shifts_without_history_witness :
  let historical_data := [sample_shift 1 1 None] in
  let latest_snapshot := [sample_shift 1 1 (Some 1%Z); sample_shift 100 3 None] in
  Forall (λ r, EmployeeNumber r = Some None) historical_data
  ∧ (∃ r, r ∈ latest_snapshot ∧ EmployeeNumber r = Some None)
  ∧ ∃ column,
      fill_unfilled_shifts giving_to_second latest_snapshot EmptyDataFrame
      = KeyError column.
Proof.
  intros historical_data latest_snapshot.
  assert (Forall (λ r, EmployeeNumber r = Some None) historical_data) as Hhistory
    by (repeat constructor).
  assert (∃ r, r ∈ latest_snapshot ∧ EmployeeNumber r = Some None) as Hunfilled.
  { exists (sample_shift 100 3 None). split; [set_solver | reflexivity]. }
  split; [exact Hhistory|]. split; [exact Hunfilled|].
  exact (proj2 (fill_unfilled_shifts_without_history giving_to_second historical_data
                  latest_snapshot Hhistory Hunfilled)).
Defined.

Lemma fill_unfilled_shifts_rows_witness :
  let employee_profiles := ProfileRows [sample_profile 1; sample_profile 2] in
  ∃ result log,
    fill_unfilled_shifts giving_to_second sample_snapshot employee_profiles
    = Ok (result, log)
    ∧ length result = 2%nat.
Proof.
  intros employee_profiles.
  destruct (fill_unfilled_shifts giving_to_second sample_snapshot employee_profiles)
    as [[result log]|column] eqn:Hfill; [|vm_compute in Hfill; discriminate].
  exists result, log. split; [reflexivity|].
  symmetry.
  exact (Forall2_length _ _ _
           (fill_unfilled_shifts_rows giving_to_second sample_snapshot
              employee_profiles result log Hfill)).
Defined.

(** The values that [giving_to_second] leaves are a point of the program
    that [fill_unfilled_shifts] builds on the sample snapshot. *)
Lemma giving_to_second_feasible p :
  prepared_for sample_snapshot sample_profiles = Ok p →
  feasible (problem_of p) (varValue (giving_to_second (problem_of p))) = true.
Proof. intros Hp. vm_compute in Hp. injection Hp as <-. vm_compute. reflexivity. Qed.

Lemma sample_snapshot_flagged : Forall flagged sample_snapshot.
Proof. repeat constructor; eexists; split; reflexivity. Qed.

Lemma sample_snapshot_within_limits : within_limits 1 sample_snapshot.
Proof.
  split; [vm_compute; discriminate|]. split; [vm_compute; lia|].
  intros day. unfold shifts_on, sample_snapshot.
  rewrite !filter_cons, filter_nil. repeat case_decide; simpl; try lia.
  all: destruct_and?; discriminate.
Qed.

Lemma fill_unfilled_shifts_respects_limits_witness :
  Forall flagged sample_snapshot
  ∧ ∃ result log,
      fill_unfilled_shifts giving_to_second sample_snapshot sample_profiles
      = Ok (result, log)
      ∧ result !! 1%nat = Some (set_assigned 2 (sample_shift 100 3 None))
      ∧ within_limits 2 result.
Proof.
  split; [exact sample_snapshot_flagged|].
  destruct (fill_unfilled_shifts giving_to_second sample_snapshot sample_profiles)
    as [[result log]|column] eqn:Hfill; [|vm_compute in Hfill; discriminate].
  exists result, log. split; [reflexivity|].
  assert (result !! 1%nat = Some (set_assigned 2 (sample_shift 100 3 None))) as Hrow
    by (vm_compute in Hfill; injection Hfill as <- <-; reflexivity).
  split; [exact Hrow|].
  exact (fill_unfilled_shifts_respects_limits giving_to_second sample_snapshot
           sample_profiles result log sample_snapshot_flagged
           giving_to_second_feasible Hfill 1%nat _ _ 2%Z eq_refl Hrow eq_refl eq_refl).
Defined.

Lemma fill_unfilled_shifts_keeps_limits_witness :
  within_limits 1 sample_snapshot
  ∧ ∃ result log,
      fill_unfilled_shifts giving_to_second sample_snapshot sample_profiles
      = Ok (result, log)
      ∧ within_limits 1 result.
Proof.
  split; [exact sample_snapshot_within_limits|].
  destruct (fill_unfilled_shifts giving_to_second sample_snapshot sample_profiles)
    as [[result log]|column] eqn:Hfill; [|vm_compute in Hfill; discriminate].
  exists result, log. split; [reflexivity|].
  exact (fill_unfilled_shifts_keeps_limits giving_to_second sample_snapshot
           sample_profiles result log 1%Z sample_snapshot_flagged
           giving_to_second_feasible Hfill sample_snapshot_within_limits).
Defined.

Lemma fill_unfilled_shifts_keeps_valid_witness :
  ∃ before result log after,
    validate_constraints sample_snapshot = Ok before ∧ valid before = true
    ∧ fill_unfilled_shifts giving_to_second sample_snapshot sample_profiles
      = Ok (result, log)
    ∧ validate_constraints result = Ok after ∧ valid after = true.
Proof.
  destruct (validate_constraints sample_snapshot) as [before|column] eqn:Hbefore;
    [|vm_compute in Hbefore; discriminate].
  assert (valid before = true) as Hvalid
    by (vm_compute in Hbefore; injection Hbefore as <-; reflexivity).
  destruct (fill_unfilled_shifts giving_to_second sample_snapshot sample_profiles)
    as [[result log]|column] eqn:Hfill; [|vm_compute in Hfill; discriminate].
  destruct (fill_unfilled_shifts_keeps_valid giving_to_second sample_snapshot
              sample_profiles result log before sample_snapshot_flagged
              giving_to_second_feasible Hfill Hbefore Hvalid)
    as (after & Hafter & Hvalid' & _).
  exists before, result, log, after.
  split; [reflexivity|]. split; [exact Hvalid|]. split; [reflexivity|].
  split; [exact Hafter | exact Hvalid'].
Defined.

Lemma sample_schedule_raw : Forall raw sample_schedule.
Proof. repeat constructor; simpl; eauto. Qed.

Lemma preprocess_schedule_rows_witness :
  Forall raw sample_schedule
  ∧ ∃ df' kept,
      preprocess_schedule sample_schedule true = Ok df'
      ∧ deduplicate_schedule_details sample_schedule true = Ok kept
      ∧ Forall2 preprocessed kept df'.
Proof.
  split; [exact sample_schedule_raw|].
  destruct (proj2 (preprocess_schedule_rows sample_schedule true) sample_schedule_raw)
    as [df' Hdf'].
  destruct (proj1 (preprocess_schedule_rows sample_schedule true) df' Hdf')
    as (kept & Hkept & Hrows).
  exists df', kept. split; [exact Hdf'|]. split; [exact Hkept | exact Hrows].
Defined.

Lemma preprocess_schedule_snapshot_witness :
  ∃ df', preprocess_schedule sample_schedule true = Ok df'
         ∧ Forall flagged (shift_columns <$> df')
         ∧ select_IsUnfilled (shift_columns <$> df')
           = select_isna (shift_columns <$> df').
Proof.
  destruct (preprocess_schedule sample_schedule true) as [df'|column] eqn:Hdf';
    [|vm_compute in Hdf'; discriminate].
  exists df'. split; [reflexivity|].
  destruct (preprocess_schedule_snapshot sample_schedule true df' Hdf')
    as (Hflagged & _ & Hselect & _).
  split; [exact Hflagged | exact Hselect].
Defined.

Lemma solve_assignment_returns_witness :
  let unfilled_shifts := [sample_shift 100 3 None] in
  Forall schedulable unfilled_shifts ∧ accumulable full_week
  ∧ ∃ assignments log,
      solve_assignment giving_to_second unfilled_shifts sample_profiles full_week
      = Ok (assignments, log)
      ∧ NoDup assignments.*1.
Proof.
  intros unfilled_shifts.
  assert (Forall schedulable unfilled_shifts) as Hunfilled
    by (repeat constructor; simpl; eauto).
  assert (accumulable full_week) as Hfilled
    by (repeat constructor; simpl; eauto).
  split; [exact Hunfilled|]. split; [exact Hfilled|].
  destruct (solve_assignment_returns giving_to_second unfilled_shifts
              [sample_profile 1; sample_profile 2] full_week Hunfilled Hfilled)
    as (assignments & log & Hsolve & Hkeys & _).
  exists assignments, log. split; [exact Hsolve | exact Hkeys].
Defined.

Lemma sample_snapshot_fillable : Forall fillable sample_snapshot.
Proof.
  repeat (apply Forall_cons; split); [..|apply Forall_nil];
    (repeat split; simpl; eauto); intros _; repeat split; simpl; eauto.
Qed.

Lemma fill_unfilled_shifts_returns_witness :
  Forall fillable sample_snapshot
  ∧ ∃ result log,
      fill_unfilled_shifts giving_to_second sample_snapshot sample_profiles
      = Ok (result, log)
      ∧ length result = length sample_snapshot.
Proof.
  split; [exact sample_snapshot_fillable|].
  exact (fill_unfilled_shifts_returns giving_to_second sample_snapshot
           [sample_profile 1; sample_profile 2] sample_snapshot_fillable).
Defined.

Lemma compute_compatibility_one_profile_per_employee_witness :
  let historical_data :=
    [sample_shift 1 1 (Some 7%Z); sample_shift 2 2 (Some 9%Z);
     sample_shift 3 2 (Some 7%Z); sample_shift 4 3 None] in
  ∃ profiles, compute_compatibility historical_data = Ok profiles
              ∧ NoDup (profile_EmployeeNumber <$> iterrows profiles).
Proof.
  intros historical_data.
  destruct (compute_compatibility historical_data) as [profiles|column] eqn:Hprofiles;
    [|vm_compute in Hprofiles; discriminate].
  exists profiles. split; [reflexivity|].
  exact (proj1 (compute_compatibility_one_profile_per_employee historical_data
                  profiles Hprofiles)).
Defined.

Lemma validate_constraints_aggregates_witness :
  ∃ res, validate_constraints sample_snapshot = Ok res
         ∧ is_Some (aggregates res)
         ∧ match aggregates res with
           | Some (hours, days, shifts) =>
               default 0%Q (dict_get (1%Z, 0%Z) hours)
               = committed_hours 1 sample_snapshot
           | None => True
           end.
Proof.
  destruct (validate_constraints sample_snapshot) as [res|column] eqn:Hres;
    [|vm_compute in Hres; discriminate].
  exists res. split; [reflexivity|].
  pose proof (validate_constraints_aggregates sample_snapshot res Hres) as Hentries.
  split; [vm_compute in Hres; injection Hres as <-; eexists; reflexivity|].
  destruct (aggregates res) as [[[hours days] shifts]|]; [|exact I].
  exact (proj1 (proj2 Hentries 1%Z)).
Defined.

Lemma fill_unfilled_shifts_spares_employees_at_limit_witness :
  let latest_snapshot := full_week ++ [sample_shift 100 6 None] in
  let solver := answering LpStatusOptimal [x_var 1 (100, 6)%Z] in
  at_limit 1 latest_snapshot
  ∧ ∃ result log,
      fill_unfilled_shifts solver latest_snapshot sample_profiles = Ok (result, log)
      ∧ ∀ i r r', latest_snapshot !! i = Some r → result !! i = Some r' →
                  EmployeeNumber r' = Some (Some 1%Z) → r' = r.
Proof.
  intros latest_snapshot solver.
  assert (at_limit 1 latest_snapshot) as Hlimit by (left; vm_compute; discriminate).
  split; [exact Hlimit|].
  destruct (fill_unfilled_shifts solver latest_snapshot sample_profiles)
    as [[result log]|column] eqn:Hfill; [|vm_compute in Hfill; discriminate].
  exists result, log. split; [reflexivity|].
  exact (fill_unfilled_shifts_spares_employees_at_limit solver latest_snapshot
           sample_profiles result log 1%Z Hfill Hlimit).
Defined.

Lemma filled_snapshot_passes_the_check_witness :
  ∃ processed_latest filled_shifts existing_validation filled_snapshot log
    constraint_validation,
    preprocess_schedule sample_schedule true = Ok processed_latest
    ∧ select_notna (shift_columns <$> processed_latest) = Ok filled_shifts
    ∧ validate_filled_shifts_constraints filled_shifts = Ok existing_validation
    ∧ valid existing_validation = true
    ∧ fill_unfilled_shifts giving_to_second (shift_columns <$> processed_latest)
        sample_profiles
      = Ok (filled_snapshot, log)
    ∧ validate_constraints filled_snapshot = Ok constraint_validation
    ∧ valid constraint_validation = true.
Proof.
  destruct (preprocess_schedule sample_schedule true)
    as [processed_latest|column] eqn:Hprocessed;
    [|vm_compute in Hprocessed; discriminate].
  assert (∃ filled_shifts existing_validation,
            select_notna (shift_columns <$> processed_latest) = Ok filled_shifts
            ∧ validate_filled_shifts_constraints filled_shifts = Ok existing_validation
            ∧ valid existing_validation = true
            ∧ ∀ p, prepared_for (shift_columns <$> processed_latest) sample_profiles
                   = Ok p →
                   feasible (problem_of p) (varValue (giving_to_second (problem_of p)))
                   = true)
    as (filled_shifts & existing_validation & Hfilled & Hexisting & Hvalid & Hsolver).
  { vm_compute in Hprocessed. injection Hprocessed as <-.
    eexists _, _. split; [vm_compute; reflexivity|].
    split; [vm_compute; reflexivity|]. split; [reflexivity|].
    intros p Hp. vm_compute in Hp. injection Hp as <-. vm_compute. reflexivity. }
  destruct (fill_unfilled_shifts giving_to_second (shift_columns <$> processed_latest)
              sample_profiles)
    as [[filled_snapshot log]|column] eqn:Hfill.
  2: { vm_compute in Hprocessed. injection Hprocessed as <-.
       vm_compute in Hfill. discriminate. }
  destruct (filled_snapshot_passes_the_check giving_to_second sample_schedule
              processed_latest true sample_profiles filled_shifts filled_snapshot
              existing_validation log Hprocessed Hfilled Hexisting Hvalid Hsolver Hfill)
    as (constraint_validation & Hcheck & Hvalid' & _).
  exists processed_latest, filled_shifts, existing_validation, filled_snapshot, log,
    constraint_validation.
  split; [reflexivity|]. split; [exact Hfilled|]. split; [exact Hexisting|].
  split; [exact Hvalid|]. split; [exact Hfill|].
  split; [exact Hcheck | exact Hvalid'].
Defined.
